(** * ClientServerApp: newline framing, device state machine, collector registry

    A shallow embedding of [ClientApp/client.{h,cpp}] and
    [ServerApp/tcpserver.{h,cpp}], with the slots of
    [ServerApp/serverwindow.{h,cpp}] that handle the signals of the server
    and the argument loop of [ClientApp/main.cpp].

    Conventions of the embedding.
    - A slot or public method is one atomic transition of the object that
      owns it.  It is a function from the object's fields to the new fields
      and the ordered trace of what it did to the outside: signals emitted,
      calls on its socket and on its timers.
    - A socket raises [disconnected()] before [abort()] returns when it was
      connected or closing, and before [disconnectFromHost()] returns when
      it has nothing left to write.  The connections of this signal are
      direct, so its slot runs inside the call.  Where the caller goes on
      after the call ([Client::connectToServer], [Client::disconnect],
      [TcpServer::stopServer]) the slot is part of the caller's transition,
      at the place of the call.  Where the call is the last action of the
      caller (the overflow branch of [TcpServer::onReadyRead]) the slot is
      the next transition.
    - [TcpServer::stopServer] walks [clients_] with an iterator while that
      slot erases from it.  A transition that steps an iterator whose entry
      is gone ends there, as [Undefined]: its fields and its trace are those
      of that point, and of what the program does next nothing is known.
    - What Qt computes and the repository does not (JSON text, place
      markers, number formatting, the random generator, the result of a
      socket write) is a field of the class [QtRuntime]; what it computes
      for the window only (fixed-point numbers, time formats) is a field of
      the class [QtText]. *)

From Stdlib Require Import ZArith Floats Strings.Byte DecimalString Lia.
From stdpp Require Import base option list gmap strings sorting.

Set Warnings "-register-all".
Open Scope Z_scope.

(** ** C++ [int] *)

Definition INT_MAX : Z := 2147483647.
Definition INT_MIN : Z := -2147483648.

(** Conversion to a 32-bit two's complement [int]. *)
Definition to_int (z : Z) : Z := (z + 2147483648) mod 4294967296 - 2147483648.

(** [a + b] on [int].  The standard leaves the overflow undefined; the
    targets wrap, and so does the model. *)
Definition int_add (a b : Z) : Z := to_int (a + b).

Definition fits_int (z : Z) : bool := (INT_MIN <=? z) && (z <=? INT_MAX).

(** ** QByteArray *)

Abbreviation QByteArray := (list byte).

Definition size (b : QByteArray) : Z := Z.of_nat (length b).

Definition isEmpty (b : QByteArray) : bool :=
  match b with [] => true | _ :: _ => false end.

(** Position of the first [c], or -1. *)
Fixpoint indexOf (c : byte) (b : QByteArray) : Z :=
  match b with
  | [] => -1
  | x :: b' =>
      if Byte.eqb x c then 0
      else let r := indexOf c b' in if r <? 0 then -1 else r + 1
  end.

Definition contains (c : byte) (b : QByteArray) : bool :=
  negb (indexOf c b =? -1).

(** [left(len)]: the whole array when [len >= size()], nothing when
    [len < 0]. *)
Definition left (len : Z) (b : QByteArray) : QByteArray :=
  if size b <=? len then b else take (Z.to_nat len) b.

(** [remove(pos, len)]: no change when [len <= 0], [pos < 0] or [pos] is past
    the end; the removed range is cut at the end of the array. *)
Definition remove (pos len : Z) (b : QByteArray) : QByteArray :=
  if (len <=? 0) || (pos <? 0) || (size b <=? pos) then b
  else take (Z.to_nat pos) b ++ drop (Z.to_nat (pos + len)) b.

(** ** QString formatting *)

(** [QString::arg(int)], decimal. *)
Definition arg_int (z : Z) : string := NilZero.string_of_int (Z.to_int z).

Arguments arg_int : simpl never.
Arguments String.append : simpl never.

(** ** JSON values *)

(** [QJsonValue].  Qt keeps a whole number as an integer and any other
    number as a double; both have type [QJsonValue::Double]. *)
Inductive QJsonValue :=
| JNull
| JBool (b : bool)
| JInteger (n : Z)
| JDouble (d : float)
| JString (s : string)
| JArray (a : list QJsonValue)
| JObject (o : gmap string QJsonValue)
| JUndefined.

Abbreviation QJsonObject := (gmap string QJsonValue).

Inductive QJsonDocument :=
| DocNull
| DocArray (a : list QJsonValue)
| DocObject (o : QJsonObject).

Definition isObject (doc : QJsonDocument) : bool :=
  match doc with DocObject _ => true | _ => false end.

(** [QJsonDocument::object()]: the empty object for a document that holds
    none. *)
Definition object (doc : QJsonDocument) : QJsonObject :=
  match doc with DocObject o => o | _ => ∅ end.

(** [operator[]] of a constant object. *)
Definition json_at (o : QJsonObject) (key : string) : QJsonValue :=
  default JUndefined (o !! key).

(** [operator[]] of a mutable object: a missing key is created with the
    value null. *)
Definition json_ref (o : QJsonObject) (key : string) : QJsonValue * QJsonObject :=
  match o !! key with
  | Some v => (v, o)
  | None => (JNull, <[key := JNull]> o)
  end.

Definition toString (v : QJsonValue) : string :=
  match v with JString s => s | _ => "" end.

(** [double(n)] for a whole number [n]: the double nearest to [n], the even
    one of two that are equally near. *)
Definition Z_to_float (z : Z) : float :=
  SF2Prim (SpecFloat.binary_normalize FloatOps.prec FloatOps.emax z 0 false).

Definition toDouble (v : QJsonValue) : float :=
  match v with
  | JDouble d => d
  | JInteger n => Z_to_float n
  | _ => 0%float
  end.

(** The integer a finite double is equal to, when there is one. *)
Definition SF_whole (f : SpecFloat.spec_float) : option Z :=
  match f with
  | SpecFloat.S754_zero _ => Some 0
  | SpecFloat.S754_finite s m e =>
      let sign (z : Z) := if s then - z else z in
      if 0 <=? e then Some (sign (Z.pos m * 2 ^ e))
      else if Z.pos m mod 2 ^ (- e) =? 0 then Some (sign (Z.pos m / 2 ^ (- e)))
      else None
  | _ => None
  end.

(** [toInt()]: the default 0 for a value that is no number, no whole number
    or no [int]. *)
Definition toInt (v : QJsonValue) : Z :=
  match v with
  | JInteger n => if fits_int n then n else 0
  | JDouble d =>
      match SF_whole (Prim2SF d) with
      | Some z => if fits_int z then z else 0
      | None => 0
      end
  | _ => 0
  end.

(** [QJsonValue(double)]: a whole number in the range of [qint64] is kept as
    an integer. *)
Definition fromDouble (d : float) : QJsonValue :=
  match SF_whole (Prim2SF d) with
  | Some z =>
      if (-9223372036854775808 <=? z) && (z <? 9223372036854775808)
      then JInteger z else JDouble d
  | None => JDouble d
  end.

(** ** What Qt supplies *)

Abbreviation Socket := N.

Inductive SocketState :=
| UnconnectedState | HostLookupState | ConnectingState | ConnectedState
| BoundState | ListeningState | ClosingState.

#[global] Instance SocketState_eq_dec : EqDecision SocketState.
Proof. solve_decision. Defined.

Class QtRuntime := {
  (** [QJsonDocument(obj).toJson(QJsonDocument::Compact)] *)
  toJson : QJsonObject → QByteArray;
  (** [QJsonDocument::fromJson]: the error string, or the document *)
  fromJson : QByteArray → string + QJsonDocument;
  (** [QString::arg(const QString &)] on a template: the text is put for
      the place marker with the lowest number, wherever it occurs;
      [arg(int)] is [arg] of the number's text *)
  QString_arg : string → string → string;
  (** [QString::arg(double)] *)
  arg_double : float → string;
  (** the [n]-th draw of [QRandomGenerator::bounded(lo, hi)] *)
  random_bounded : nat → Z → Z → Z;
  (** what [QTcpSocket::write] returns *)
  socket_write : Socket → QByteArray → Z;
  (** [QTcpSocket::errorString()] *)
  socket_errorString : Socket → string;
  (** [QDateTime::currentDateTime()] *)
  currentDateTime : Z;
}.

(** ** Transitions with a trace *)

Section Act.
Context {St Ev : Type}.

Definition Act (A : Type) : Type := St → A * St * list Ev.

Definition ret {A} (a : A) : Act A := λ s, (a, s, []).

Definition bind {A B} (m : Act A) (k : A → Act B) : Act B :=
  λ s, let '(a, s1, t1) := m s in
       let '(b, s2, t2) := k a s1 in
       (b, s2, t1 ++ t2).

Definition get : Act St := λ s, (s, s, []).
Definition modify (f : St → St) : Act unit := λ s, (tt, f s, []).
Definition emit (e : Ev) : Act unit := λ s, (tt, s, [e]).
Definition when (b : bool) (m : Act unit) : Act unit :=
  if b then m else ret tt.

(** State and trace of a transition, its result dropped. *)
Definition exec {A} (m : Act A) (s : St) : St * list Ev :=
  let '(_, s', t) := m s in (s', t).
End Act.

Arguments Act : clear implicits.

#[global] Instance Act_ret {St Ev} : MRet (Act St Ev) := @ret St Ev.
#[global] Instance Act_bind {St Ev} : MBind (Act St Ev) :=
  λ A B k m, bind m k.

(** ** Frames of a delimited stream *)

(** [scan d b]: the byte strings that [d] terminates in [b], in order, and
    the bytes after the last [d]. *)
Fixpoint scan (d : byte) (b : QByteArray) : list QByteArray * QByteArray :=
  match b with
  | [] => ([], [])
  | x :: b' =>
      let r := scan d b' in
      if Byte.eqb x d then ([] :: r.1, r.2)
      else match r.1 with
           | [] => ([], x :: r.2)
           | f :: fs => ((x :: f) :: fs, r.2)
           end
  end.

Section FrameLoop.
Context {St Ev : Type}.
Variable d : byte.
Variable getbuf : St → QByteArray.
Variable setbuf : QByteArray → St → St.
Variable process : QByteArray → St → St * list Ev.

(** The loop that both [onReadyRead] slots run on their buffer. *)
Fixpoint frameLoop (fuel : nat) (s : St) : option (St * list Ev) :=
  if contains d (getbuf s) then
    match fuel with
    | O => None
    | S fuel' =>
        let delimiter_pos := to_int (indexOf d (getbuf s)) in
        let message := left delimiter_pos (getbuf s) in
        let s1 := setbuf (remove 0 (int_add delimiter_pos 1) (getbuf s)) s in
        let r := if isEmpty message then (s1, []) else process message s1 in
        match frameLoop fuel' r.1 with
        | Some r' => Some (r'.1, r.2 ++ r'.2)
        | None => None
        end
    end
  else Some (s, []).

(** The frames handed to [process], one after the other; an empty frame is
    skipped. *)
Fixpoint runFrames (frames : list QByteArray) (s : St) : St * list Ev :=
  match frames with
  | [] => (s, [])
  | f :: fs =>
      let r := if isEmpty f then (s, []) else process f s in
      let r' := runFrames fs r.1 in
      (r'.1, r.2 ++ r'.2)
  end.
End FrameLoop.

(** A slot called once for each chunk of a list. *)
Fixpoint feedAll {St Ev : Type} (slot : QByteArray → St → option (St * list Ev))
    (chunks : list QByteArray) (s : St) : option (St * list Ev) :=
  match chunks with
  | [] => Some (s, [])
  | c :: cs =>
      match slot c s with
      | Some r =>
          match feedAll slot cs r.1 with
          | Some r' => Some (r'.1, r.2 ++ r'.2)
          | None => None
          end
      | None => None
      end
  end.

(** * The device: [Client] *)

Module Client.

Definition kMessageDelimiter : byte := x0a.
Definition kReconnectIntervalMs : Z := 5000.
Definition kMinSendIntervalMs : Z := 10.
Definition kMaxSendIntervalMs : Z := 100.

Inductive ClientState :=
| Disconnected
| Connecting
| WaitingConfirmation
| WaitingStart
| Running
| Stopped.

#[global] Instance ClientState_eq_dec : EqDecision ClientState.
Proof. solve_decision. Defined.

(** The fields of [class Client].  [socket_] is the state of the owned
    [QTcpSocket]; a timer is the interval of its pending single shot, if one
    is pending; [draws_] counts the draws from the global random generator. *)
Record Client := mkClient {
  socket_ : SocketState;
  reconnect_timer_ : option Z;
  send_timer_ : option Z;
  receive_buffer_ : QByteArray;
  host_ : string;
  port_ : Z;
  client_id_ : Z;
  state_ : ClientState;
  uptime_ : Z;
  message_counter_ : Z;
  draws_ : nat;
}.

(** The constructor's member initialisers. *)
Definition init : Client :=
  {| socket_ := UnconnectedState; reconnect_timer_ := None; send_timer_ := None;
     receive_buffer_ := []; host_ := ""; port_ := 12345; client_id_ := -1;
     state_ := Disconnected; uptime_ := 0; message_counter_ := 0; draws_ := 0%nat |}.

Definition set_socket (v : SocketState) (c : Client) : Client :=
  mkClient v (reconnect_timer_ c) (send_timer_ c) (receive_buffer_ c) (host_ c)
    (port_ c) (client_id_ c) (state_ c) (uptime_ c) (message_counter_ c) (draws_ c).
Definition set_reconnect_timer (v : option Z) (c : Client) : Client :=
  mkClient (socket_ c) v (send_timer_ c) (receive_buffer_ c) (host_ c)
    (port_ c) (client_id_ c) (state_ c) (uptime_ c) (message_counter_ c) (draws_ c).
Definition set_send_timer (v : option Z) (c : Client) : Client :=
  mkClient (socket_ c) (reconnect_timer_ c) v (receive_buffer_ c) (host_ c)
    (port_ c) (client_id_ c) (state_ c) (uptime_ c) (message_counter_ c) (draws_ c).
Definition set_receive_buffer (v : QByteArray) (c : Client) : Client :=
  mkClient (socket_ c) (reconnect_timer_ c) (send_timer_ c) v (host_ c)
    (port_ c) (client_id_ c) (state_ c) (uptime_ c) (message_counter_ c) (draws_ c).
Definition set_host_port (h : string) (p : Z) (c : Client) : Client :=
  mkClient (socket_ c) (reconnect_timer_ c) (send_timer_ c) (receive_buffer_ c) h
    p (client_id_ c) (state_ c) (uptime_ c) (message_counter_ c) (draws_ c).
Definition set_client_id (v : Z) (c : Client) : Client :=
  mkClient (socket_ c) (reconnect_timer_ c) (send_timer_ c) (receive_buffer_ c) (host_ c)
    (port_ c) v (state_ c) (uptime_ c) (message_counter_ c) (draws_ c).
Definition set_state (v : ClientState) (c : Client) : Client :=
  mkClient (socket_ c) (reconnect_timer_ c) (send_timer_ c) (receive_buffer_ c) (host_ c)
    (port_ c) (client_id_ c) v (uptime_ c) (message_counter_ c) (draws_ c).
Definition set_draws (v : nat) (c : Client) : Client :=
  mkClient (socket_ c) (reconnect_timer_ c) (send_timer_ c) (receive_buffer_ c) (host_ c)
    (port_ c) (client_id_ c) (state_ c) (uptime_ c) (message_counter_ c) v.

Inductive Timer := ReconnectTimer | SendTimer.

(** Signals of [Client], and its calls on the socket and the timers. *)
Inductive Event :=
| stateChanged (s : ClientState)
| logMessage (m : string)
| connected
| disconnected
| socketAbort
| socketConnectToHost (host : string) (port : Z)
| socketDisconnectFromHost
| socketWrite (data : QByteArray)
| timerStart (t : Timer) (ms : Z)
| timerStop (t : Timer).

Abbreviation M := (Act Client Event).

Definition set_timer (t : Timer) (v : option Z) : Client → Client :=
  match t with
  | ReconnectTimer => set_reconnect_timer v
  | SendTimer => set_send_timer v
  end.

(** [QTimer::start(ms)] of a single-shot timer: (re)arms it. *)
Definition timer_start (t : Timer) (ms : Z) : M unit :=
  modify (set_timer t (Some ms));; emit (timerStart t ms).

(** [QTimer::stop()]. *)
Definition timer_stop (t : Timer) : M unit :=
  modify (set_timer t None);; emit (timerStop t).

Section WithQt.
Context {qt : QtRuntime}.

Definition setState (state : ClientState) : M unit :=
  c ← get;
  when (bool_decide (state_ c ≠ state))
    (modify (set_state state);; emit (stateChanged state)).

(** The slot of the socket's [disconnected()]. *)
Definition onDisconnected : M unit :=
  emit (logMessage "Disconnected from server");;
  timer_stop SendTimer;;
  modify (set_client_id (-1));;
  c ← get;
  when (bool_decide (state_ c ≠ Disconnected))
    (emit (logMessage ("Reconnecting in "
                       +:+ arg_int (kReconnectIntervalMs `quot` 1000) +:+ " seconds..."));;
     timer_start ReconnectTimer kReconnectIntervalMs);;
  emit disconnected.

(** [socket_->abort()] on a socket that is not unconnected.  The socket is
    unconnected when the call returns.  When it was in [ConnectedState] or
    [ClosingState] it has raised [disconnected()], and [onDisconnected] has
    run inside the call. *)
Definition socket_abort : M unit :=
  c ← get;
  emit socketAbort;;
  modify (set_socket UnconnectedState);;
  when (bool_decide (socket_ c = ConnectedState ∨ socket_ c = ClosingState))
    onDisconnected.

(** [socket_->disconnectFromHost()] on a socket that is not unconnected,
    with [bytesToWrite] what the socket has still to write.  While the
    socket looks the host up or connects, the close waits for the
    connection.  Otherwise the socket is closing: with bytes to write it
    stays so until they are written; without, it is unconnected when the
    call returns, it has raised [disconnected()], and [onDisconnected] has
    run inside the call. *)
Definition socket_disconnectFromHost (bytesToWrite : Z) : M unit :=
  c ← get;
  emit socketDisconnectFromHost;;
  if bool_decide (socket_ c = HostLookupState ∨ socket_ c = ConnectingState) then mret tt
  else
    modify (set_socket ClosingState);;
    if 0 <? bytesToWrite then mret tt
    else modify (set_socket UnconnectedState);; onDisconnected.

Definition connectToServer (host : string) (port : Z) : M unit :=
  modify (set_host_port host port);;
  c ← get;
  when (bool_decide (socket_ c ≠ UnconnectedState)) socket_abort;;
  setState Connecting;;
  c ← get;
  emit (logMessage (QString_arg (QString_arg "Connecting to %1:%2..." (host_ c))
                      (arg_int (port_ c))));;
  modify (set_socket HostLookupState);;
  emit (socketConnectToHost (host_ c) (port_ c)).

(** [disconnect()], with [bytesToWrite] what [socket_] has still to write
    when it is called. *)
Definition disconnect (bytesToWrite : Z) : M unit :=
  timer_stop ReconnectTimer;;
  timer_stop SendTimer;;
  c ← get;
  when (bool_decide (socket_ c ≠ UnconnectedState))
    (socket_disconnectFromHost bytesToWrite);;
  setState Disconnected.

Definition onConnected : M unit :=
  emit (logMessage "Connected to server, waiting for confirmation...");;
  setState WaitingConfirmation;;
  emit connected.

Definition onSocketError : M unit :=
  c ← get;
  if bool_decide (state_ c = Connecting) then
    emit (logMessage ("Connection failed: " +:+ socket_errorString 0%N));;
    emit (logMessage ("Retrying in "
                      +:+ arg_int (kReconnectIntervalMs `quot` 1000) +:+ " seconds..."));;
    timer_start ReconnectTimer kReconnectIntervalMs
  else
    emit (logMessage ("Socket error: " +:+ socket_errorString 0%N)).

Definition onReconnectTimer : M unit :=
  c ← get;
  when (bool_decide (state_ c ≠ Disconnected))
    (connectToServer (host_ c) (port_ c)).

Definition sendMessage (message : QJsonObject) : M unit :=
  c ← get;
  if bool_decide (socket_ c ≠ ConnectedState) then mret tt
  else
    let data := toJson message ++ [kMessageDelimiter] in
    emit (socketWrite data).

Definition scheduleNextSend : M unit :=
  c ← get;
  if bool_decide (state_ c ≠ Running) then mret tt
  else
    let delay := random_bounded (draws_ c) kMinSendIntervalMs (kMaxSendIntervalMs + 1) in
    modify (set_draws (S (draws_ c)));;
    timer_start SendTimer delay.

(** The part of [processServerMessage] after the parse: [obj] is
    [doc.object()]. *)
Definition dispatchServerMessage (obj : QJsonObject) : M unit :=
  let '(type_v, obj) := json_ref obj "type" in
  let type := toString type_v in
  if bool_decide (type = "ConnectionConfirm") then
    let '(id_v, obj) := json_ref obj "client_id" in
    modify (set_client_id (toInt id_v));;
    let '(status_v, obj) := json_ref obj "status" in
    let status := toString status_v in
    c ← get;
    emit (logMessage ("Connection confirmed. Client ID: " +:+ arg_int (client_id_ c)
                      +:+ ", Status: " +:+ status));;
    setState WaitingStart
  else if bool_decide (type = "Command") then
    let '(command_v, obj) := json_ref obj "command" in
    let command := toString command_v in
    if bool_decide (command = "start") then
      emit (logMessage "Received START command, beginning data transmission");;
      setState Running;;
      scheduleNextSend
    else if bool_decide (command = "stop") then
      emit (logMessage "Received STOP command, stopping data transmission");;
      timer_stop SendTimer;;
      setState Stopped
    else mret tt
  else
    emit (logMessage ("Unknown message type: " +:+ type)).

Definition processServerMessage (data : QByteArray) : M unit :=
  match fromJson data with
  | inl errorString => emit (logMessage ("JSON parse error: " +:+ errorString))
  | inr doc => dispatchServerMessage (object doc)
  end.

(** The [while] loop of [onReadyRead].  [fuel] bounds the number of
    iterations; [None] when it does not suffice. *)
Fixpoint readLoop (fuel : nat) (c : Client) : option (Client * list Event) :=
  if contains kMessageDelimiter (receive_buffer_ c) then
    match fuel with
    | O => None
    | S fuel' =>
        let delimiter_pos := to_int (indexOf kMessageDelimiter (receive_buffer_ c)) in
        let message := left delimiter_pos (receive_buffer_ c) in
        let c1 := set_receive_buffer
                    (remove 0 (int_add delimiter_pos 1) (receive_buffer_ c)) c in
        let r := if isEmpty message then (c1, [])
                 else exec (processServerMessage message) c1 in
        match readLoop fuel' r.1 with
        | Some r' => Some (r'.1, r.2 ++ r'.2)
        | None => None
        end
    end
  else Some (c, []).

(** [onReadyRead], with [data] what [socket_->readAll()] returns. *)
Definition onReadyRead (data : QByteArray) (c : Client) : option (Client * list Event) :=
  let c1 := set_receive_buffer (receive_buffer_ c ++ data) c in
  readLoop (S (length (receive_buffer_ c1))) c1.

End WithQt.

(** ** The simulated device data *)

Definition kLogMessages : list string :=
  ["Interface eth0 restarted";
   "Connection established to gateway";
   "Packet buffer cleared";
   "Routing table updated";
   "DNS resolution completed";
   "Firewall rules reloaded";
   "Network interface configured";
   "DHCP lease renewed";
   "ARP cache flushed";
   "TCP connection timeout handled"].

Definition kSeverities : list string := ["INFO"; "WARNING"; "ERROR"; "DEBUG"].

(** The alphabet of [generateRandomString]. *)
Definition chars : string := "abcdefghijklmnopqrstuvwxyz0123456789 ".

Definition set_uptime (v : Z) (c : Client) : Client :=
  mkClient (socket_ c) (reconnect_timer_ c) (send_timer_ c) (receive_buffer_ c) (host_ c)
    (port_ c) (client_id_ c) (state_ c) v (message_counter_ c) (draws_ c).
Definition set_message_counter (v : Z) (c : Client) : Client :=
  mkClient (socket_ c) (reconnect_timer_ c) (send_timer_ c) (receive_buffer_ c) (host_ c)
    (port_ c) (client_id_ c) (state_ c) (uptime_ c) v (draws_ c).

(** [QString::at(i)].  Qt asserts that [i] is a position of the string; the
    null character stands for what is read outside. *)
Definition at_ (s : string) (i : Z) : Ascii.ascii :=
  if 0 <=? i then default Ascii.zero (String.get (Z.to_nat i) s) else Ascii.zero.

(** [QStringList::operator[](i)], with the same assertion. *)
Definition item (l : list string) (i : Z) : string :=
  if 0 <=? i then default "" (l !! Z.to_nat i) else "".

Section Telemetry.
Context {qt : QtRuntime}.

(** The [n]-th draw from the global generator, when it is
    [generateDouble()]. *)
Variable generateDouble : nat → float.

(** [QRandomGenerator::global()->bounded(lowest, highest)];
    [bounded(highest)] is [bounded 0 highest]. *)
Definition bounded (lowest highest : Z) : M Z :=
  c ← get;
  modify (set_draws (S (draws_ c)));;
  mret (random_bounded (draws_ c) lowest highest).

(** The lambda of [generateNetworkMetrics]. *)
Definition randDouble (min max : float) : M float :=
  c ← get;
  modify (set_draws (S (draws_ c)));;
  mret (min + generateDouble (draws_ c) * (max - min))%float.

Definition generateNetworkMetrics : M QJsonObject :=
  let metrics : QJsonObject := <["type" := JString "NetworkMetrics"]> ∅ in
  bandwidth ← randDouble 50 150;
  let metrics := <["bandwidth" := fromDouble bandwidth]> metrics in
  latency ← randDouble 1 200;
  let metrics := <["latency" := fromDouble latency]> metrics in
  packet_loss ← randDouble 0 10;
  let metrics := <["packet_loss" := fromDouble packet_loss]> metrics in
  mret metrics.

Definition generateDeviceStatus : M QJsonObject :=
  step ← bounded 1 60;
  modify (λ c, set_uptime (int_add (uptime_ c) step) c);;
  c ← get;
  let status : QJsonObject := <["type" := JString "DeviceStatus"]> ∅ in
  let status := <["uptime" := JInteger (uptime_ c)]> status in
  cpu_usage ← bounded 0 100;
  let status := <["cpu_usage" := JInteger cpu_usage]> status in
  memory_usage ← bounded 20 95;
  let status := <["memory_usage" := JInteger memory_usage]> status in
  mret status.

(** The [for] loop of [generateRandomString], with [n] iterations to go. *)
Fixpoint appendRandomChars (n : nat) (result : string) : M string :=
  match n with
  | O => mret result
  | S n' =>
      idx ← bounded 0 (Z.of_nat (String.length chars));
      appendRandomChars n' (result +:+ String (at_ chars idx) "")
  end.

Definition generateRandomString (min_length max_length : Z) : M string :=
  length ← bounded min_length (int_add max_length 1);
  if length =? 0 then mret ""
  else appendRandomChars (Z.to_nat length) "".

Definition generateLogMessage : M QJsonObject :=
  msg_idx ← bounded 0 (Z.of_nat (length kLogMessages));
  sev_idx ← bounded 0 (Z.of_nat (length kSeverities));
  let base_message := item kLogMessages msg_idx in
  extra ← generateRandomString 0 200;
  let log : QJsonObject := <["type" := JString "Log"]> ∅ in
  let log :=
    <["message" := JString (base_message
                            +:+ (if bool_decide (extra = "") then ""
                                 else " - " +:+ extra))]> log in
  let log := <["severity" := JString (item kSeverities sev_idx)]> log in
  mret log.

(** [onSendDataTimer].  [%] on [int] truncates towards zero: a negative
    counter leaves a remainder that no [case] of the [switch] takes, and
    [data] stays the empty object. *)
Definition onSendDataTimer : M unit :=
  c ← get;
  if bool_decide (state_ c ≠ Running) then mret tt
  else
    let data_type := message_counter_ c `rem` 3 in
    modify (set_message_counter (int_add (message_counter_ c) 1));;
    data ← (if data_type =? 0 then generateNetworkMetrics
            else if data_type =? 1 then generateDeviceStatus
            else if data_type =? 2 then generateLogMessage
            else mret ∅);
    sendMessage data;;
    scheduleNextSend.

End Telemetry.

End Client.

(** * The collector: [TcpServer] *)

Module TcpServer.

Definition kMessageDelimiter : byte := x0a.
Definition kMaxBufferSize : Z := 1024 * 1024.

Record ClientInfo := mkClientInfo {
  id : Z;
  ip_address : string;
  port : Z;
  is_connected : bool;
  is_running : bool;
}.

(** [ClientInfo()]: what [QMap::operator[]] inserts for a missing key. *)
Definition ClientInfo0 : ClientInfo := mkClientInfo 0 "" 0 false false.

Definition set_is_running (v : bool) (i : ClientInfo) : ClientInfo :=
  mkClientInfo (id i) (ip_address i) (port i) (is_connected i) v.

Record ClientData := mkClientData {
  client_id : Z;
  data_type : string;
  content : QJsonObject;
  timestamp : Z;
}.

Record ThresholdConfig := mkThresholdConfig {
  max_latency : float;
  max_packet_loss : float;
  max_cpu_usage : Z;
  max_memory_usage : Z;
}.

(** The default member initialisers of [ThresholdConfig]. *)
Definition ThresholdConfig0 : ThresholdConfig :=
  mkThresholdConfig 100 5 90 90.

(** The fields of [class TcpServer].  [listening_] is
    [server_->isListening()]; [socket_states_] is the state of each
    [QTcpSocket] the server has a pointer to (no entry: unconnected).  A
    socket pointer is a number, 0 the null pointer. *)
Record TcpServer := mkTcpServer {
  listening_ : bool;
  clients_ : gmap Socket ClientInfo;
  client_sockets_ : gmap Z Socket;
  next_client_id_ : Z;
  receive_buffers_ : gmap Socket QByteArray;
  thresholds_ : ThresholdConfig;
  socket_states_ : gmap Socket SocketState;
}.

(** The constructor. *)
Definition init : TcpServer :=
  mkTcpServer false ∅ ∅ 1 ∅ ThresholdConfig0 ∅.

Definition set_listening (v : bool) (s : TcpServer) : TcpServer :=
  mkTcpServer v (clients_ s) (client_sockets_ s) (next_client_id_ s)
    (receive_buffers_ s) (thresholds_ s) (socket_states_ s).
Definition set_clients (v : gmap Socket ClientInfo) (s : TcpServer) : TcpServer :=
  mkTcpServer (listening_ s) v (client_sockets_ s) (next_client_id_ s)
    (receive_buffers_ s) (thresholds_ s) (socket_states_ s).
Definition set_client_sockets (v : gmap Z Socket) (s : TcpServer) : TcpServer :=
  mkTcpServer (listening_ s) (clients_ s) v (next_client_id_ s)
    (receive_buffers_ s) (thresholds_ s) (socket_states_ s).
Definition set_next_client_id (v : Z) (s : TcpServer) : TcpServer :=
  mkTcpServer (listening_ s) (clients_ s) (client_sockets_ s) v
    (receive_buffers_ s) (thresholds_ s) (socket_states_ s).
Definition set_receive_buffers (v : gmap Socket QByteArray) (s : TcpServer) : TcpServer :=
  mkTcpServer (listening_ s) (clients_ s) (client_sockets_ s) (next_client_id_ s)
    v (thresholds_ s) (socket_states_ s).
Definition set_thresholds (v : ThresholdConfig) (s : TcpServer) : TcpServer :=
  mkTcpServer (listening_ s) (clients_ s) (client_sockets_ s) (next_client_id_ s)
    (receive_buffers_ s) v (socket_states_ s).
Definition set_socket_states (v : gmap Socket SocketState) (s : TcpServer) : TcpServer :=
  mkTcpServer (listening_ s) (clients_ s) (client_sockets_ s) (next_client_id_ s)
    (receive_buffers_ s) (thresholds_ s) v.

(** Signals of [TcpServer], and its calls on the sockets and on the
    listening [QTcpServer]. *)
Inductive Event :=
| clientConnected (info : ClientInfo)
| clientDisconnected (client_id : Z)
| clientStatusChanged (client_id : Z) (is_running : bool)
| dataReceived (data : ClientData)
| logMessage (message : string)
| serverStarted
| serverStopped
| socketWrite (socket : Socket) (data : QByteArray)
| socketAbort (socket : Socket)
| socketDeleteLater (socket : Socket)
| serverClose.

Abbreviation M := (Act TcpServer Event).

(** [socket->state()]. *)
Definition state (socket : Socket) (s : TcpServer) : SocketState :=
  default UnconnectedState (socket_states_ s !! socket).

(** [socket->abort()], up to the signal it raises: the socket is
    unconnected when the call returns. *)
Definition abort (socket : Socket) : M unit :=
  modify (λ s, set_socket_states (<[socket := UnconnectedState]> (socket_states_ s)) s);;
  emit (socketAbort socket).

(** The keys of a [QMap<QTcpSocket*, T>] in the order of its iterator:
    ascending. *)
Definition sockets {T} (m : gmap Socket T) : list Socket :=
  merge_sort N.le (map_to_list m).*1.

(** How a walk over [clients_] ends: the method returns, or it steps an
    iterator whose entry has been erased, and nothing is defined from
    there. *)
Inductive Ending := Returned | Undefined.

(** A pending connection: the socket [nextPendingConnection()] returns, with
    its peer address and port. *)
Record Pending := mkPending {
  pending_socket : Socket;
  peerAddress : string;
  peerPort : Z;
}.

Fixpoint forEach {A} (l : list A) (body : A → M unit) : M unit :=
  match l with
  | [] => mret tt
  | x :: l' => body x;; forEach l' body
  end.

Section WithQt.
Context {qt : QtRuntime}.

Definition startServer (port : Z) (listen_ok : bool) (errorString : string) : M bool :=
  s ← get;
  if listening_ s then
    emit (logMessage "Server is already running");; mret true
  else if negb listen_ok then
    emit (logMessage ("Failed to start server: " +:+ errorString));; mret false
  else
    modify (set_listening true);;
    emit (logMessage ("Server started on port " +:+ arg_int port));;
    emit serverStarted;;
    mret true.

(** [onClientDisconnected], with [socket] the sender. *)
Definition onClientDisconnected (socket : Socket) : M unit :=
  s ← get;
  match clients_ s !! socket with
  | Some info =>
      if bool_decide (socket = 0%N) then mret tt
      else
        let client_id := id info in
        emit (clientDisconnected client_id);;
        emit (logMessage ("Client " +:+ arg_int client_id +:+ " disconnected"));;
        modify (λ s, set_client_sockets (delete client_id (client_sockets_ s)) s);;
        modify (λ s, set_clients (delete socket (clients_ s)) s);;
        modify (λ s, set_receive_buffers (delete socket (receive_buffers_ s)) s);;
        emit (socketDeleteLater socket)
  | None => mret tt
  end.

(** The loop of [stopServer], with [l] the keys that the iterator [it] has
    still to visit.  A socket that was in [ConnectedState] or [ClosingState]
    raises [disconnected()] before [abort()] returns, and
    [onClientDisconnected] runs inside the call, with this socket as the
    sender.  When the slot has erased the entry of [clients_] that [it]
    stands on, [++it] is undefined. *)
Fixpoint abortClients (l : list Socket) : M Ending :=
  match l with
  | [] => mret Returned
  | socket :: l' =>
      s ← get;
      abort socket;;
      when (bool_decide (state socket s = ConnectedState ∨ state socket s = ClosingState))
        (onClientDisconnected socket);;
      emit (socketDeleteLater socket);;
      s ← get;
      if bool_decide (clients_ s !! socket = None) then mret Undefined
      else abortClients l'
  end.

Definition stopServer : M Ending :=
  s ← get;
  ending ← abortClients (sockets (clients_ s));
  match ending with
  | Undefined => mret Undefined
  | Returned =>
      modify (set_clients ∅);;
      modify (set_client_sockets ∅);;
      modify (set_receive_buffers ∅);;
      s ← get;
      when (listening_ s)
        (modify (set_listening false);;
         emit serverClose;;
         emit (logMessage "Server stopped");;
         emit serverStopped);;
      mret Returned
  end.

Definition sendToClient (socket : Socket) (message : QJsonObject) : M unit :=
  s ← get;
  if bool_decide (socket = 0%N) || bool_decide (state socket s ≠ ConnectedState)
  then mret tt
  else
    let data := toJson message ++ [kMessageDelimiter] in
    let bytes_written := socket_write socket data in
    emit (socketWrite socket data);;
    if bytes_written =? -1 then
      emit (logMessage ("Write error: " +:+ socket_errorString socket))
    else if negb (bytes_written =? size data) then
      emit (logMessage ("Partial write: " +:+ arg_int bytes_written +:+ "/"
                        +:+ arg_int (size data) +:+ " bytes"))
    else mret tt.

Definition command_object (command : string) : QJsonObject :=
  <["command" := JString command]> (<["type" := JString "Command"]> ∅).

Definition startClient (client_id : Z) : M unit :=
  s ← get;
  match client_sockets_ s !! client_id with
  | None => emit (logMessage ("Client " +:+ arg_int client_id +:+ " not found"))
  | Some socket =>
      modify (λ s, set_clients
        (<[socket := set_is_running true (default ClientInfo0 (clients_ s !! socket))]>
           (clients_ s)) s);;
      sendToClient socket (command_object "start");;
      emit (clientStatusChanged client_id true);;
      emit (logMessage ("Started client " +:+ arg_int client_id))
  end.

Definition stopClient (client_id : Z) : M unit :=
  s ← get;
  match client_sockets_ s !! client_id with
  | None => emit (logMessage ("Client " +:+ arg_int client_id +:+ " not found"))
  | Some socket =>
      modify (λ s, set_clients
        (<[socket := set_is_running false (default ClientInfo0 (clients_ s !! socket))]>
           (clients_ s)) s);;
      sendToClient socket (command_object "stop");;
      emit (clientStatusChanged client_id false);;
      emit (logMessage ("Stopped client " +:+ arg_int client_id))
  end.

(** The loops of [startAllClients] and [stopAllClients] visit the sockets of
    [clients_] and read each record when they reach it. *)
Definition startAllClients : M unit :=
  s ← get;
  forEach (sockets (clients_ s)) (λ socket,
    s ← get;
    match clients_ s !! socket with
    | Some info => when (is_connected info && negb (is_running info)) (startClient (id info))
    | None => mret tt
    end).

Definition stopAllClients : M unit :=
  s ← get;
  forEach (sockets (clients_ s)) (λ socket,
    s ← get;
    match clients_ s !! socket with
    | Some info => when (is_running info) (stopClient (id info))
    | None => mret tt
    end).

Definition setThresholds (config : ThresholdConfig) : M unit :=
  modify (set_thresholds config).

Definition getThresholds : M ThresholdConfig :=
  s ← get; mret (thresholds_ s).

Definition generateClientId : M Z :=
  s ← get;
  modify (set_next_client_id (int_add (next_client_id_ s) 1));;
  mret (next_client_id_ s).

(** One iteration of the loop of [onNewConnection]. *)
Definition acceptConnection (p : Pending) : M unit :=
  let socket := pending_socket p in
  modify (λ s, set_socket_states (<[socket := ConnectedState]> (socket_states_ s)) s);;
  new_id ← generateClientId;
  let info := mkClientInfo new_id (peerAddress p) (peerPort p) true false in
  modify (λ s, set_clients (<[socket := info]> (clients_ s)) s);;
  modify (λ s, set_client_sockets (<[id info := socket]> (client_sockets_ s)) s);;
  modify (λ s, set_receive_buffers (<[socket := []]> (receive_buffers_ s)) s);;
  let confirmation : QJsonObject :=
    <["status" := JString "connected"]>
      (<["client_id" := JInteger (id info)]>
         (<["type" := JString "ConnectionConfirm"]> ∅)) in
  sendToClient socket confirmation;;
  emit (clientConnected info);;
  emit (logMessage (QString_arg
                      (QString_arg
                         (QString_arg "Client %1 connected from %2:%3" (arg_int (id info)))
                         (ip_address info))
                      (arg_int (port info)))).

(** [onNewConnection], with [pending] the connections that
    [nextPendingConnection()] hands out while [hasPendingConnections()]. *)
Definition onNewConnection (pending : list Pending) : M unit :=
  forEach pending acceptConnection.

(** The [warnings] list that [checkThresholds] builds. *)
Definition thresholdWarnings (config : ThresholdConfig) (data : QJsonObject) : list string :=
  let type := toString (json_at data "type") in
  if bool_decide (type = "NetworkMetrics") then
    (if bool_decide (is_Some (data !! "latency")) then
       let latency := toDouble (json_at data "latency") in
       if PrimFloat.ltb (max_latency config) latency
       then ["High latency: " +:+ arg_double latency +:+ "ms"] else []
     else [])
    ++
    (if bool_decide (is_Some (data !! "packet_loss")) then
       let packet_loss := toDouble (json_at data "packet_loss") in
       if PrimFloat.ltb (max_packet_loss config) packet_loss
       then ["High packet loss: " +:+ arg_double packet_loss +:+ "%"] else []
     else [])
  else if bool_decide (type = "DeviceStatus") then
    (if bool_decide (is_Some (data !! "cpu_usage")) then
       let cpu_usage := toInt (json_at data "cpu_usage") in
       if max_cpu_usage config <? cpu_usage
       then ["High CPU usage: " +:+ arg_int cpu_usage +:+ "%"] else []
     else [])
    ++
    (if bool_decide (is_Some (data !! "memory_usage")) then
       let memory_usage := toInt (json_at data "memory_usage") in
       if max_memory_usage config <? memory_usage
       then ["High memory usage: " +:+ arg_int memory_usage +:+ "%"] else []
     else [])
  else [].

(** The text that the last loop of [checkThresholds] logs for a warning. *)
Definition warningLog (client_id : Z) (warning : string) : string :=
  "WARNING [Client " +:+ arg_int client_id +:+ "]: " +:+ warning.

Definition checkThresholds (client_id : Z) (data : QJsonObject) : M unit :=
  config ← getThresholds;
  forEach (thresholdWarnings config data) (λ warning,
    emit (logMessage (warningLog client_id warning))).

Definition processClientData (client_id : Z) (data : QByteArray) : M unit :=
  match fromJson data with
  | inl errorString =>
      emit (logMessage ("JSON parse error from client " +:+ arg_int client_id
                        +:+ ": " +:+ errorString))
  | inr doc =>
      if negb (isObject doc) then
        emit (logMessage ("Invalid JSON from client " +:+ arg_int client_id
                          +:+ ": not an object"))
      else
        let '(type_v, obj) := json_ref (object doc) "type" in
        let client_data := mkClientData client_id (toString type_v) obj currentDateTime in
        emit (dataReceived client_data);;
        checkThresholds client_id obj
  end.

(** [receive_buffers_[socket]]. *)
Definition buffer (socket : Socket) (s : TcpServer) : QByteArray :=
  default [] (receive_buffers_ s !! socket).

Definition set_buffer (socket : Socket) (b : QByteArray) (s : TcpServer) : TcpServer :=
  set_receive_buffers (<[socket := b]> (receive_buffers_ s)) s.

(** The [while] loop of [onReadyRead].  [fuel] bounds the number of
    iterations; [None] when it does not suffice. *)
Fixpoint readLoop (fuel : nat) (socket : Socket) (client_id : Z) (s : TcpServer)
  : option (TcpServer * list Event) :=
  if contains kMessageDelimiter (buffer socket s) then
    match fuel with
    | O => None
    | S fuel' =>
        let delimiter_pos := to_int (indexOf kMessageDelimiter (buffer socket s)) in
        let message := left delimiter_pos (buffer socket s) in
        let s1 := set_buffer socket
                    (remove 0 (int_add delimiter_pos 1) (buffer socket s)) s in
        let r := if isEmpty message then (s1, [])
                 else exec (processClientData client_id message) s1 in
        match readLoop fuel' socket client_id r.1 with
        | Some r' => Some (r'.1, r.2 ++ r'.2)
        | None => None
        end
    end
  else Some (s, []).

(** [receive_buffers_[socket].append(socket->readAll())]. *)
Definition appendReceived (socket : Socket) (data : QByteArray) (s : TcpServer) : TcpServer :=
  set_buffer socket (buffer socket s ++ data) s.

(** [onReadyRead], with [socket] the sender and [data] what
    [socket->readAll()] returns.  [abort()] is the last action of the
    overflow branch: the slot of the [disconnected()] that it raises,
    [onClientDisconnected], is the transition that follows. *)
Definition onReadyRead (socket : Socket) (data : QByteArray) (s : TcpServer)
  : option (TcpServer * list Event) :=
  match clients_ s !! socket with
  | Some info =>
      if bool_decide (socket = 0%N) then Some (s, [])
      else
        let client_id := id info in
        let s1 := appendReceived socket data s in
        if kMaxBufferSize <? size (buffer socket s1) then
          Some (exec
            (emit (logMessage ("Client " +:+ arg_int client_id
                               +:+ ": buffer overflow, disconnecting"));;
             abort socket) s1)
        else readLoop (S (length (buffer socket s1))) socket client_id s1
  | None => Some (s, [])
  end.

Definition onSocketError (socket : Socket) : M unit :=
  if bool_decide (socket = 0%N) then mret tt
  else emit (logMessage ("Socket error: " +:+ socket_errorString socket)).

(** What can happen to the server: a call of a public method, a signal of a
    socket or of the listening server, or a socket changing state.  The
    transition of [OpStopServer] is that of [stopServer] up to its end,
    [Returned] or [Undefined]. *)
Inductive Op :=
| OpStartServer (port : Z) (listen_ok : bool) (errorString : string)
| OpStopServer
| OpStartAllClients
| OpStopAllClients
| OpStartClient (client_id : Z)
| OpStopClient (client_id : Z)
| OpSetThresholds (config : ThresholdConfig)
| OpNewConnection (pending : list Pending)
| OpClientDisconnected (socket : Socket)
| OpReadyRead (socket : Socket) (data : QByteArray)
| OpSocketError (socket : Socket)
| OpSocketState (socket : Socket) (st : SocketState).

Definition step (op : Op) (s : TcpServer) : option (TcpServer * list Event) :=
  match op with
  | OpStartServer port listen_ok errorString =>
      Some (exec (startServer port listen_ok errorString) s)
  | OpStopServer => Some (exec stopServer s)
  | OpStartAllClients => Some (exec startAllClients s)
  | OpStopAllClients => Some (exec stopAllClients s)
  | OpStartClient client_id => Some (exec (startClient client_id) s)
  | OpStopClient client_id => Some (exec (stopClient client_id) s)
  | OpSetThresholds config => Some (exec (setThresholds config) s)
  | OpNewConnection pending => Some (exec (onNewConnection pending) s)
  | OpClientDisconnected socket => Some (exec (onClientDisconnected socket) s)
  | OpReadyRead socket data => onReadyRead socket data s
  | OpSocketError socket => Some (exec (onSocketError socket) s)
  | OpSocketState socket st =>
      Some (set_socket_states (<[socket := st]> (socket_states_ s)) s, [])
  end.

(** The operations [ops], one after the other, each from the fields that
    the one before has left at its end. *)
Fixpoint run (ops : list Op) (s : TcpServer) : option (TcpServer * list Event) :=
  match ops with
  | [] => Some (s, [])
  | op :: ops' =>
      match step op s with
      | Some r =>
          match run ops' r.1 with
          | Some r' => Some (r'.1, r.2 ++ r'.2)
          | None => None
          end
      | None => None
      end
  end.

End WithQt.

(** The number of connections an operation accepts. *)
Definition accepts (op : Op) : nat :=
  match op with OpNewConnection pending => length pending | _ => 0%nat end.

Definition accepted (ops : list Op) : nat := sum_list (accepts <$> ops).

(** How an operation ends.  [stopServer] is the one that may step an erased
    iterator. *)
Definition ending (op : Op) (s : TcpServer) : Ending :=
  match op with
  | OpStopServer => (stopServer s).1.1
  | _ => Returned
  end.

(** The client IDs handed out in a trace, in order. *)
Definition ids_issued (evs : list Event) : list Z :=
  omap (λ e, match e with clientConnected info => Some (id info) | _ => None end) evs.

(** The sockets of an accept are new: pairwise different, and none is a key
    of [clients_]. *)
Definition op_ok (op : Op) (s : TcpServer) : Prop :=
  match op with
  | OpNewConnection pending =>
      NoDup (pending_socket <$> pending)
      ∧ Forall (λ p, clients_ s !! pending_socket p = None) pending
  | _ => True
  end.

(** The two lookup structures agree, and the buffers are those of the
    registered sockets. *)
Definition consistent (s : TcpServer) : Prop :=
  map_Forall (λ i socket, id <$> clients_ s !! socket = Some i) (client_sockets_ s)
  ∧ map_Forall (λ socket info, client_sockets_ s !! id info = Some socket) (clients_ s)
  ∧ dom (receive_buffers_ s) = dom (clients_ s).

(** The IDs in use are below the counter. *)
Definition ids_below_counter (s : TcpServer) : Prop :=
  map_Forall (λ i _, i < next_client_id_ s) (client_sockets_ s).

End TcpServer.

(** * The window of the collector: [ServerWindow] *)

(** What Qt supplies to the window. *)
Class QtText := {
  (** [QString::number(double, 'f', precision)];
      [arg(double, 0, 'f', precision)] is [arg] of this text *)
  number_f : float → Z → string;
  (** [QString(const QByteArray &)] *)
  fromUtf8 : QByteArray → string;
  (** [QDateTime::toString(format)] *)
  dateTime_toString : Z → string → string;
}.

Module ServerWindow.

Definition kMaxDataTableRows : Z := 1000.

(** A row of a [QTableWidget]: the texts of its items. *)
Abbreviation Row := (list string).

(** The widgets of [Ui::ServerWindow] that the window writes: the rows of the
    two tables, the lines of the log, whether each button is enabled, the
    message of the status bar. *)
Record Ui := mkUi {
  tableClients : list Row;
  tableData : list Row;
  textLog : list string;
  btnStartServer : bool;
  btnStopServer : bool;
  btnStartClients : bool;
  btnStopClients : bool;
  statusbar : string;
}.

(** The fields of [class ServerWindow]; [server_] lives in its own thread
    and is reached through queued calls and signals. *)
Record ServerWindow := mkServerWindow {
  ui : Ui;
  server_running_ : bool;
  clients_ : gmap Z TcpServer.ClientInfo;
}.

Definition set_tableClients (v : list Row) (w : ServerWindow) : ServerWindow :=
  let u := ui w in
  mkServerWindow
    (mkUi v (tableData u) (textLog u) (btnStartServer u) (btnStopServer u)
       (btnStartClients u) (btnStopClients u) (statusbar u))
    (server_running_ w) (clients_ w).
Definition set_tableData (v : list Row) (w : ServerWindow) : ServerWindow :=
  let u := ui w in
  mkServerWindow
    (mkUi (tableClients u) v (textLog u) (btnStartServer u) (btnStopServer u)
       (btnStartClients u) (btnStopClients u) (statusbar u))
    (server_running_ w) (clients_ w).
Definition set_textLog (v : list string) (w : ServerWindow) : ServerWindow :=
  let u := ui w in
  mkServerWindow
    (mkUi (tableClients u) (tableData u) v (btnStartServer u) (btnStopServer u)
       (btnStartClients u) (btnStopClients u) (statusbar u))
    (server_running_ w) (clients_ w).
Definition set_buttons (start_server stop_server start_clients stop_clients : bool)
    (w : ServerWindow) : ServerWindow :=
  let u := ui w in
  mkServerWindow
    (mkUi (tableClients u) (tableData u) (textLog u) start_server stop_server
       start_clients stop_clients (statusbar u))
    (server_running_ w) (clients_ w).
Definition set_statusbar (v : string) (w : ServerWindow) : ServerWindow :=
  let u := ui w in
  mkServerWindow
    (mkUi (tableClients u) (tableData u) (textLog u) (btnStartServer u) (btnStopServer u)
       (btnStartClients u) (btnStopClients u) v)
    (server_running_ w) (clients_ w).
Definition set_server_running (v : bool) (w : ServerWindow) : ServerWindow :=
  mkServerWindow (ui w) v (clients_ w).
Definition set_clients (v : gmap Z TcpServer.ClientInfo) (w : ServerWindow) : ServerWindow :=
  mkServerWindow (ui w) (server_running_ w) v.

Definition key_le {T} (a b : Z * T) : Prop := a.1 ≤ b.1.

#[global] Instance key_le_dec {T} (a b : Z * T) : Decision (key_le a b) :=
  decide (a.1 ≤ b.1).

(** The values of a [QMap<int, T>] in the order of its iterator: by
    ascending key. *)
Definition values {T} (m : gmap Z T) : list T :=
  (merge_sort key_le (map_to_list m)).*2.

(** The items that [updateClientTable] sets in a row. *)
Definition clientRow (info : TcpServer.ClientInfo) : Row :=
  let status :=
    if TcpServer.is_connected info
    then (if TcpServer.is_running info then "Running" else "Connected")
    else "Disconnected" in
  [arg_int (TcpServer.id info); TcpServer.ip_address info;
   arg_int (TcpServer.port info); status].

(** [setRowCount(0)], then a row at the end for each client. *)
Definition updateClientTable (w : ServerWindow) : ServerWindow :=
  set_tableClients
    (foldl (λ rows info, rows ++ [clientRow info]) [] (values (clients_ w))) w.

Definition updateButtonStates (w : ServerWindow) : ServerWindow :=
  let has_clients := negb (bool_decide (clients_ w = ∅)) in
  set_buttons (negb (server_running_ w)) (server_running_ w)
    (server_running_ w && has_clients) (server_running_ w && has_clients) w.

(** The first loop of [addDataToTable]: [removeRow(0)] while the table has
    [kMaxDataTableRows] rows or more.  [fuel] bounds the iterations. *)
Fixpoint removeRows (fuel : nat) (rows : list Row) : list Row :=
  if kMaxDataTableRows <=? Z.of_nat (length rows) then
    match fuel with
    | O => rows
    | S fuel' => removeRows fuel' (drop 1 rows)
    end
  else rows.

Section WithQt.
Context {qt : QtRuntime} {text : QtText}.

Definition formatDataContent (type : string) (content : QJsonObject) : string :=
  if bool_decide (type = "NetworkMetrics") then
    QString_arg
      (QString_arg
         (QString_arg "bandwidth=%1, latency=%2ms, packet_loss=%3%"
            (number_f (toDouble (json_at content "bandwidth")) 2))
         (number_f (toDouble (json_at content "latency")) 2))
      (number_f (toDouble (json_at content "packet_loss")) 3)
  else if bool_decide (type = "DeviceStatus") then
    QString_arg
      (QString_arg
         (QString_arg "uptime=%1s, cpu=%2%, memory=%3%"
            (arg_int (toInt (json_at content "uptime"))))
         (arg_int (toInt (json_at content "cpu_usage"))))
      (arg_int (toInt (json_at content "memory_usage")))
  else if bool_decide (type = "Log") then
    QString_arg
      (QString_arg "[%1] %2" (toString (json_at content "severity")))
      (toString (json_at content "message"))
  else fromUtf8 (toJson content).

(** The items that [addDataToTable] sets in the new row. *)
Definition dataRow (data : TcpServer.ClientData) : Row :=
  [arg_int (TcpServer.client_id data);
   TcpServer.data_type data;
   formatDataContent (TcpServer.data_type data) (TcpServer.content data);
   dateTime_toString (TcpServer.timestamp data) "hh:mm:ss.zzz"].

Definition addDataToTable (data : TcpServer.ClientData) (w : ServerWindow) : ServerWindow :=
  let rows := removeRows (length (tableData (ui w))) (tableData (ui w)) in
  set_tableData (rows ++ [dataRow data]) w.

(** [arg(timestamp, message)] fills both places of its template in one
    pass. *)
Definition appendLog (message : string) (w : ServerWindow) : ServerWindow :=
  let timestamp := dateTime_toString currentDateTime "hh:mm:ss" in
  set_textLog (textLog (ui w) ++ ["[" +:+ timestamp +:+ "] " +:+ message]) w.

Definition onClientConnected (info : TcpServer.ClientInfo) (w : ServerWindow)
  : ServerWindow :=
  updateButtonStates
    (updateClientTable (set_clients (<[TcpServer.id info := info]> (clients_ w)) w)).

Definition onClientDisconnected (client_id : Z) (w : ServerWindow) : ServerWindow :=
  updateButtonStates (updateClientTable (set_clients (delete client_id (clients_ w)) w)).

Definition onClientStatusChanged (client_id : Z) (is_running : bool) (w : ServerWindow)
  : ServerWindow :=
  match clients_ w !! client_id with
  | Some info =>
      updateClientTable
        (set_clients (<[client_id := TcpServer.set_is_running is_running info]> (clients_ w)) w)
  | None => w
  end.

Definition onDataReceived (data : TcpServer.ClientData) (w : ServerWindow) : ServerWindow :=
  addDataToTable data w.

Definition onLogMessage (message : string) (w : ServerWindow) : ServerWindow :=
  appendLog message w.

Definition onServerStarted (w : ServerWindow) : ServerWindow :=
  set_statusbar "Server running on port 12345"
    (updateButtonStates (set_server_running true w)).

Definition onServerStopped (w : ServerWindow) : ServerWindow :=
  set_statusbar "Server stopped"
    (updateButtonStates (updateClientTable (set_clients ∅ (set_server_running false w)))).

(** The connections of [setupConnections] from the server: the slot that
    each signal reaches.  The other entries of a trace are calls of the
    server on its sockets, which the window does not see. *)
Definition deliver (e : TcpServer.Event) : ServerWindow → ServerWindow :=
  match e with
  | TcpServer.clientConnected info => onClientConnected info
  | TcpServer.clientDisconnected client_id => onClientDisconnected client_id
  | TcpServer.clientStatusChanged client_id is_running =>
      onClientStatusChanged client_id is_running
  | TcpServer.dataReceived data => onDataReceived data
  | TcpServer.logMessage message => onLogMessage message
  | TcpServer.serverStarted => onServerStarted
  | TcpServer.serverStopped => onServerStopped
  | _ => λ w, w
  end.

(** The signals of a trace, delivered in the order of their emission. *)
Definition deliverAll (evs : list TcpServer.Event) (w : ServerWindow) : ServerWindow :=
  foldl (λ w e, deliver e w) w evs.

End WithQt.
End ServerWindow.

(** * The arguments of the device program: [main] *)

Module Main.

(** How the loop over the arguments ends: at [--help], with [return 0], or
    with the host and the port to connect to. *)
Inductive Parsed :=
| Help
| Options (host : string) (port : Z).

Section Arguments.
Context {qt : QtRuntime}.

(** [QString::toUShort()]. *)
Variable toUShort : string → Z.

(** The loop of [main] over [args[i]], [args[i + 1]], ..., with the values
    of [host] and [port] so far.  An option that is the last argument has
    no value and changes nothing. *)
Fixpoint parseArguments (args : list string) (host : string) (port : Z) : Parsed :=
  match args with
  | [] => Options host port
  | arg :: rest =>
      if bool_decide (arg = "-h") || bool_decide (arg = "--host") then
        match rest with
        | value :: rest' => parseArguments rest' value port
        | [] => Options host port
        end
      else if bool_decide (arg = "-p") || bool_decide (arg = "--port") then
        match rest with
        | value :: rest' => parseArguments rest' host (toUShort value)
        | [] => Options host port
        end
      else if bool_decide (arg = "--help") then Help
      else parseArguments rest host port
  end.

(** [main] up to [a.exec()]: the exit code of [--help], or the device after
    [connectToServer] with what it has called and signalled.  [arguments] is
    [a.arguments()], the name of the program first.  What [main] writes to
    [stdout] is not part of the model. *)
Definition main (arguments : list string) : Z + Client.Client * list Client.Event :=
  match parseArguments (drop 1 arguments) "localhost" 12345 with
  | Help => inl 0
  | Options host port => inr (exec (Client.connectToServer host port) Client.init)
  end.

End Arguments.
End Main.

(** * A runtime for the wire texts of the protocol

    The texts are those of §6 of the specification, with the members in the
    order of their keys, as [QJsonDocument] writes them. *)

Module Wire.

Definition quoted (s : string) : QByteArray :=
  x22 :: String.list_byte_of_string s ++ [x22].

Definition member (key : string) (value : QByteArray) : QByteArray :=
  quoted key ++ [x3a] ++ value.

Definition command_text (command : string) : QByteArray :=
  [x7b] ++ member "command" (quoted command) ++ [x2c]
  ++ member "type" (quoted "Command") ++ [x7d].

Definition confirm_text (client_id : Z) : QByteArray :=
  [x7b] ++ member "client_id" (String.list_byte_of_string (arg_int client_id)) ++ [x2c]
  ++ member "status" (quoted "connected") ++ [x2c]
  ++ member "type" (quoted "ConnectionConfirm") ++ [x7d].

Definition log_head : QByteArray := [x7b] ++ quoted "message" ++ [x3a; x22].

Definition log_tail : QByteArray :=
  [x22; x2c] ++ member "severity" (quoted "INFO") ++ [x2c]
  ++ member "type" (quoted "Log") ++ [x7d].

Definition log_text (message : string) : QByteArray :=
  log_head ++ String.list_byte_of_string message ++ log_tail.

Definition confirm_object (client_id : Z) : QJsonObject :=
  <["status" := JString "connected"]>
    (<["client_id" := JInteger client_id]>
       (<["type" := JString "ConnectionConfirm"]> ∅)).

Definition log_object (message : string) : QJsonObject :=
  <["message" := JString message]>
    (<["severity" := JString "INFO"]> (<["type" := JString "Log"]> ∅)).

Fixpoint bytes_eqb (a b : QByteArray) : bool :=
  match a, b with
  | [], [] => true
  | x :: a', y :: b' => Byte.eqb x y && bytes_eqb a' b'
  | _, _ => false
  end.

Fixpoint strip_prefix (pre data : QByteArray) : option QByteArray :=
  match pre, data with
  | [], _ => Some data
  | x :: pre', y :: data' => if Byte.eqb x y then strip_prefix pre' data' else None
  | _ :: _, [] => None
  end.

Definition strip_suffix (post data : QByteArray) : option QByteArray :=
  reverse <$> strip_prefix (reverse post) (reverse data).

Definition wire_toJson (o : QJsonObject) : QByteArray :=
  let type := toString (json_at o "type") in
  if bool_decide (type = "Command") then command_text (toString (json_at o "command"))
  else if bool_decide (type = "ConnectionConfirm")
       then confirm_text (toInt (json_at o "client_id"))
  else if bool_decide (type = "Log") then log_text (toString (json_at o "message"))
  else [x7b; x7d].

Definition wire_fromJson (data : QByteArray) : string + QJsonDocument :=
  if bytes_eqb data (command_text "start")
  then inr (DocObject (TcpServer.command_object "start"))
  else if bytes_eqb data (command_text "stop")
  then inr (DocObject (TcpServer.command_object "stop"))
  else if bytes_eqb data (command_text "pause")
  then inr (DocObject (TcpServer.command_object "pause"))
  else if bytes_eqb data (confirm_text 1)
  then inr (DocObject (confirm_object 1))
  else match strip_prefix log_head data ≫= strip_suffix log_tail with
       | Some message => inr (DocObject (log_object (String.string_of_list_byte message)))
       | None => inl "illegal value"
       end.

(** A whole number prints as its decimal. *)
Definition wire_arg_double (f : float) : string :=
  match SF_whole (Prim2SF f) with
  | Some z => arg_int z
  | None => "?"
  end.

Definition percent : Ascii.ascii := Ascii.ascii_of_byte x25.

(** [arg] for templates whose place markers are [%1] to [%9]: [fill d a]
    puts [a] for each [%d]. *)
Fixpoint fill (d : Ascii.ascii) (a : string) (pending : bool) (s : string) : string :=
  match s with
  | EmptyString => if pending then "%" else ""
  | String c s' =>
      if pending then
        if bool_decide (c = d) then a +:+ fill d a false s'
        else if bool_decide (c = percent) then String percent (fill d a true s')
        else String percent (String c (fill d a false s'))
      else if bool_decide (c = percent) then fill d a true s'
      else String c (fill d a false s')
  end.

Fixpoint has_marker (d : Ascii.ascii) (pending : bool) (s : string) : bool :=
  match s with
  | EmptyString => false
  | String c s' =>
      (pending && bool_decide (c = d)) || has_marker d (bool_decide (c = percent)) s'
  end.

(** The lowest place marker of the template is filled; a template without
    one stays as it is. *)
Definition wire_arg (template a : string) : string :=
  match filter (λ d, has_marker d false template)
               (String.list_ascii_of_string "123456789") with
  | d :: _ => fill d a false template
  | [] => template
  end.

Definition qt : QtRuntime :=
  {| toJson := wire_toJson;
     fromJson := wire_fromJson;
     QString_arg := wire_arg;
     arg_double := wire_arg_double;
     random_bounded := λ _ lo _, lo;
     socket_write := λ _ data, size data;
     socket_errorString := λ _, "Unknown error";
     currentDateTime := 0 |}.

Definition text : QtText :=
  {| number_f := λ f _, wire_arg_double f;
     fromUtf8 := String.string_of_list_byte;
     dateTime_toString := λ _ _, "00:00:00" |}.

End Wire.

(** ** Properties of transitions *)

(** Every run of [m] relates the state before to the state after by [R], and
    leaves a trace in [Q]. *)
Definition keeps {St Ev A : Type} (R : St → St → Prop) (Q : list Ev → Prop)
    (m : Act St Ev A) : Prop :=
  ∀ s, R s (m s).1.2 ∧ Q (m s).2.

(** [R] and [Q] go through sequences of transitions. *)
Class Stable {St Ev : Type} (R : St → St → Prop) (Q : list Ev → Prop) : Prop := {
  stable_refl : ∀ s, R s s;
  stable_trans : ∀ s1 s2 s3, R s1 s2 → R s2 s3 → R s1 s3;
  stable_nil : Q [];
  stable_app : ∀ t1 t2, Q t1 → Q t2 → Q (t1 ++ t2);
}.

Module Registry.
Import TcpServer.

Definition same_counter (s s' : TcpServer) : Prop :=
  next_client_id_ s' = next_client_id_ s.

Definition no_ids (t : list Event) : Prop := ids_issued t = [].

(** What the consistency of the registry depends on: the ID of each record,
    the reverse lookup, the sockets that have a buffer, the counter. *)
Definition view (s : TcpServer) : gmap Socket Z * gmap Z Socket * gset Socket * Z :=
  (id <$> clients_ s, client_sockets_ s, dom (receive_buffers_ s), next_client_id_ s).

Definition same_view (s s' : TcpServer) : Prop := consistent s → view s' = view s.

Definition registry_inv (s : TcpServer) : Prop :=
  consistent s ∧ ids_below_counter s ∧ 1 ≤ next_client_id_ s.

Definition any_trace (t : list Event) : Prop := True.

(** The fields after [startClient] or [stopClient] with the ID of [socket]. *)
Definition running_state (socket : Socket) (running : bool) (s : TcpServer) : TcpServer :=
  set_clients
    (<[socket := set_is_running running (default ClientInfo0 (clients_ s !! socket))]>
       (clients_ s)) s.

Definition unchanged (s s' : TcpServer) : Prop := s' = s.

(** The IDs of [k] accepts in a row when the counter is [n]. *)
Definition counter_ids (n k : Z) : list Z := (λ j, to_int (n + j)) <$> seqZ 0 k.

(** The fields after [acceptConnection p]. *)
Definition accepted_state (p : Pending) (s : TcpServer) : TcpServer :=
  let socket := pending_socket p in
  let info := mkClientInfo (next_client_id_ s) (peerAddress p) (peerPort p) true false in
  mkTcpServer (listening_ s)
    (<[socket := info]> (clients_ s))
    (<[next_client_id_ s := socket]> (client_sockets_ s))
    (int_add (next_client_id_ s) 1)
    (<[socket := []]> (receive_buffers_ s))
    (thresholds_ s)
    (<[socket := ConnectedState]> (socket_states_ s)).

(** The fields after [onClientDisconnected socket], for a registered
    socket. *)
Definition disconnected_state (socket : Socket) (info : ClientInfo) (s : TcpServer)
  : TcpServer :=
  mkTcpServer (listening_ s)
    (delete socket (clients_ s))
    (delete (id info) (client_sockets_ s))
    (next_client_id_ s)
    (delete socket (receive_buffers_ s))
    (thresholds_ s)
    (socket_states_ s).

(** A registered socket whose [abort()] makes [onClientDisconnected] erase
    its entry: it is not null, and it is connected or closing. *)
Definition live (socket : Socket) (s : TcpServer) : Prop :=
  socket ≠ 0%N ∧ is_Some (clients_ s !! socket)
  ∧ (state socket s = ConnectedState ∨ state socket s = ClosingState).

(** The fields after the abort of the sockets [l]. *)
Definition aborted (l : list Socket) (s : TcpServer) : TcpServer :=
  set_socket_states
    (foldl (λ m socket, <[socket := UnconnectedState]> m) (socket_states_ s) l) s.

(** The calls of the loop of [stopServer] on sockets that raise no signal. *)
Definition abort_calls (l : list Socket) : list Event :=
  l ≫= λ socket, [socketAbort socket; socketDeleteLater socket].

(** [ops] take [s] to [s']. *)
Definition reaches {qt : QtRuntime} (ops : list Op) (s s' : TcpServer) : Prop :=
  ∃ evs, run ops s = Some (s', evs).

End Registry.

(** ** Shapes of messages *)

(** [data] is the text of the object [obj]. *)
Definition parses_to {qt : QtRuntime} (data : QByteArray) (obj : QJsonObject) : Prop :=
  fromJson data = inr (DocObject obj).

Definition is_command (obj : QJsonObject) (command : string) : Prop :=
  obj !! "type" = Some (JString "Command")
  ∧ obj !! "command" = Some (JString command).

Definition is_confirm (obj : QJsonObject) (client_id : Z) : Prop :=
  obj !! "type" = Some (JString "ConnectionConfirm")
  ∧ obj !! "client_id" = Some (JInteger client_id)
  ∧ fits_int client_id = true.

Definition is_network_metrics (data : QJsonObject) : Prop :=
  toString (json_at data "type") = "NetworkMetrics".

(** The member [key] is there and converts to the double [v]. *)
Definition has_double (data : QJsonObject) (key : string) (v : float) : Prop :=
  is_Some (data !! key) ∧ toDouble (json_at data key) = v.

(** The member [key] is missing, or does not exceed [limit]. *)
Definition within (data : QJsonObject) (key : string) (limit : float) : Prop :=
  data !! key = None ∨ PrimFloat.ltb limit (toDouble (json_at data key)) = false.

(** The member [key] is there and exceeds [limit]. *)
Definition exceeds (data : QJsonObject) (key : string) (limit : float) : Prop :=
  is_Some (data !! key) ∧ PrimFloat.ltb limit (toDouble (json_at data key)) = true.

(** ** Traces of one kind *)

(** Every entry of a trace passes the test [p]. *)
Definition each {Ev : Type} (p : Ev → bool) (t : list Ev) : Prop := forallb p t = true.

(** What the collector reports of the data it receives: a log line or a
    [dataReceived]. *)
Definition is_report (e : TcpServer.Event) : bool :=
  match e with
  | TcpServer.logMessage _ | TcpServer.dataReceived _ => true
  | _ => false
  end.

(** ** The device's generator *)

(** [bounded] keeps its contract: a draw is in the range asked for. *)
Definition bounded_in_range {qt : QtRuntime} : Prop :=
  ∀ n lowest highest,
    lowest < highest → lowest ≤ random_bounded n lowest highest < highest.

(** The characters of [s] are characters of [alphabet]. *)
Definition over (alphabet s : string) : Prop :=
  Forall (λ ch, ch ∈ String.list_ascii_of_string alphabet) (String.list_ascii_of_string s).

(** The fields of the device that the generation of data leaves alone: all
    but [uptime_] and [draws_]. *)
Definition same_session (c c' : Client.Client) : Prop :=
  Client.socket_ c' = Client.socket_ c
  ∧ Client.reconnect_timer_ c' = Client.reconnect_timer_ c
  ∧ Client.send_timer_ c' = Client.send_timer_ c
  ∧ Client.receive_buffer_ c' = Client.receive_buffer_ c
  ∧ Client.host_ c' = Client.host_ c
  ∧ Client.port_ c' = Client.port_ c
  ∧ Client.client_id_ c' = Client.client_id_ c
  ∧ Client.state_ c' = Client.state_ c
  ∧ Client.message_counter_ c' = Client.message_counter_ c.

Definition silent {Ev : Type} (t : list Ev) : Prop := t = [].

(** The message types in the order of the [switch] of [onSendDataTimer]. *)
Definition rotation (data_type : Z) : string :=
  Client.item ["NetworkMetrics"; "DeviceStatus"; "Log"] data_type.

(** ** Starting and stopping all clients *)

(** The record of a client after [startAllClients]. *)
Definition started (info : TcpServer.ClientInfo) : TcpServer.ClientInfo :=
  if TcpServer.is_connected info then TcpServer.set_is_running true info else info.

(** The record [info] is one that [startAllClients] starts. *)
Definition startable (info : TcpServer.ClientInfo) : bool :=
  TcpServer.is_connected info && negb (TcpServer.is_running info).

(** The body of the loops of [startAllClients] and [stopAllClients], with
    [cond] the test on the record and [op] the call: [startClient] or
    [stopClient]. *)
Definition loop_body (cond : TcpServer.ClientInfo → bool) (op : Z → TcpServer.M unit)
    (socket : Socket) : TcpServer.M unit :=
  s ← get;
  match TcpServer.clients_ s !! socket with
  | Some info => when (cond info) (op (TcpServer.id info))
  | None => mret tt
  end.

(** The record of a client after this body. *)
Definition loop_record (running : bool) (cond : TcpServer.ClientInfo → bool)
    (info : TcpServer.ClientInfo) : TcpServer.ClientInfo :=
  if cond info then TcpServer.set_is_running running info else info.

(** ** The window and the registry *)

(** The widgets that depend on the fields of the window are up to date:
    the client table has the row of each client, in the order of the IDs,
    and each button is enabled as [updateButtonStates] has it. *)
Definition synced (w : ServerWindow.ServerWindow) : Prop :=
  let u := ServerWindow.ui w in
  let running := ServerWindow.server_running_ w in
  let has_clients := negb (bool_decide (ServerWindow.clients_ w = ∅)) in
  ServerWindow.tableClients u
  = ServerWindow.clientRow <$> ServerWindow.values (ServerWindow.clients_ w)
  ∧ ServerWindow.btnStartServer u = negb running
  ∧ ServerWindow.btnStopServer u = running
  ∧ ServerWindow.btnStartClients u = running && has_clients
  ∧ ServerWindow.btnStopClients u = running && has_clients.

(** The entries of a trace that change neither the clients nor the running
    flag of the window: the calls on the sockets, and the signals
    [logMessage] and [dataReceived]. *)
Definition is_quiet (e : TcpServer.Event) : bool :=
  match e with
  | TcpServer.clientConnected _ | TcpServer.clientDisconnected _
  | TcpServer.clientStatusChanged _ _
  | TcpServer.serverStarted | TcpServer.serverStopped => false
  | _ => true
  end.

(** The window shows the registry: it has the server as running when the
    server listens, and it holds, under each ID in use, the record of the
    client with this ID. *)
Definition shows (w : ServerWindow.ServerWindow) (s : TcpServer.TcpServer) : Prop :=
  ServerWindow.server_running_ w = TcpServer.listening_ s
  ∧ ∀ i, ServerWindow.clients_ w !! i
         = TcpServer.client_sockets_ s !! i ≫= λ socket, TcpServer.clients_ s !! socket.

(** The server has clients only while it listens. *)
Definition clients_while_listening (s : TcpServer.TcpServer) : Prop :=
  TcpServer.listening_ s = false → TcpServer.clients_ s = ∅.

(** An operation as the listening server and the sockets raise it in [s]:
    an accept brings new sockets, happens while the server listens, and
    leaves the counter within [int]. *)
Definition admissible (op : TcpServer.Op) (s : TcpServer.TcpServer) : Prop :=
  TcpServer.op_ok op s
  ∧ TcpServer.next_client_id_ s + Z.of_nat (TcpServer.accepts op) ≤ INT_MAX
  ∧ (TcpServer.accepts op ≠ 0%nat → TcpServer.listening_ s = true).

(** The fields of the server that the window mirrors, and what the
    consistency of the registry depends on. *)
Definition same_registry (s s' : TcpServer.TcpServer) : Prop :=
  TcpServer.clients_ s' = TcpServer.clients_ s
  ∧ TcpServer.client_sockets_ s' = TcpServer.client_sockets_ s
  ∧ TcpServer.listening_ s' = TcpServer.listening_ s
  ∧ TcpServer.next_client_id_ s' = TcpServer.next_client_id_ s
  ∧ dom (TcpServer.receive_buffers_ s') = dom (TcpServer.receive_buffers_ s).

(** A transition of the server after which the window, once it has handled
    the signals of the transition, shows the registry again. *)
Definition tracked {qt : QtRuntime} {text : QtText} {A : Type} (m : TcpServer.M A) : Prop :=
  ∀ s w, TcpServer.consistent s → shows w s →
         TcpServer.consistent (m s).1.2
         ∧ shows (ServerWindow.deliverAll (m s).2 w) (m s).1.2.

Definition same_listening (s s' : TcpServer.TcpServer) : Prop :=
  TcpServer.listening_ s' = TcpServer.listening_ s.

(** ** The command line of the device *)

Definition is_host_option (arg : string) : bool :=
  bool_decide (arg = "-h") || bool_decide (arg = "--host").

Definition is_port_option (arg : string) : bool :=
  bool_decide (arg = "-p") || bool_decide (arg = "--port").

(** The arguments that give the options [opts], each with its value. *)
Definition arguments_of (opts : list (string * string)) : list string :=
  opts ≫= λ o, [o.1; o.2].

(** The value of the last host option of [opts], or [host]. *)
Definition chosen_host (opts : list (string * string)) (host : string) : string :=
  foldl (λ h o, if is_host_option o.1 then o.2 else h) host opts.

(** The port of the last port option of [opts], or [port]. *)
Definition chosen_port (toUShort : string → Z) (opts : list (string * string)) (port : Z)
  : Z :=
  foldl (λ p o, if is_host_option o.1 then p
                else if is_port_option o.1 then toUShort o.2 else p) port opts.

(** ** Concrete devices and registries *)

Module Scenario.
Import Client.

(** A socket that has reached [ConnectedState], as it has when it raises
    [connected()]. *)
Definition socket_connected (c : Client) : Client := set_socket ConnectedState c.

(** The device after: connect, transport connected, ConnectionConfirm with
    ID 1, Command start. *)
Definition running_device : Client :=
  let c1 := (exec (connectToServer (qt := Wire.qt) "localhost" 12345) init).1 in
  let c2 := (exec onConnected (socket_connected c1)).1 in
  let c3 := (exec (processServerMessage (qt := Wire.qt) (Wire.confirm_text 1)) c2).1 in
  (exec (processServerMessage (qt := Wire.qt) (Wire.command_text "start")) c3).1.

(** The registry after the server has accepted one connection, on socket 5. *)
Definition one_client : TcpServer.TcpServer :=
  (exec (TcpServer.onNewConnection (qt := Wire.qt)
           [TcpServer.mkPending 5 "10.0.0.1" 40000]) TcpServer.init).1.

(** The same registry once [startClient 1] has run: its client is
    running. *)
Definition started_client : TcpServer.TcpServer :=
  (exec (TcpServer.startClient (qt := Wire.qt) 1) one_client).1.

(** The registry of [one_client] once socket 5 has left [ConnectedState] and
    its [disconnected()] signal has not been handled yet. *)
Definition half_open : TcpServer.TcpServer :=
  TcpServer.set_socket_states
    (<[5%N := UnconnectedState]> (TcpServer.socket_states_ one_client)) one_client.

(** A NetworkMetrics message. *)
Definition metrics (latency packet_loss : QJsonValue) : QJsonObject :=
  <["packet_loss" := packet_loss]>
    (<["latency" := latency]>
       (<["bandwidth" := JDouble 75.5]> (<["type" := JString "NetworkMetrics"]> ∅))).

(** A Log message whose text is as long as the receive buffer may get. *)
Definition long_text : string :=
  String.string_of_list_byte (replicate (Z.to_nat TcpServer.kMaxBufferSize) "a"%byte).

Definition long_log : QJsonObject := Wire.log_object long_text.

(** Command start after an empty frame, cut inside the text, with the first
    byte of a next message behind it. *)
Definition start_chunks : list QByteArray :=
  let text := Wire.command_text "start" in
  [x0a :: take 10 text; drop 10 text ++ [x0a; x7b]].

(** A short Log message in four pieces, the delimiter on its own. *)
Definition log_chunks : list QByteArray :=
  let text := Wire.log_text "hi" in
  [take 5 text; drop 5 text; [x0a]; [x7b; x22]].

(** One byte more than the receive buffer may hold, none of them a
    delimiter. *)
Definition flood : QByteArray :=
  replicate (Z.to_nat (TcpServer.kMaxBufferSize + 1)) "a"%byte.

Definition p5 : TcpServer.Pending := TcpServer.mkPending 5 "10.0.0.1" 40000.
Definition p6 : TcpServer.Pending := TcpServer.mkPending 6 "10.0.0.2" 40001.
Definition p7 : TcpServer.Pending := TcpServer.mkPending 7 "10.0.0.3" 40002.

(** A device connects, is started and goes; then two devices connect. *)
Definition session_ops : list TcpServer.Op :=
  [TcpServer.OpNewConnection [p5]; TcpServer.OpStartClient 1;
   TcpServer.OpClientDisconnected 5; TcpServer.OpNewConnection [p5; p6]].

(** A device connects and goes, [k] times. *)
Definition reconnect_ops (k : nat) : list TcpServer.Op :=
  concat (replicate k [TcpServer.OpNewConnection [p5]; TcpServer.OpClientDisconnected 5]).

(** The registry in which socket 6 holds ID 1 and is the only connection,
    with counter [n] and the socket states [states]. *)
Definition lingering (n : Z) (states : gmap Socket SocketState) : TcpServer.TcpServer :=
  TcpServer.mkTcpServer false
    {[6%N := TcpServer.mkClientInfo 1 "10.0.0.2" 40001 true false]}
    {[1 := 6%N]} n {[6%N := []]} TcpServer.ThresholdConfig0 states.

(** A device connects on socket 6 and stays, while another connects and goes
    2^32 - 1 times. *)
Definition wrap_ops : list TcpServer.Op :=
  TcpServer.OpNewConnection [p6] :: reconnect_ops (Z.to_nat 4294967295).

(** A generator whose doubles are all 0.5. *)
Definition half : nat → float := λ _, 0.5%float.

(** A DeviceStatus whose CPU usage is no whole number. *)
Definition fractional_status : QJsonObject :=
  <["cpu_usage" := JDouble 99.5]> (<["type" := JString "DeviceStatus"]> ∅).

(** A server that listens, and has no client yet. *)
Definition listening : TcpServer.TcpServer :=
  TcpServer.set_listening true TcpServer.init.

(** The window of a server that does not run and has no client, and the
    window of [listening]. *)
Definition idle_window : ServerWindow.ServerWindow :=
  ServerWindow.mkServerWindow
    (ServerWindow.mkUi [] [] [] true false false false "") false ∅.

Definition running_window : ServerWindow.ServerWindow :=
  ServerWindow.mkServerWindow
    (ServerWindow.mkUi [] [] [] false true false false "Server running on port 12345")
    true ∅.

(** A command line: a host, a port, and the host again. *)
Definition options : list (string * string) :=
  [("-h", "10.0.0.9"); ("--port", "8080"); ("--host", "--help")].

(** [toUShort] on the texts of the examples. *)
Definition toUShort (text : string) : Z :=
  if bool_decide (text = "8080") then 8080 else 0.

End Scenario.

(** * Framing *)

Lemma size_nonneg (b : QByteArray) : 0 ≤ size b.
Proof. unfold size. lia. Qed.

Lemma size_app (b1 b2 : QByteArray) : size (b1 ++ b2) = size b1 + size b2.
Proof. unfold size. rewrite length_app. lia. Qed.

Lemma size_cons (x : byte) (b : QByteArray) : size (x :: b) = size b + 1.
Proof. unfold size. simpl length. lia. Qed.

Lemma to_int_fits (z : Z) : INT_MIN ≤ z ≤ INT_MAX → to_int z = z.
Proof.
  unfold INT_MIN, INT_MAX, to_int. intros Hz.
  rewrite Z.mod_small by lia. lia.
Qed.

Lemma byte_eqb_refl (x : byte) : Byte.eqb x x = true.
Proof. by apply byte_dec_lb. Qed.

Lemma byte_eqb_neq (x y : byte) : x ≠ y → Byte.eqb x y = false.
Proof.
  intros Hne. destruct (Byte.eqb x y) eqn:E; [|done].
  by apply byte_dec_bl in E.
Qed.

Lemma indexOf_range (c : byte) (b : QByteArray) : -1 ≤ indexOf c b < size b.
Proof.
  induction b as [|x b IH]; simpl indexOf.
  - unfold size; simpl; lia.
  - rewrite size_cons. destruct (Byte.eqb x c).
    + pose proof (size_nonneg b). lia.
    + destruct (Z.ltb_spec (indexOf c b) 0); lia.
Qed.

Lemma indexOf_absent (c : byte) (b : QByteArray) : c ∉ b → indexOf c b = -1.
Proof.
  induction b as [|x b IH]; [done|]. intros [Hne Hb]%not_elem_of_cons.
  simpl. rewrite byte_eqb_neq by done. rewrite IH by done. done.
Qed.

Lemma indexOf_first (c : byte) (f r : QByteArray) :
  c ∉ f → indexOf c (f ++ c :: r) = size f.
Proof.
  induction f as [|x f IH]; simpl.
  - intros _. by rewrite byte_eqb_refl.
  - intros [Hne Hf]%not_elem_of_cons. rewrite byte_eqb_neq by done.
    rewrite IH by done. rewrite size_cons.
    pose proof (size_nonneg f). destruct (Z.ltb_spec (size f) 0); lia.
Qed.

Lemma contains_absent (c : byte) (b : QByteArray) : c ∉ b → contains c b = false.
Proof. intros Hb. unfold contains. by rewrite indexOf_absent. Qed.

Lemma contains_first (c : byte) (f r : QByteArray) :
  c ∉ f → contains c (f ++ c :: r) = true.
Proof.
  intros Hf. unfold contains. rewrite indexOf_first by done.
  pose proof (size_nonneg f). destruct (Z.eqb_spec (size f) (-1)); [lia|done].
Qed.

(** A buffer holds no delimiter, or splits at its first one. *)
Lemma first_delimiter (c : byte) (b : QByteArray) :
  c ∉ b ∨ ∃ f r, b = f ++ c :: r ∧ c ∉ f.
Proof.
  induction b as [|x b IH]; [left; by apply not_elem_of_nil|].
  destruct (Byte.eqb x c) eqn:E.
  - apply byte_dec_bl in E as ->. right. exists [], b. split; [done|].
    by apply not_elem_of_nil.
  - apply eqb_false in E. destruct IH as [IH|(f & r & -> & Hf)].
    + left. apply not_elem_of_cons. split; [congruence|done].
    + right. exists (x :: f), r. split; [done|].
      apply not_elem_of_cons. split; [congruence|done].
Qed.

Lemma left_first (f r : QByteArray) (c : byte) : left (size f) (f ++ c :: r) = f.
Proof.
  unfold left. rewrite size_app, size_cons.
  pose proof (size_nonneg r).
  destruct (Z.leb_spec (size f + (size r + 1)) (size f)); [lia|].
  unfold size. rewrite Nat2Z.id. by rewrite take_app_length.
Qed.

Lemma remove_first (f r : QByteArray) (c : byte) :
  remove 0 (size f + 1) (f ++ c :: r) = r.
Proof.
  unfold remove. rewrite size_app, size_cons.
  pose proof (size_nonneg f). pose proof (size_nonneg r).
  destruct (Z.leb_spec (size f + 1) 0); [lia|].
  destruct (Z.ltb_spec 0 0); [lia|].
  destruct (Z.leb_spec (size f + (size r + 1)) 0); [lia|].
  simpl. replace (Z.to_nat (0 + (size f + 1))) with (length (f ++ [c])).
  - replace (f ++ c :: r) with ((f ++ [c]) ++ r) by (by rewrite <- app_assoc).
    by rewrite drop_app_length.
  - rewrite length_app. unfold size. simpl. lia.
Qed.

Lemma scan_absent (d : byte) (b : QByteArray) : d ∉ b → scan d b = ([], b).
Proof.
  induction b as [|x b IH]; [done|]. intros [Hne Hb]%not_elem_of_cons.
  simpl. rewrite byte_eqb_neq by congruence. by rewrite IH.
Qed.

Lemma scan_first (d : byte) (f r : QByteArray) :
  d ∉ f → scan d (f ++ d :: r) = (f :: (scan d r).1, (scan d r).2).
Proof.
  induction f as [|x f IH]; simpl.
  - intros _. by rewrite byte_eqb_refl.
  - intros [Hne Hf]%not_elem_of_cons. rewrite byte_eqb_neq by congruence.
    by rewrite IH.
Qed.

Lemma scan_rest_absent (d : byte) (b : QByteArray) : d ∉ (scan d b).2.
Proof.
  induction b as [|x b IH]; simpl; [by apply not_elem_of_nil|].
  destruct (Byte.eqb x d) eqn:E; [done|].
  apply eqb_false in E.
  destruct (scan d b).1; simpl; [|done].
  apply not_elem_of_cons. split; [congruence|done].
Qed.

Lemma scan_rest_size (d : byte) (b : QByteArray) : size (scan d b).2 ≤ size b.
Proof.
  induction b as [|x b IH]; simpl; [done|]. rewrite size_cons.
  destruct (Byte.eqb x d); simpl; [lia|].
  destruct (scan d b).1; simpl; [rewrite size_cons|]; lia.
Qed.

(** The frames of a stream do not depend on where it is cut. *)
Lemma scan_app (d : byte) (b1 b2 : QByteArray) :
  scan d (b1 ++ b2)
  = ((scan d b1).1 ++ (scan d ((scan d b1).2 ++ b2)).1,
     (scan d ((scan d b1).2 ++ b2)).2).
Proof.
  remember (length b1) as n eqn:Hn. revert b1 Hn.
  induction n as [n IH] using lt_wf_ind. intros b1 ->.
  destruct (first_delimiter d b1) as [Hb|(f & r & -> & Hf)].
  - rewrite (scan_absent d b1) by done. simpl. by destruct (scan d (b1 ++ b2)).
  - rewrite <- app_assoc. simpl. rewrite !scan_first by done. simpl.
    rewrite (IH (length r)); [done| |done].
    rewrite length_app. simpl. lia.
Qed.

Lemma runFrames_app {St Ev : Type} (process : QByteArray → St → St * list Ev)
    (fs1 fs2 : list QByteArray) (s : St) :
  runFrames process (fs1 ++ fs2) s
  = ((runFrames process fs2 (runFrames process fs1 s).1).1,
     (runFrames process fs1 s).2 ++ (runFrames process fs2 (runFrames process fs1 s).1).2).
Proof.
  revert s. induction fs1 as [|f fs1 IH]; intros s; simpl.
  - by destruct (runFrames process fs2 s).
  - rewrite IH. simpl. by rewrite app_assoc.
Qed.

Section FrameLoopSpec.
Context {St Ev : Type}.
Variable d : byte.
Variable getbuf : St → QByteArray.
Variable setbuf : QByteArray → St → St.
Variable process : QByteArray → St → St * list Ev.
Hypothesis getbuf_setbuf : ∀ b s, getbuf (setbuf b s) = b.
Hypothesis setbuf_setbuf : ∀ b b' s, setbuf b (setbuf b' s) = setbuf b s.
Hypothesis process_setbuf : ∀ m b s,
  process m (setbuf b s) = (setbuf b (process m s).1, (process m s).2).

Lemma runFrames_setbuf (frames : list QByteArray) (b : QByteArray) (s : St) :
  runFrames process frames (setbuf b s)
  = (setbuf b (runFrames process frames s).1, (runFrames process frames s).2).
Proof using process_setbuf.
  revert s. induction frames as [|f fs IH]; intros s; simpl; [done|].
  destruct (isEmpty f); simpl.
  - rewrite IH. done.
  - rewrite process_setbuf. simpl. rewrite IH. done.
Qed.

Lemma frameLoop_S (fuel : nat) (s : St) :
  frameLoop d getbuf setbuf process (S fuel) s
  = if contains d (getbuf s) then
      let delimiter_pos := to_int (indexOf d (getbuf s)) in
      let message := left delimiter_pos (getbuf s) in
      let s1 := setbuf (remove 0 (int_add delimiter_pos 1) (getbuf s)) s in
      let r := if isEmpty message then (s1, []) else process message s1 in
      match frameLoop d getbuf setbuf process fuel r.1 with
      | Some r' => Some (r'.1, r.2 ++ r'.2)
      | None => None
      end
    else Some (s, []).
Proof. done. Qed.

(** With enough fuel, and a buffer whose positions fit an [int], the loop
    hands the frames of the buffer to [process] and keeps the bytes after
    the last delimiter. *)
Lemma frameLoop_scan (fuel : nat) (b : QByteArray) (s : St) :
  size b ≤ INT_MAX → (length b < fuel)%nat →
  frameLoop d getbuf setbuf process fuel (setbuf b s)
  = Some (setbuf (scan d b).2 (runFrames process (scan d b).1 s).1,
          (runFrames process (scan d b).1 s).2).
Proof using getbuf_setbuf setbuf_setbuf process_setbuf.
  revert b s. induction fuel as [|fuel IH]; intros b s Hsz Hfuel; [lia|].
  destruct (first_delimiter d b) as [Hb|(f & r & -> & Hf)].
  - simpl. rewrite getbuf_setbuf, contains_absent by done.
    by rewrite scan_absent.
  - rewrite frameLoop_S. rewrite getbuf_setbuf, contains_first by done.
    rewrite indexOf_first by done.
    rewrite size_app, size_cons in Hsz.
    pose proof (size_nonneg f) as Hf0. pose proof (size_nonneg r) as Hr0.
    rewrite to_int_fits by (unfold INT_MIN, INT_MAX in *; lia).
    unfold int_add. rewrite to_int_fits by (unfold INT_MIN, INT_MAX in *; lia).
    rewrite left_first, remove_first, setbuf_setbuf, scan_first by done.
    rewrite length_app in Hfuel. simpl in Hfuel.
    cbn [runFrames fst snd].
    destruct (isEmpty f); cbn [fst snd].
    + rewrite IH by lia. done.
    + rewrite process_setbuf. cbn [fst snd]. rewrite IH by lia. done.
Qed.

Variable bound : Z.
Hypothesis bound_int : bound ≤ INT_MAX.
Variable P : St → Prop.
Hypothesis P_setbuf : ∀ b s, P s → P (setbuf b s).
Hypothesis P_process : ∀ m s, P s → P (process m s).1.
Variable slot : QByteArray → St → option (St * list Ev).
Hypothesis slot_loop : ∀ c s, P s → size (getbuf s ++ c) ≤ bound →
  slot c s = frameLoop d getbuf setbuf process (S (length (getbuf s ++ c)))
               (setbuf (getbuf s ++ c) s).

Lemma P_runFrames (frames : list QByteArray) (s : St) :
  P s → P (runFrames process frames s).1.
Proof using P_process.
  revert s. induction frames as [|f fs IH]; intros s Hs; simpl; [done|].
  apply IH. destruct (isEmpty f); simpl; [done|]. by apply P_process.
Qed.

(** A stream fed in chunks: whatever the chunks, the frames of the whole
    stream are processed in order, and the bytes after its last delimiter
    stay in the buffer. *)
Lemma feedAll_scan (chunks : list QByteArray) (s : St) :
  P s → setbuf (getbuf s) s = s → d ∉ getbuf s →
  size (getbuf s ++ concat chunks) ≤ bound →
  feedAll slot chunks s
  = Some (setbuf (scan d (getbuf s ++ concat chunks)).2
            (runFrames process (scan d (getbuf s ++ concat chunks)).1 s).1,
          (runFrames process (scan d (getbuf s ++ concat chunks)).1 s).2).
Proof using All.
  revert s. induction chunks as [|c cs IH]; intros s HP Hid Hd Hsz.
  - simpl. rewrite app_nil_r, scan_absent by done. simpl. by rewrite Hid.
  - cbn [feedAll concat] in *. rewrite app_assoc in Hsz.
    pose proof (size_nonneg (concat cs)) as Hcs.
    rewrite size_app in Hsz.
    rewrite slot_loop by (done || lia).
    rewrite frameLoop_scan by (lia || done). cbn [fst snd].
    set (b1 := getbuf s ++ c) in *.
    set (s1 := setbuf (scan d b1).2 (runFrames process (scan d b1).1 s).1).
    assert (getbuf s1 = (scan d b1).2) as Hb1 by apply getbuf_setbuf.
    rewrite IH; cycle 1.
    + apply P_setbuf. by apply P_runFrames.
    + rewrite Hb1. unfold s1. by rewrite setbuf_setbuf.
    + rewrite Hb1. apply scan_rest_absent.
    + rewrite Hb1, size_app. pose proof (scan_rest_size d b1). lia.
    + rewrite Hb1. cbn [fst snd].
      rewrite (app_assoc (getbuf s) c (concat cs)). fold b1.
      rewrite (scan_app d b1 (concat cs)). cbn [fst snd].
      rewrite runFrames_app. cbn [fst snd].
      unfold s1. rewrite runFrames_setbuf. cbn [fst snd].
      by rewrite setbuf_setbuf.
Qed.
End FrameLoopSpec.

(** * The device state machine *)

Ltac act_unfold :=
  unfold exec, mbind, mret, Act_bind, Act_ret, bind, ret, get, modify, emit, when in *.

(** Runs a transition symbolically, with a case for each test it makes. *)
Ltac act_cases := act_unfold; cbn; repeat (case_bool_decide; cbn).

Lemma json_ref_lookup (o : QJsonObject) (k : string) (v : QJsonValue) :
  o !! k = Some v → json_ref o k = (v, o).
Proof. intros Hk. unfold json_ref. by rewrite Hk. Qed.

Lemma json_ref_toString (o : QJsonObject) (k : string) :
  toString (json_ref o k).1 = toString (json_at o k).
Proof. unfold json_ref, json_at. by destruct (o !! k). Qed.

Section DeviceFacts.
Import Client.
Context {qt : QtRuntime}.

(** C3, as corrected.  In a state other than [Disconnected]: the local
    [disconnect()] ends in [Disconnected], whatever the socket has still to
    write; the socket's [disconnected()] signal leaves the state as it is,
    stops the send timer, forgets the client ID and starts the reconnect
    timer once, with 5000 ms; when that timer fires the device connects
    again, to the host and port it has stored, and is in [Connecting]. *)
Theorem C3_disconnect (c : Client) (bytesToWrite : Z) :
  state_ c ≠ Disconnected →
  state_ (exec (disconnect bytesToWrite) c).1 = Disconnected
  ∧ exec onDisconnected c
    = (set_reconnect_timer (Some 5000) (set_client_id (-1) (set_send_timer None c)),
       [logMessage "Disconnected from server"; timerStop SendTimer;
        logMessage "Reconnecting in 5 seconds..."; timerStart ReconnectTimer 5000;
        disconnected])
  ∧ (let fired := set_reconnect_timer None (exec onDisconnected c).1 in
     let r := exec onReconnectTimer fired in
     state_ r.1 = Connecting
     ∧ host_ r.1 = host_ c ∧ port_ r.1 = port_ c
     ∧ socketConnectToHost (host_ c) (port_ c) ∈ r.2).
Proof.
  intros Hs. split; [|split].
  - unfold disconnect, socket_disconnectFromHost, onDisconnected, setState,
      timer_stop, timer_start.
    destruct (0 <? bytesToWrite); act_cases; done.
  - unfold onDisconnected, timer_stop, timer_start. act_unfold. cbn.
    rewrite bool_decide_true by done. reflexivity.
  - unfold onDisconnected, timer_stop, timer_start. act_unfold. cbn.
    rewrite bool_decide_true by done. cbn.
    unfold onReconnectTimer, connectToServer, socket_abort, onDisconnected, setState,
      timer_stop, timer_start.
    act_unfold. cbn.
    rewrite bool_decide_true by done.
    repeat (case_bool_decide; cbn); repeat split; try done.
    all: rewrite !elem_of_cons; auto 20.
Qed.

(** C6, what the code does.  A Command whose value is neither start nor stop
    changes no field of the device and leaves an empty trace: no state
    change, no timer touched, and no log event either.  A message of an
    unknown type, the branch next to it, is logged. *)
Theorem C6_unknown_command_silent (c : Client) (data : QByteArray) (obj : QJsonObject) :
  fromJson data = inr (DocObject obj) →
  obj !! "type" = Some (JString "Command") →
  toString (json_at obj "command") ≠ "start" →
  toString (json_at obj "command") ≠ "stop" →
  exec (processServerMessage data) c = (c, []).
Proof.
  intros Hparse Htype Hstart Hstop.
  unfold processServerMessage. rewrite Hparse. cbn [object].
  unfold dispatchServerMessage. rewrite (json_ref_lookup _ _ _ Htype).
  cbn [toString].
  rewrite bool_decide_false by done. rewrite bool_decide_true by done.
  rewrite <- json_ref_toString in Hstart, Hstop.
  destruct (json_ref obj "command") as [v o']. cbn [fst] in *.
  by rewrite !bool_decide_false by done.
Qed.

Lemma unknown_type_logged (c : Client) (data : QByteArray) (obj : QJsonObject) :
  fromJson data = inr (DocObject obj) →
  toString (json_at obj "type") ≠ "ConnectionConfirm" →
  toString (json_at obj "type") ≠ "Command" →
  exec (processServerMessage data) c
  = (c, [logMessage ("Unknown message type: " +:+ toString (json_at obj "type"))]).
Proof.
  intros Hparse Hconfirm Hcommand.
  unfold processServerMessage. rewrite Hparse. cbn [object].
  unfold dispatchServerMessage.
  rewrite <- json_ref_toString in *.
  destruct (json_ref obj "type") as [v o']. cbn [fst] in *.
  by rewrite !bool_decide_false by done.
Qed.

End DeviceFacts.

(** C3, the claim as stated fails: the device that is running and loses its
    connection is still in [Running], not in [Disconnected]. *)
Lemma C3_counterexample :
  Client.state_ Scenario.running_device = Client.Running
  ∧ Client.state_ (exec Client.onDisconnected Scenario.running_device).1
    ≠ Client.Disconnected.
Proof. split; [reflexivity|]. vm_compute. discriminate. Qed.

Lemma C3_disconnect_witness :
  Client.state_ Scenario.running_device ≠ Client.Disconnected
  ∧ Client.reconnect_timer_ (exec Client.onDisconnected Scenario.running_device).1
    = Some 5000.
Proof.
  assert (Client.state_ Scenario.running_device ≠ Client.Disconnected) as Hs
    by (vm_compute; discriminate).
  split; [exact Hs|].
  destruct (C3_disconnect (qt := Wire.qt) Scenario.running_device 0 Hs) as (_ & -> & _).
  reflexivity.
Defined.

Lemma C6_unknown_command_silent_witness :
  exec (Client.processServerMessage (qt := Wire.qt) (Wire.command_text "pause"))
    Scenario.running_device
  = (Scenario.running_device, []).
Proof.
  apply (C6_unknown_command_silent (qt := Wire.qt) _ _ (TcpServer.command_object "pause")).
  - vm_compute. reflexivity.
  - vm_compute. reflexivity.
  - intros E. vm_compute in E. discriminate E.
  - intros E. vm_compute in E. discriminate E.
Defined.

Section Handshake.
Import Client.
Context {qt : QtRuntime}.

Lemma connectToServer_state (c : Client) (host : string) (port : Z) :
  state_ (exec (connectToServer host port) c).1 = Connecting.
Proof.
  unfold connectToServer, socket_abort, onDisconnected, setState, timer_stop, timer_start.
  act_cases; done.
Qed.

Lemma onConnected_state (c : Client) :
  state_ (exec onConnected c).1 = WaitingConfirmation.
Proof. unfold onConnected, setState. act_cases; done. Qed.

Lemma confirm_exec (c : Client) (data : QByteArray) (obj : QJsonObject) (k : Z) :
  parses_to data obj → is_confirm obj k →
  state_ (exec (processServerMessage data) c).1 = WaitingStart
  ∧ client_id_ (exec (processServerMessage data) c).1 = k.
Proof.
  intros Hp (Ht & Hid & Hk). unfold parses_to in Hp.
  unfold processServerMessage. rewrite Hp. cbn [object].
  unfold dispatchServerMessage.
  rewrite (json_ref_lookup _ _ _ Ht), (json_ref_lookup _ _ _ Hid).
  cbn [toString toInt]. rewrite Hk.
  destruct (json_ref obj "status") as [status_v obj'].
  rewrite bool_decide_true by done.
  unfold setState. act_cases; done.
Qed.

Lemma start_exec (c : Client) (data : QByteArray) (obj : QJsonObject) :
  parses_to data obj → is_command obj "start" →
  state_ (exec (processServerMessage data) c).1 = Running
  ∧ is_Some (send_timer_ (exec (processServerMessage data) c).1).
Proof.
  intros Hp (Ht & Hc). unfold parses_to in Hp.
  unfold processServerMessage. rewrite Hp. cbn [object].
  unfold dispatchServerMessage.
  rewrite (json_ref_lookup _ _ _ Ht), (json_ref_lookup _ _ _ Hc).
  cbn [toString].
  rewrite bool_decide_false by done. rewrite !bool_decide_true by done.
  unfold setState, scheduleNextSend, timer_start. act_cases; try done.
  all: split; [done|by eexists].
Qed.

Lemma stop_exec (c : Client) (data : QByteArray) (obj : QJsonObject) :
  parses_to data obj → is_command obj "stop" →
  state_ (exec (processServerMessage data) c).1 = Stopped
  ∧ send_timer_ (exec (processServerMessage data) c).1 = None
  ∧ timerStop SendTimer ∈ (exec (processServerMessage data) c).2.
Proof.
  intros Hp (Ht & Hc). unfold parses_to in Hp.
  unfold processServerMessage. rewrite Hp. cbn [object].
  unfold dispatchServerMessage.
  rewrite (json_ref_lookup _ _ _ Ht), (json_ref_lookup _ _ _ Hc).
  cbn [toString].
  rewrite bool_decide_false by done. rewrite bool_decide_true by done.
  rewrite bool_decide_false by done. rewrite bool_decide_true by done.
  unfold setState, timer_stop. act_cases; repeat split; try done.
  all: rewrite !elem_of_cons; auto 10.
Qed.

(** C9.  From [Disconnected]: [connectToServer] gives [Connecting], the
    socket's [connected()] gives [WaitingConfirmation], a ConnectionConfirm
    gives [WaitingStart] and stores its ID, Command start gives [Running]
    with the send timer armed, and Command stop then gives [Stopped] with the
    send timer stopped. *)
Theorem C9_handshake (c : Client) (host : string) (port : Z)
    (confirm start stop : QByteArray) (o1 o2 o3 : QJsonObject) (k : Z) :
  state_ c = Disconnected →
  parses_to confirm o1 → is_confirm o1 k →
  parses_to start o2 → is_command o2 "start" →
  parses_to stop o3 → is_command o3 "stop" →
  let c1 := (exec (connectToServer host port) c).1 in
  let c2 := (exec onConnected c1).1 in
  let c3 := (exec (processServerMessage confirm) c2).1 in
  let c4 := (exec (processServerMessage start) c3).1 in
  let r5 := exec (processServerMessage stop) c4 in
  state_ c1 = Connecting
  ∧ state_ c2 = WaitingConfirmation
  ∧ (state_ c3 = WaitingStart ∧ client_id_ c3 = k)
  ∧ (state_ c4 = Running ∧ is_Some (send_timer_ c4))
  ∧ (state_ r5.1 = Stopped ∧ send_timer_ r5.1 = None ∧ timerStop SendTimer ∈ r5.2).
Proof.
  intros _ Hp1 Ho1 Hp2 Ho2 Hp3 Ho3 c1 c2 c3 c4 r5.
  split; [apply connectToServer_state|].
  split; [apply onConnected_state|].
  split; [by apply (confirm_exec c2 confirm o1 k)|].
  split; [by apply (start_exec c3 start o2)|].
  by apply (stop_exec c4 stop o3).
Qed.

End Handshake.

Lemma C9_handshake_witness :
  let c1 := (exec (Client.connectToServer (qt := Wire.qt) "localhost" 12345) Client.init).1 in
  let c2 := (exec Client.onConnected c1).1 in
  let c3 := (exec (Client.processServerMessage (qt := Wire.qt) (Wire.confirm_text 1)) c2).1 in
  let c4 := (exec (Client.processServerMessage (qt := Wire.qt) (Wire.command_text "start")) c3).1 in
  let r5 := exec (Client.processServerMessage (qt := Wire.qt) (Wire.command_text "stop")) c4 in
  Client.state_ c1 = Client.Connecting
  ∧ Client.state_ c2 = Client.WaitingConfirmation
  ∧ (Client.state_ c3 = Client.WaitingStart ∧ Client.client_id_ c3 = 1)
  ∧ (Client.state_ c4 = Client.Running ∧ is_Some (Client.send_timer_ c4))
  ∧ (Client.state_ r5.1 = Client.Stopped ∧ Client.send_timer_ r5.1 = None
     ∧ Client.timerStop Client.SendTimer ∈ r5.2).
Proof.
  apply (C9_handshake (qt := Wire.qt) Client.init "localhost" 12345
           (Wire.confirm_text 1) (Wire.command_text "start") (Wire.command_text "stop")
           (Wire.confirm_object 1) (TcpServer.command_object "start")
           (TcpServer.command_object "stop") 1).
  - reflexivity.
  - vm_compute. reflexivity.
  - repeat split; vm_compute; reflexivity.
  - vm_compute. reflexivity.
  - repeat split; vm_compute; reflexivity.
  - vm_compute. reflexivity.
  - repeat split; vm_compute; reflexivity.
Defined.

(** * The collector: commands and thresholds *)

Section CollectorFacts.
Import TcpServer.
Context {qt : QtRuntime}.

Lemma forEach_emit {A : Type} (l : list A) (f : A → Event) (s : TcpServer) :
  forEach l (λ x, emit (f x)) s = (tt, s, f <$> l).
Proof.
  induction l as [|x l IH]; [done|].
  cbn [forEach]. act_unfold. rewrite IH. done.
Qed.

Lemma checkThresholds_run (client_id : Z) (data : QJsonObject) (s : TcpServer) :
  checkThresholds client_id data s
  = (tt, s, (λ w, logMessage (warningLog client_id w))
              <$> thresholdWarnings (thresholds_ s) data).
Proof.
  unfold checkThresholds, getThresholds. act_unfold. cbn.
  rewrite (forEach_emit _ (λ w, logMessage (warningLog client_id w))). done.
Qed.

Lemma checkThresholds_trace (client_id : Z) (data : QJsonObject) (s : TcpServer) :
  exec (checkThresholds client_id data) s
  = (s, (λ w, logMessage (warningLog client_id w)) <$> thresholdWarnings (thresholds_ s) data).
Proof. unfold exec. by rewrite checkThresholds_run. Qed.

(** [processClientData] changes no field; its trace is a parse error, or the
    [dataReceived] signal and then the warnings. *)
Lemma processClientData_exec (client_id : Z) (data : QByteArray) (s : TcpServer) :
  exec (processClientData client_id data) s
  = (s,
     match fromJson data with
     | inl errorString =>
         [logMessage ("JSON parse error from client " +:+ arg_int client_id
                      +:+ ": " +:+ errorString)]
     | inr doc =>
         if isObject doc then
           dataReceived (mkClientData client_id (toString (json_ref (object doc) "type").1)
                           (json_ref (object doc) "type").2 currentDateTime)
           :: (exec (checkThresholds client_id (json_ref (object doc) "type").2) s).2
         else [logMessage ("Invalid JSON from client " +:+ arg_int client_id
                           +:+ ": not an object")]
     end).
Proof.
  unfold processClientData. destruct (fromJson data) as [e|doc]; [done|].
  destruct (isObject doc); [|done]. cbn [negb].
  destruct (json_ref (object doc) "type") as [type_v obj].
  rewrite checkThresholds_trace. act_unfold. cbn.
  by rewrite checkThresholds_run.
Qed.

(** [<] on doubles is strict. *)
Lemma ltb_irrefl (x : float) : PrimFloat.ltb x x = false.
Proof.
  rewrite ltb_spec. unfold SpecFloat.SFltb.
  destruct (Prim2SF x) as [[]|[]| |[] m e]; cbn; try reflexivity.
  all: rewrite Z.compare_refl, ?Pos.compare_refl; reflexivity.
Qed.

(** The warnings for a NetworkMetrics message: each rule gives its
    warning or none, the latency first. *)
Lemma thresholdWarnings_metrics (config : ThresholdConfig) (data : QJsonObject) :
  is_network_metrics data →
  thresholdWarnings config data
  = (if bool_decide (is_Some (data !! "latency")) then
       if PrimFloat.ltb (max_latency config) (toDouble (json_at data "latency"))
       then ["High latency: " +:+ arg_double (toDouble (json_at data "latency")) +:+ "ms"]
       else []
     else [])
    ++ (if bool_decide (is_Some (data !! "packet_loss")) then
          if PrimFloat.ltb (max_packet_loss config) (toDouble (json_at data "packet_loss"))
          then ["High packet loss: "
                +:+ arg_double (toDouble (json_at data "packet_loss")) +:+ "%"]
          else []
        else []).
Proof.
  unfold is_network_metrics, thresholdWarnings. intros ->.
  by rewrite bool_decide_true by done.
Qed.

Lemma within_none (data : QJsonObject) (key : string) (limit : float)
    (warning : list string) :
  within data key limit →
  (if bool_decide (is_Some (data !! key)) then
     if PrimFloat.ltb limit (toDouble (json_at data key)) then warning else []
   else []) = [].
Proof.
  intros [Hnone|Hle].
  - rewrite Hnone. by rewrite bool_decide_false by (by intros [? ?]).
  - rewrite Hle. by case_bool_decide.
Qed.

Lemma exceeds_one (data : QJsonObject) (key : string) (limit : float)
    (warning : list string) :
  exceeds data key limit →
  (if bool_decide (is_Some (data !! key)) then
     if PrimFloat.ltb limit (toDouble (json_at data key)) then warning else []
   else []) = warning.
Proof. intros [Hsome Hlt]. rewrite Hlt. by rewrite bool_decide_true by done. Qed.

(** C5.  The two rules of a NetworkMetrics message are evaluated each on
    its own, for every pair of limits: a message within both limits gives no
    warning; one that exceeds the latency limit alone gives the latency
    warning alone, which names the latency; one that exceeds the packet-loss
    limit alone gives the packet-loss warning alone; one that exceeds both
    gives the two, the latency first.  The comparisons are strict: a value
    equal to its limit is within it.  So with [max_latency] 100 and the
    packet loss within its limit, latency 150 gives one warning, and latency
    50, or 100 itself, none.  A warning is a log line that starts with the
    ID of the connection, and the evaluation changes no field. *)
Theorem C5_threshold_evaluation (s : TcpServer) (client_id : Z) (data : QJsonObject) :
  let config := thresholds_ s in
  let r := exec (checkThresholds client_id data) s in
  let latency_warning :=
    logMessage (warningLog client_id
      ("High latency: " +:+ arg_double (toDouble (json_at data "latency")) +:+ "ms")) in
  let loss_warning :=
    logMessage (warningLog client_id
      ("High packet loss: " +:+ arg_double (toDouble (json_at data "packet_loss"))
       +:+ "%")) in
  (is_network_metrics data →
   (within data "latency" (max_latency config) →
    within data "packet_loss" (max_packet_loss config) → r.2 = [])
   ∧ (exceeds data "latency" (max_latency config) →
      within data "packet_loss" (max_packet_loss config) → r.2 = [latency_warning])
   ∧ (within data "latency" (max_latency config) →
      exceeds data "packet_loss" (max_packet_loss config) → r.2 = [loss_warning])
   ∧ (exceeds data "latency" (max_latency config) →
      exceeds data "packet_loss" (max_packet_loss config) →
      r.2 = [latency_warning; loss_warning]))
  ∧ (has_double data "latency" (max_latency config) →
     within data "latency" (max_latency config))
  ∧ (has_double data "packet_loss" (max_packet_loss config) →
     within data "packet_loss" (max_packet_loss config))
  ∧ (max_latency config = 100%float → is_network_metrics data →
     has_double data "latency" 150 → within data "packet_loss" (max_packet_loss config) →
     r.2 = [logMessage (warningLog client_id ("High latency: " +:+ arg_double 150 +:+ "ms"))])
  ∧ (max_latency config = 100%float → is_network_metrics data →
     has_double data "latency" 50 ∨ has_double data "latency" 100 →
     within data "packet_loss" (max_packet_loss config) →
     r.2 = [])
  ∧ (∀ e, e ∈ r.2 →
     ∃ w, e = logMessage ("WARNING [Client " +:+ arg_int client_id +:+ "]: " +:+ w))
  ∧ r.1 = s.
Proof.
  intros config r latency_warning loss_warning. subst r latency_warning loss_warning.
  rewrite checkThresholds_trace. cbn [fst snd]. fold config.
  split; [|split; [|split; [|split; [|split; [|split]]]]].
  - intros Htype. rewrite (thresholdWarnings_metrics _ _ Htype).
    split; [|split; [|split]].
    + intros H1 H2. by rewrite (within_none _ _ _ _ H1), (within_none _ _ _ _ H2).
    + intros H1 H2. by rewrite (exceeds_one _ _ _ _ H1), (within_none _ _ _ _ H2).
    + intros H1 H2. by rewrite (within_none _ _ _ _ H1), (exceeds_one _ _ _ _ H2).
    + intros H1 H2. by rewrite (exceeds_one _ _ _ _ H1), (exceeds_one _ _ _ _ H2).
  - intros [_ Hv]. right. rewrite Hv. apply ltb_irrefl.
  - intros [_ Hv]. right. rewrite Hv. apply ltb_irrefl.
  - intros Hmax Htype [Hsome Hlat] Hpl. rewrite (thresholdWarnings_metrics _ _ Htype).
    rewrite (within_none _ _ _ _ Hpl), Hmax, Hlat.
    by rewrite bool_decide_true by done.
  - intros Hmax Htype Hlat Hpl. rewrite (thresholdWarnings_metrics _ _ Htype).
    rewrite (within_none _ _ _ _ Hpl), Hmax.
    destruct Hlat as [[_ ->]|[_ ->]]; by case_bool_decide.
  - intros e (w & -> & _)%list_elem_of_fmap. by exists w.
  - done.
Qed.

(** C7.  [startClient] and [stopClient] with an ID that is no key of
    [client_sockets_] log that the client was not found and do nothing else:
    every field keeps its value, and the trace holds no write on a socket and
    no [clientStatusChanged]. *)
Theorem C7_unknown_id (s : TcpServer) (client_id : Z) :
  client_sockets_ s !! client_id = None →
  exec (startClient client_id) s
  = (s, [logMessage ("Client " +:+ arg_int client_id +:+ " not found")])
  ∧ exec (stopClient client_id) s
    = (s, [logMessage ("Client " +:+ arg_int client_id +:+ " not found")]).
Proof.
  intros Hid. unfold startClient, stopClient. act_unfold. cbn. by rewrite Hid.
Qed.

(** C10.  [startClient] with a registered ID whose socket is not in
    [ConnectedState] sets [is_running] of the socket's record and emits
    [clientStatusChanged] and the log line; nothing is written on the socket
    and [sendToClient] leaves no event. *)
Theorem C10_start_without_send (s : TcpServer) (client_id : Z) (socket : Socket) :
  client_sockets_ s !! client_id = Some socket →
  state socket s ≠ ConnectedState →
  let r := exec (startClient client_id) s in
  r = (set_clients
         (<[socket := set_is_running true (default ClientInfo0 (clients_ s !! socket))]>
            (clients_ s)) s,
       [clientStatusChanged client_id true;
        logMessage ("Started client " +:+ arg_int client_id)])
  ∧ is_running <$> clients_ r.1 !! socket = Some true
  ∧ ∀ socket' data, socketWrite socket' data ∉ r.2.
Proof.
  intros Hid Hstate r.
  assert (r = (set_clients
         (<[socket := set_is_running true (default ClientInfo0 (clients_ s !! socket))]>
            (clients_ s)) s,
       [clientStatusChanged client_id true;
        logMessage ("Started client " +:+ arg_int client_id)])) as Hr.
  { subst r. unfold startClient, sendToClient. act_unfold. cbn. rewrite Hid. cbn.
    unfold state in *. cbn.
    rewrite (bool_decide_true (_ ≠ ConnectedState)) by done.
    by rewrite orb_true_r. }
  split; [done|]. rewrite Hr. cbn. split.
  - by rewrite lookup_insert_eq.
  - intros socket' data. rewrite !not_elem_of_cons. repeat split; try done.
    apply not_elem_of_nil.
Qed.

End CollectorFacts.

Lemma C5_threshold_evaluation_witness :
  let check data := (exec (TcpServer.checkThresholds (qt := Wire.qt) 1 data)
                       Scenario.one_client).2 in
  check (Scenario.metrics (JInteger 150) (JDouble 1.5))
  = [TcpServer.logMessage "WARNING [Client 1]: High latency: 150ms"]
  ∧ check (Scenario.metrics (JDouble 50) (JDouble 1.5)) = []
  ∧ check (Scenario.metrics (JDouble 50) (JInteger 7))
    = [TcpServer.logMessage "WARNING [Client 1]: High packet loss: 7%"]
  ∧ check (Scenario.metrics (JInteger 150) (JInteger 7))
    = [TcpServer.logMessage "WARNING [Client 1]: High latency: 150ms";
       TcpServer.logMessage "WARNING [Client 1]: High packet loss: 7%"]
  ∧ check (Scenario.metrics (JInteger 100) (JInteger 5)) = [].
Proof.
  pose proof (C5_threshold_evaluation (qt := Wire.qt) Scenario.one_client 1) as H.
  assert (∀ latency loss, is_network_metrics (Scenario.metrics latency loss)) as Htype.
  { intros latency loss. vm_compute. reflexivity. }
  assert (∀ latency loss key, key = "latency" ∨ key = "packet_loss" →
          is_Some (Scenario.metrics latency loss !! key)) as Hsome.
  { intros latency loss key [-> | ->]; by eexists. }
  split; [|split; [|split; [|split]]].
  - destruct (H (Scenario.metrics (JInteger 150) (JDouble 1.5))) as (_ & _ & _ & H1 & _).
    cbv zeta. rewrite H1.
    + vm_compute. reflexivity.
    + vm_compute. reflexivity.
    + apply Htype.
    + split; [apply Hsome; by left|]. vm_compute. reflexivity.
    + right. vm_compute. reflexivity.
  - destruct (H (Scenario.metrics (JDouble 50) (JDouble 1.5))) as (_ & _ & _ & _ & H2 & _).
    cbv zeta. rewrite H2.
    + reflexivity.
    + vm_compute. reflexivity.
    + apply Htype.
    + left. split; [apply Hsome; by left|]. vm_compute. reflexivity.
    + right. vm_compute. reflexivity.
  - destruct (H (Scenario.metrics (JDouble 50) (JInteger 7))) as (Hfour & _).
    destruct (Hfour (Htype _ _)) as (_ & _ & H3 & _).
    cbv zeta. rewrite H3.
    + vm_compute. reflexivity.
    + right. vm_compute. reflexivity.
    + split; [apply Hsome; by right|]. vm_compute. reflexivity.
  - destruct (H (Scenario.metrics (JInteger 150) (JInteger 7))) as (Hfour & _).
    destruct (Hfour (Htype _ _)) as (_ & _ & _ & H4).
    cbv zeta. rewrite H4.
    + vm_compute. reflexivity.
    + split; [apply Hsome; by left|]. vm_compute. reflexivity.
    + split; [apply Hsome; by right|]. vm_compute. reflexivity.
  - destruct (H (Scenario.metrics (JInteger 100) (JInteger 5)))
      as (Hfour & Hlat & Hloss & _).
    destruct (Hfour (Htype _ _)) as (H0 & _).
    cbv zeta. rewrite H0.
    + reflexivity.
    + apply Hlat. split; [apply Hsome; by left|]. vm_compute. reflexivity.
    + apply Hloss. split; [apply Hsome; by right|]. vm_compute. reflexivity.
Defined.

Lemma C7_unknown_id_witness :
  TcpServer.client_sockets_ Scenario.one_client !! 2 = None
  ∧ exec (TcpServer.startClient (qt := Wire.qt) 2) Scenario.one_client
    = (Scenario.one_client, [TcpServer.logMessage "Client 2 not found"])
  ∧ exec (TcpServer.stopClient (qt := Wire.qt) 2) Scenario.one_client
    = (Scenario.one_client, [TcpServer.logMessage "Client 2 not found"]).
Proof.
  assert (TcpServer.client_sockets_ Scenario.one_client !! 2 = None) as Hid
    by (vm_compute; reflexivity).
  split; [exact Hid|].
  exact (C7_unknown_id (qt := Wire.qt) Scenario.one_client 2 Hid).
Defined.

Lemma C10_start_without_send_witness :
  TcpServer.client_sockets_ Scenario.half_open !! 1 = Some 5%N
  ∧ TcpServer.state 5 Scenario.half_open ≠ ConnectedState
  ∧ (exec (TcpServer.startClient (qt := Wire.qt) 1) Scenario.half_open).2
    = [TcpServer.clientStatusChanged 1 true; TcpServer.logMessage "Started client 1"]
  ∧ TcpServer.is_running
      <$> TcpServer.clients_ (exec (TcpServer.startClient (qt := Wire.qt) 1)
                                 Scenario.half_open).1 !! 5%N
    = Some true.
Proof.
  assert (TcpServer.client_sockets_ Scenario.half_open !! 1 = Some 5%N) as Hid
    by (vm_compute; reflexivity).
  assert (TcpServer.state 5 Scenario.half_open ≠ ConnectedState) as Hst
    by (vm_compute; discriminate).
  split; [exact Hid|]. split; [exact Hst|].
  destruct (C10_start_without_send (qt := Wire.qt) Scenario.half_open 1 5%N Hid Hst)
    as (Hr & Hrun & _).
  split; [|exact Hrun].
  cbv zeta in Hr. rewrite Hr. reflexivity.
Defined.

(** * Framing on both sides *)

Lemma scan_delimiters (d : byte) (k : nat) (b : QByteArray) :
  scan d (replicate k d ++ b) = (replicate k [] ++ (scan d b).1, (scan d b).2).
Proof.
  induction k as [|k IH]; cbn [replicate app].
  - by destruct (scan d b).
  - cbn [scan]. rewrite byte_eqb_refl, IH. done.
Qed.

Lemma scan_one (d : byte) (f tail : QByteArray) :
  d ∉ f → d ∉ tail → scan d ((f ++ [d]) ++ tail) = ([f], tail).
Proof.
  intros Hf Ht. rewrite <- app_assoc. cbn [app].
  rewrite scan_first by done. by rewrite scan_absent.
Qed.

Lemma runFrames_empties {St Ev : Type} (process : QByteArray → St → St * list Ev)
    (k : nat) (fs : list QByteArray) (s : St) :
  runFrames process (replicate k [] ++ fs) s = runFrames process fs s.
Proof.
  induction k as [|k IH]; cbn [replicate app]; [done|].
  cbn [runFrames isEmpty fst snd]. rewrite IH. by destruct (runFrames process fs s).
Qed.

Lemma runFrames_one {St Ev : Type} (process : QByteArray → St → St * list Ev)
    (f : QByteArray) (s : St) :
  f ≠ [] → runFrames process [f] s = process f s.
Proof.
  intros Hf. cbn [runFrames]. destruct f as [|x f]; [done|]. cbn [isEmpty fst snd].
  rewrite app_nil_r. by destruct (process (x :: f) s).
Qed.

Section FramingFacts.
Context {qt : QtRuntime}.

Lemma Client_process_setbuf (m b : QByteArray) (c : Client.Client) :
  exec (Client.processServerMessage m) (Client.set_receive_buffer b c)
  = (Client.set_receive_buffer b (exec (Client.processServerMessage m) c).1,
     (exec (Client.processServerMessage m) c).2).
Proof.
  unfold Client.processServerMessage. destruct (fromJson m) as [e|doc]; [done|].
  unfold Client.dispatchServerMessage.
  destruct (json_ref (object doc) "type") as [type_v o1].
  case_bool_decide.
  { destruct (json_ref o1 "client_id") as [id_v o2].
    destruct (json_ref o2 "status") as [st_v o3].
    unfold Client.setState. act_cases; done. }
  case_bool_decide; [|done].
  destruct (json_ref o1 "command") as [cmd_v o2].
  unfold Client.setState, Client.scheduleNextSend, Client.timer_stop, Client.timer_start.
  repeat case_bool_decide; act_cases; done.
Qed.

(** The device: a stream that fits an [int], fed in any chunks. *)
Lemma Client_feedAll_scan (chunks : list QByteArray) (c : Client.Client) :
  Client.kMessageDelimiter ∉ Client.receive_buffer_ c →
  size (Client.receive_buffer_ c ++ concat chunks) ≤ INT_MAX →
  let stream := Client.receive_buffer_ c ++ concat chunks in
  let process m := exec (Client.processServerMessage m) in
  feedAll Client.onReadyRead chunks c
  = Some (Client.set_receive_buffer (scan Client.kMessageDelimiter stream).2
            (runFrames process (scan Client.kMessageDelimiter stream).1 c).1,
          (runFrames process (scan Client.kMessageDelimiter stream).1 c).2).
Proof.
  intros Hd Hsz stream process.
  apply (feedAll_scan Client.kMessageDelimiter Client.receive_buffer_
           Client.set_receive_buffer process) with (bound := INT_MAX) (P := λ _, True);
    try done.
  - intros m b s. apply Client_process_setbuf.
  - by destruct c.
Qed.

Lemma buffer_set_buffer (socket : Socket) (b : QByteArray) (s : TcpServer.TcpServer) :
  TcpServer.buffer socket (TcpServer.set_buffer socket b s) = b.
Proof. unfold TcpServer.buffer, TcpServer.set_buffer. cbn. by rewrite lookup_insert_eq. Qed.

Lemma set_buffer_set_buffer (socket : Socket) (b b' : QByteArray) (s : TcpServer.TcpServer) :
  TcpServer.set_buffer socket b (TcpServer.set_buffer socket b' s)
  = TcpServer.set_buffer socket b s.
Proof. unfold TcpServer.set_buffer. cbn. by rewrite insert_insert_eq. Qed.

Lemma set_buffer_id (socket : Socket) (b : QByteArray) (s : TcpServer.TcpServer) :
  TcpServer.receive_buffers_ s !! socket = Some b →
  TcpServer.buffer socket s = b ∧ TcpServer.set_buffer socket b s = s.
Proof.
  intros Hb. unfold TcpServer.buffer, TcpServer.set_buffer. rewrite Hb. split; [done|].
  rewrite insert_id by done. by destruct s.
Qed.

Lemma TcpServer_process_setbuf (client_id : Z) (socket : Socket) (m b : QByteArray)
    (s : TcpServer.TcpServer) :
  exec (TcpServer.processClientData client_id m) (TcpServer.set_buffer socket b s)
  = (TcpServer.set_buffer socket b (exec (TcpServer.processClientData client_id m) s).1,
     (exec (TcpServer.processClientData client_id m) s).2).
Proof.
  rewrite !processClientData_exec. cbn [fst snd].
  destruct (fromJson m) as [e|doc]; [done|]. destruct (isObject doc); [|done].
  by rewrite !checkThresholds_trace.
Qed.

Lemma TcpServer_readLoop_frameLoop (fuel : nat) (socket : Socket) (client_id : Z)
    (s : TcpServer.TcpServer) :
  TcpServer.readLoop fuel socket client_id s
  = frameLoop TcpServer.kMessageDelimiter (TcpServer.buffer socket)
      (TcpServer.set_buffer socket)
      (λ m, exec (TcpServer.processClientData client_id m)) fuel s.
Proof.
  revert s. induction fuel as [|fuel IH]; intros s; [done|].
  cbn [TcpServer.readLoop frameLoop].
  destruct (contains _ _); [|done]. by rewrite IH.
Qed.

(** [onReadyRead] of a registered socket whose buffer stays within the cap
    is the loop on the extended buffer. *)
Lemma TcpServer_onReadyRead_loop (socket : Socket) (info : TcpServer.ClientInfo)
    (c : QByteArray) (s : TcpServer.TcpServer) :
  TcpServer.clients_ s !! socket = Some info → socket ≠ 0%N →
  size (TcpServer.buffer socket s ++ c) ≤ TcpServer.kMaxBufferSize →
  TcpServer.onReadyRead socket c s
  = frameLoop TcpServer.kMessageDelimiter (TcpServer.buffer socket)
      (TcpServer.set_buffer socket)
      (λ m, exec (TcpServer.processClientData (TcpServer.id info) m))
      (S (length (TcpServer.buffer socket s ++ c)))
      (TcpServer.set_buffer socket (TcpServer.buffer socket s ++ c) s).
Proof.
  intros Hinfo Hsock Hsz. unfold TcpServer.onReadyRead. rewrite Hinfo.
  rewrite bool_decide_false by done. unfold TcpServer.appendReceived.
  rewrite buffer_set_buffer.
  destruct (Z.ltb_spec TcpServer.kMaxBufferSize (size (TcpServer.buffer socket s ++ c)));
    [lia|].
  by rewrite TcpServer_readLoop_frameLoop.
Qed.

(** [onReadyRead] of a registered socket whose buffer would pass the cap:
    the bytes are appended, nothing is processed, the overflow is logged and
    the socket aborted. *)
Lemma TcpServer_onReadyRead_overflow (socket : Socket) (info : TcpServer.ClientInfo)
    (c : QByteArray) (s : TcpServer.TcpServer) :
  TcpServer.clients_ s !! socket = Some info → socket ≠ 0%N →
  TcpServer.kMaxBufferSize < size (TcpServer.buffer socket s ++ c) →
  TcpServer.onReadyRead socket c s
  = Some (TcpServer.set_socket_states
            (<[socket := UnconnectedState]> (TcpServer.socket_states_ s))
            (TcpServer.appendReceived socket c s),
          [TcpServer.logMessage ("Client " +:+ arg_int (TcpServer.id info)
                                 +:+ ": buffer overflow, disconnecting");
           TcpServer.socketAbort socket]).
Proof.
  intros Hinfo Hsock Hsz. unfold TcpServer.onReadyRead. rewrite Hinfo.
  rewrite bool_decide_false by done. unfold TcpServer.appendReceived.
  rewrite buffer_set_buffer.
  destruct (Z.ltb_spec TcpServer.kMaxBufferSize (size (TcpServer.buffer socket s ++ c)));
    [|lia].
  unfold TcpServer.abort. act_unfold. done.
Qed.

(** The collector: a stream within the cap, fed in any chunks to a
    registered socket. *)
Lemma TcpServer_feedAll_scan (socket : Socket) (info : TcpServer.ClientInfo)
    (chunks : list QByteArray) (b : QByteArray) (s : TcpServer.TcpServer) :
  TcpServer.clients_ s !! socket = Some info → socket ≠ 0%N →
  TcpServer.receive_buffers_ s !! socket = Some b →
  TcpServer.kMessageDelimiter ∉ b →
  size (b ++ concat chunks) ≤ TcpServer.kMaxBufferSize →
  let stream := b ++ concat chunks in
  let process m := exec (TcpServer.processClientData (TcpServer.id info) m) in
  feedAll (TcpServer.onReadyRead socket) chunks s
  = Some (TcpServer.set_buffer socket (scan TcpServer.kMessageDelimiter stream).2
            (runFrames process (scan TcpServer.kMessageDelimiter stream).1 s).1,
          (runFrames process (scan TcpServer.kMessageDelimiter stream).1 s).2).
Proof.
  intros Hinfo Hsock Hb Hd Hsz stream process.
  destruct (set_buffer_id socket b s Hb) as [Hbuf Hid]. subst stream. rewrite <- Hbuf in *.
  apply (feedAll_scan TcpServer.kMessageDelimiter (TcpServer.buffer socket)
           (TcpServer.set_buffer socket) process)
    with (bound := TcpServer.kMaxBufferSize)
         (P := λ s, TcpServer.clients_ s !! socket = Some info); try done.
  - apply buffer_set_buffer.
  - apply set_buffer_set_buffer.
  - intros m b' s'. apply TcpServer_process_setbuf.
  - intros m s' Hs'. unfold process. by rewrite processClientData_exec.
  - intros c s' Hs' Hc. by apply TcpServer_onReadyRead_loop.
Qed.

End FramingFacts.

Section Roundtrip.
Context {qt : QtRuntime}.

(** C1, as corrected.  Let [m] be a message with a type member whose compact
    text parses back to [m], holds no newline and is not empty.
    [sendMessage] and [sendToClient] write that text and one newline.  Let
    the text, after any number of newlines and before delimiter-free bytes
    [tail], arrive in any chunks in an empty buffer.  The device, when the
    stream fits an [int], dispatches [m] once and keeps [tail]; the
    collector, when the stream is no longer than [kMaxBufferSize], emits
    [dataReceived] with content [m] once, checks its thresholds, and keeps
    [tail]. *)
Theorem C1_framing_roundtrip (m : QJsonObject) (k : nat) (tail : QByteArray)
    (chunks : list QByteArray) :
  parses_to (toJson m) m → x0a ∉ toJson m → toJson m ≠ [] → x0a ∉ tail →
  concat chunks = replicate k x0a ++ (toJson m ++ [x0a]) ++ tail →
  (∀ c, Client.socket_ c = ConnectedState →
     exec (Client.sendMessage m) c = (c, [Client.socketWrite (toJson m ++ [x0a])]))
  ∧ (∀ s socket, socket ≠ 0%N → TcpServer.state socket s = ConnectedState →
     ∃ t, exec (TcpServer.sendToClient socket m) s
          = (s, TcpServer.socketWrite socket (toJson m ++ [x0a]) :: t))
  ∧ (∀ c, Client.receive_buffer_ c = [] → size (concat chunks) ≤ INT_MAX →
     feedAll Client.onReadyRead chunks c
     = Some (Client.set_receive_buffer tail (exec (Client.dispatchServerMessage m) c).1,
             (exec (Client.dispatchServerMessage m) c).2))
  ∧ (∀ s socket info,
     TcpServer.clients_ s !! socket = Some info → socket ≠ 0%N →
     TcpServer.receive_buffers_ s !! socket = Some [] →
     is_Some (m !! "type") →
     size (concat chunks) ≤ TcpServer.kMaxBufferSize →
     feedAll (TcpServer.onReadyRead socket) chunks s
     = Some (TcpServer.set_buffer socket tail s,
             TcpServer.dataReceived
               (TcpServer.mkClientData (TcpServer.id info) (toString (json_at m "type"))
                  m currentDateTime)
             :: (exec (TcpServer.checkThresholds (TcpServer.id info) m) s).2)).
Proof.
  intros Hparse Hm Hne Htail Hstream. unfold parses_to in Hparse.
  split; [|split; [|split]].
  - intros c Hc. unfold Client.sendMessage. act_unfold. cbn. rewrite Hc.
    by rewrite bool_decide_false by (by intros []).
  - intros s socket Hsock Hstate. unfold TcpServer.sendToClient. act_unfold. cbn.
    rewrite Hstate. rewrite bool_decide_false by done.
    rewrite bool_decide_false by (by intros []). cbn.
    destruct (_ =? -1); [by eexists|]. destruct (negb _); by eexists.
  - intros c Hbuf Hsz.
    rewrite Client_feedAll_scan; rewrite Hbuf; cbn [app];
      [|apply not_elem_of_nil|done].
    rewrite Hstream.
    change Client.kMessageDelimiter with x0a.
    rewrite scan_delimiters, scan_one by done. cbn [fst snd].
    rewrite runFrames_empties, runFrames_one by done.
    unfold Client.processServerMessage. by rewrite Hparse.
  - intros s socket info Hinfo Hsock Hbuf Htype Hsz.
    rewrite (TcpServer_feedAll_scan socket info chunks [] s); try done;
      [|apply not_elem_of_nil].
    cbn [app]. rewrite Hstream.
    change TcpServer.kMessageDelimiter with x0a.
    rewrite scan_delimiters, scan_one by done. cbn [fst snd].
    rewrite runFrames_empties, runFrames_one by done.
    rewrite processClientData_exec, Hparse. cbn [isObject object fst snd].
    destruct Htype as [type_v Htype].
    rewrite (json_ref_lookup _ _ _ Htype). cbn [fst snd].
    unfold json_at. by rewrite Htype.
Qed.

End Roundtrip.

(** * The wire runtime *)

Lemma absent_forallb (d : byte) (b : QByteArray) :
  forallb (λ x, negb (Byte.eqb x d)) b = true → d ∉ b.
Proof.
  induction b as [|x b IH]; cbn [forallb]; [intros _; apply not_elem_of_nil|].
  intros [Hx Hb]%andb_true_iff. apply not_elem_of_cons. split; [|by apply IH].
  intros ->. by rewrite byte_eqb_refl in Hx.
Qed.

Lemma strip_prefix_app (pre rest : QByteArray) :
  Wire.strip_prefix pre (pre ++ rest) = Some rest.
Proof.
  induction pre as [|x pre IH]; cbn [Wire.strip_prefix app]; [by destruct rest|].
  by rewrite byte_eqb_refl.
Qed.

Lemma strip_suffix_app (body post : QByteArray) :
  Wire.strip_suffix post (body ++ post) = Some body.
Proof.
  unfold Wire.strip_suffix. rewrite reverse_app, strip_prefix_app. cbn.
  by rewrite reverse_involutive.
Qed.

Lemma log_object_type (message : string) :
  Wire.log_object message !! "type" = Some (JString "Log").
Proof.
  unfold Wire.log_object.
  rewrite lookup_insert_ne by done. rewrite lookup_insert_ne by done.
  by rewrite lookup_insert_eq.
Qed.

Lemma log_object_message (message : string) :
  Wire.log_object message !! "message" = Some (JString message).
Proof. unfold Wire.log_object. by rewrite lookup_insert_eq. Qed.

Lemma wire_toJson_log (message : string) :
  Wire.wire_toJson (Wire.log_object message) = Wire.log_text message.
Proof.
  unfold Wire.wire_toJson, json_at.
  rewrite log_object_type, log_object_message. cbn [default toString].
  rewrite bool_decide_false by done. rewrite bool_decide_false by done.
  by rewrite bool_decide_true by done.
Qed.

Lemma wire_fromJson_log (message : string) :
  Wire.wire_fromJson (Wire.log_text message)
  = inr (DocObject (Wire.log_object message)).
Proof.
  unfold Wire.wire_fromJson.
  assert (∀ rest other, Wire.bytes_eqb (Wire.log_head ++ rest) ([x7b; x22; x63] ++ other)
                        = false) as Hne by done.
  unfold Wire.log_text.
  rewrite (Hne _ (drop 3 (Wire.command_text "start"))).
  rewrite (Hne _ (drop 3 (Wire.command_text "stop"))).
  rewrite (Hne _ (drop 3 (Wire.command_text "pause"))).
  rewrite (Hne _ (drop 3 (Wire.confirm_text 1))).
  rewrite strip_prefix_app. cbn [mbind option_bind].
  rewrite strip_suffix_app.
  by rewrite String.string_of_list_byte_of_string.
Qed.

Lemma size_log_text (message : string) :
  size (Wire.log_text message)
  = 45 + Z.of_nat (length (String.list_byte_of_string message)).
Proof.
  unfold Wire.log_text. rewrite !size_app. unfold size at 2.
  change (size Wire.log_head) with 12. change (size Wire.log_tail) with 33. lia.
Qed.

Lemma log_text_absent (d : byte) (message : string) :
  d ∉ Wire.log_head → d ∉ Wire.log_tail →
  d ∉ String.list_byte_of_string message → d ∉ Wire.log_text message.
Proof.
  intros Hh Ht Hm. unfold Wire.log_text. rewrite !not_elem_of_app. done.
Qed.

Lemma one_client_record :
  TcpServer.clients_ Scenario.one_client !! 5%N
  = Some (TcpServer.mkClientInfo 1 "10.0.0.1" 40000 true false)
  ∧ TcpServer.receive_buffers_ Scenario.one_client !! 5%N = Some [].
Proof. split; vm_compute; reflexivity. Qed.

(** A Log message of [n] letters, [n] at least the cap, in one chunk. *)
Lemma long_log_overflow (n : nat) :
  (TcpServer.kMaxBufferSize ≤ Z.of_nat n)%Z →
  let m := Wire.log_object (String.string_of_list_byte (replicate n "a"%byte)) in
  let text := toJson (QtRuntime := Wire.qt) m in
  parses_to (qt := Wire.qt) text m ∧ (x0a ∉ text) ∧ text ≠ [] ∧ is_Some (m !! "type")
  ∧ feedAll (TcpServer.onReadyRead (qt := Wire.qt) 5) [text ++ [x0a]] Scenario.one_client
    = Some (TcpServer.set_socket_states
              (<[5%N := UnconnectedState]> (TcpServer.socket_states_ Scenario.one_client))
              (TcpServer.appendReceived 5 (text ++ [x0a]) Scenario.one_client),
            [TcpServer.logMessage "Client 1: buffer overflow, disconnecting";
             TcpServer.socketAbort 5]).
Proof.
  intros Hn m text.
  assert (text = Wire.log_text (String.string_of_list_byte (replicate n "a"%byte)))
    as Htext by apply wire_toJson_log.
  assert (size text = 45 + Z.of_nat n) as Hsize.
  { rewrite Htext, size_log_text.
    by rewrite String.list_byte_of_string_of_list_byte, length_replicate. }
  split; [|split; [|split; [|split]]].
  - unfold parses_to. rewrite Htext. apply wire_fromJson_log.
  - rewrite Htext. apply log_text_absent.
    + by apply absent_forallb.
    + by apply absent_forallb.
    + rewrite String.list_byte_of_string_of_list_byte.
      intros [Heq _]%elem_of_replicate. discriminate Heq.
  - intros Hnil. rewrite Hnil in Hsize. unfold size in Hsize. simpl in Hsize. lia.
  - unfold m. rewrite log_object_type. by eexists.
  - destruct one_client_record as [Hinfo Hbuf].
    destruct (set_buffer_id 5 [] Scenario.one_client Hbuf) as [Hb _].
    cbn [feedAll].
    rewrite (TcpServer_onReadyRead_overflow 5 _ _ _ Hinfo); [done|done|].
    rewrite Hb. cbn [app]. rewrite size_app, Hsize. unfold size. simpl length. lia.
Qed.

(** C1, the claim as stated fails at the collector: the text of a
    well-formed Log message with 2^20 letters, sent in one piece to a
    registered connection with an empty buffer, is not delivered; the
    overflow is logged and the socket aborted. *)
Lemma C1_counterexample :
  let m := Scenario.long_log in
  let text := toJson (QtRuntime := Wire.qt) m in
  parses_to (qt := Wire.qt) text m ∧ (x0a ∉ text) ∧ text ≠ [] ∧ is_Some (m !! "type")
  ∧ feedAll (TcpServer.onReadyRead (qt := Wire.qt) 5) [text ++ [x0a]] Scenario.one_client
    = Some (TcpServer.set_socket_states
              (<[5%N := UnconnectedState]> (TcpServer.socket_states_ Scenario.one_client))
              (TcpServer.appendReceived 5 (text ++ [x0a]) Scenario.one_client),
            [TcpServer.logMessage "Client 1: buffer overflow, disconnecting";
             TcpServer.socketAbort 5]).
Proof.
  apply (long_log_overflow (Z.to_nat TcpServer.kMaxBufferSize)).
  rewrite Z2Nat.id; [lia|]. unfold TcpServer.kMaxBufferSize. lia.
Qed.

Lemma C1_framing_roundtrip_witness :
  feedAll (Client.onReadyRead (qt := Wire.qt)) Scenario.start_chunks Client.init
  = Some (Client.set_receive_buffer [x7b]
            (exec (Client.dispatchServerMessage (qt := Wire.qt)
                     (TcpServer.command_object "start")) Client.init).1,
          (exec (Client.dispatchServerMessage (qt := Wire.qt)
                   (TcpServer.command_object "start")) Client.init).2)
  ∧ feedAll (TcpServer.onReadyRead (qt := Wire.qt) 5) Scenario.log_chunks
      Scenario.one_client
    = Some (TcpServer.set_buffer 5 [x7b; x22] Scenario.one_client,
            [TcpServer.dataReceived
               (TcpServer.mkClientData 1 "Log" (Wire.log_object "hi") 0)]).
Proof.
  split.
  - destruct (C1_framing_roundtrip (qt := Wire.qt) (TcpServer.command_object "start")
                1 [x7b] Scenario.start_chunks) as (_ & _ & Hdevice & _).
    + vm_compute. reflexivity.
    + apply absent_forallb. vm_compute. reflexivity.
    + vm_compute. discriminate.
    + apply absent_forallb. vm_compute. reflexivity.
    + vm_compute. reflexivity.
    + apply Hdevice; [reflexivity|]. vm_compute. discriminate.
  - destruct (C1_framing_roundtrip (qt := Wire.qt) (Wire.log_object "hi")
                0 [x7b; x22] Scenario.log_chunks) as (_ & _ & _ & Hcollector).
    + vm_compute. reflexivity.
    + apply absent_forallb. vm_compute. reflexivity.
    + vm_compute. discriminate.
    + apply absent_forallb. vm_compute. reflexivity.
    + vm_compute. reflexivity.
    + rewrite (Hcollector Scenario.one_client 5%N
                 (TcpServer.mkClientInfo 1 "10.0.0.1" 40000 true false)).
      * vm_compute. reflexivity.
      * vm_compute. reflexivity.
      * discriminate.
      * vm_compute. reflexivity.
      * by eexists.
      * vm_compute. discriminate.
Defined.

(** * The overflow guard *)

Section Overflow.
Import TcpServer.
Context {qt : QtRuntime}.

(** A chunk without delimiter that keeps the buffer within the cap is
    appended, and nothing else happens. *)
Lemma onReadyRead_partial (socket : Socket) (info : ClientInfo) (b c : QByteArray)
    (s : TcpServer) :
  clients_ s !! socket = Some info → socket ≠ 0%N →
  kMessageDelimiter ∉ b → kMessageDelimiter ∉ c →
  size (b ++ c) ≤ kMaxBufferSize →
  onReadyRead socket c (set_buffer socket b s) = Some (set_buffer socket (b ++ c) s, []).
Proof.
  intros Hinfo Hsock Hb Hc Hsz.
  rewrite (TcpServer_onReadyRead_loop socket info); rewrite ?buffer_set_buffer; try done.
  rewrite set_buffer_set_buffer.
  rewrite frameLoop_scan.
  - rewrite scan_absent by (by apply not_elem_of_app). done.
  - apply buffer_set_buffer.
  - apply set_buffer_set_buffer.
  - intros m b' s'. apply TcpServer_process_setbuf.
  - unfold kMaxBufferSize, INT_MAX in *. lia.
  - lia.
Qed.

Lemma overflow_split (socket : Socket) (info : ClientInfo) (chunks : list QByteArray)
    (b : QByteArray) (s : TcpServer) :
  clients_ s !! socket = Some info → socket ≠ 0%N →
  kMessageDelimiter ∉ b → Forall (λ c, kMessageDelimiter ∉ c) chunks →
  size b ≤ kMaxBufferSize < size (b ++ concat chunks) →
  ∃ pre c post,
    chunks = pre ++ c :: post
    ∧ size (b ++ concat pre) ≤ kMaxBufferSize < size ((b ++ concat pre) ++ c)
    ∧ feedAll (onReadyRead socket) pre (set_buffer socket b s)
      = Some (set_buffer socket (b ++ concat pre) s, []).
Proof.
  intros Hinfo Hsock. revert b.
  induction chunks as [|c chunks IH]; intros b Hb Hchunks [Hle Hgt].
  { cbn [concat] in Hgt. rewrite app_nil_r in Hgt. lia. }
  apply Forall_cons in Hchunks as [Hc Hchunks].
  destruct (Z.le_gt_cases (size (b ++ c)) kMaxBufferSize) as [Hfit|Hover].
  - destruct (IH (b ++ c)) as (pre & c' & post & -> & Hsz & Hfeed); try done.
    { by apply not_elem_of_app. }
    { cbn [concat] in Hgt. rewrite <- app_assoc. done. }
    exists (c :: pre), c', post. cbn [concat]. rewrite !app_assoc.
    split; [done|]. split; [done|].
    cbn [feedAll]. rewrite (onReadyRead_partial socket info) by done.
    cbn [fst snd]. by rewrite Hfeed.
  - exists [], c, chunks. cbn [concat feedAll]. rewrite app_nil_r. done.
Qed.

(** C2, as corrected.  Chunks without delimiter, longer in all than
    [kMaxBufferSize], arrive for a registered socket with an empty buffer.
    Up to some chunk the bytes are appended, nothing is emitted and the
    buffer is within the cap.  That chunk is appended too, which takes the
    buffer past the cap; then the overflow is logged with the ID of the
    connection and the socket is aborted, without any other event.  The
    fields of the server change for that socket only. *)
Theorem C2_overflow_guard (s : TcpServer) (socket : Socket) (info : ClientInfo)
    (chunks : list QByteArray) :
  clients_ s !! socket = Some info → socket ≠ 0%N →
  receive_buffers_ s !! socket = Some [] →
  Forall (λ c, kMessageDelimiter ∉ c) chunks →
  kMaxBufferSize < size (concat chunks) →
  ∃ pre c post,
    chunks = pre ++ c :: post
    ∧ size (concat pre) ≤ kMaxBufferSize < size (concat pre ++ c)
    ∧ feedAll (onReadyRead socket) pre s = Some (set_buffer socket (concat pre) s, [])
    ∧ onReadyRead socket c (set_buffer socket (concat pre) s)
      = Some (set_socket_states (<[socket := UnconnectedState]> (socket_states_ s))
                (set_buffer socket (concat pre ++ c) s),
              [logMessage ("Client " +:+ arg_int (id info)
                           +:+ ": buffer overflow, disconnecting");
               socketAbort socket]).
Proof.
  intros Hinfo Hsock Hbuf Hchunks Hgt.
  destruct (set_buffer_id socket [] s Hbuf) as [_ Hid].
  destruct (overflow_split socket info chunks [] s) as (pre & c & post & -> & Hsz & Hfeed);
    try done.
  { apply not_elem_of_nil. }
  cbn [app] in *. rewrite Hid in Hfeed.
  exists pre, c, post. split; [done|]. split; [done|]. split; [done|].
  rewrite (TcpServer_onReadyRead_overflow socket info); rewrite ?buffer_set_buffer;
    try done; [|lia].
  unfold appendReceived. by rewrite buffer_set_buffer, set_buffer_set_buffer.
Qed.

End Overflow.

Lemma letters_absent (n : nat) : x0a ∉ replicate n "a"%byte.
Proof. intros [Heq _]%elem_of_replicate. discriminate Heq. Qed.

Lemma size_replicate (n : nat) (x : byte) : size (replicate n x) = Z.of_nat n.
Proof. unfold size. by rewrite length_replicate. Qed.

Lemma size_flood : size Scenario.flood = TcpServer.kMaxBufferSize + 1.
Proof.
  unfold Scenario.flood. rewrite size_replicate, Z2Nat.id; [done|].
  unfold TcpServer.kMaxBufferSize. lia.
Qed.

(** C2, the claim as stated fails: when one byte more than the cap arrives
    for a registered connection with an empty buffer, the bytes are appended
    before the guard tests the size.  The buffer holds more than
    [kMaxBufferSize] bytes when the overflow is found, and still does when
    [onReadyRead] returns. *)
Lemma C2_counterexample :
  (TcpServer.kMessageDelimiter ∉ Scenario.flood)
  ∧ size (TcpServer.buffer 5
            (TcpServer.appendReceived 5 Scenario.flood Scenario.one_client))
    = TcpServer.kMaxBufferSize + 1
  ∧ ∃ s', TcpServer.onReadyRead (qt := Wire.qt) 5 Scenario.flood Scenario.one_client
          = Some (s', [TcpServer.logMessage "Client 1: buffer overflow, disconnecting";
                       TcpServer.socketAbort 5])
          ∧ size (TcpServer.buffer 5 s') = TcpServer.kMaxBufferSize + 1.
Proof.
  destruct one_client_record as [Hinfo Hbuf].
  destruct (set_buffer_id 5 [] Scenario.one_client Hbuf) as [Hb _].
  assert (size (TcpServer.buffer 5
            (TcpServer.appendReceived 5 Scenario.flood Scenario.one_client))
          = TcpServer.kMaxBufferSize + 1) as Hsize.
  { unfold TcpServer.appendReceived. rewrite buffer_set_buffer, Hb. cbn [app].
    apply size_flood. }
  split; [apply letters_absent|]. split; [exact Hsize|].
  eexists. split.
  - rewrite (TcpServer_onReadyRead_overflow 5 _ _ _ Hinfo); [done|done|].
    rewrite Hb. cbn [app]. rewrite size_flood. lia.
  - exact Hsize.
Qed.

Lemma C2_overflow_guard_witness :
  ∃ pre c post,
    [Scenario.flood] = pre ++ c :: post
    ∧ size (concat pre) ≤ TcpServer.kMaxBufferSize < size (concat pre ++ c)
    ∧ feedAll (TcpServer.onReadyRead (qt := Wire.qt) 5) pre Scenario.one_client
      = Some (TcpServer.set_buffer 5 (concat pre) Scenario.one_client, [])
    ∧ TcpServer.onReadyRead (qt := Wire.qt) 5 c
        (TcpServer.set_buffer 5 (concat pre) Scenario.one_client)
      = Some (TcpServer.set_socket_states
                (<[5%N := UnconnectedState]> (TcpServer.socket_states_ Scenario.one_client))
                (TcpServer.set_buffer 5 (concat pre ++ c) Scenario.one_client),
              [TcpServer.logMessage ("Client " +:+ arg_int 1
                                     +:+ ": buffer overflow, disconnecting");
               TcpServer.socketAbort 5]).
Proof.
  destruct one_client_record as [Hinfo Hbuf].
  apply (C2_overflow_guard (qt := Wire.qt) Scenario.one_client 5%N
           (TcpServer.mkClientInfo 1 "10.0.0.1" 40000 true false) [Scenario.flood]).
  - exact Hinfo.
  - discriminate.
  - exact Hbuf.
  - apply Forall_cons. split; [apply letters_absent|apply Forall_nil_2].
  - cbn [concat]. rewrite app_nil_r, size_flood. lia.
Defined.

(** * Runs of the collector *)

Section Keeps.
Context {St Ev : Type} (R : St → St → Prop) (Q : list Ev → Prop) `{!Stable R Q}.

Lemma keeps_ret {A} (a : A) : keeps R Q (mret a : Act St Ev A).
Proof. intros s. split; [apply stable_refl|apply stable_nil]. Qed.

Lemma keeps_bind {A B} (m : Act St Ev A) (k : A → Act St Ev B) :
  keeps R Q m → (∀ a, keeps R Q (k a)) → keeps R Q (m ≫= k).
Proof.
  intros Hm Hk s. unfold mbind, Act_bind, bind.
  specialize (Hm s). destruct (m s) as [[a s1] t1].
  specialize (Hk a s1). destruct (k a s1) as [[b s2] t2].
  cbn in *. destruct Hm, Hk.
  split; [by eapply stable_trans|by apply stable_app].
Qed.

Lemma keeps_get : keeps R Q (get : Act St Ev St).
Proof. intros s. split; [apply stable_refl|apply stable_nil]. Qed.

Lemma keeps_modify (f : St → St) : (∀ s, R s (f s)) → keeps R Q (modify f).
Proof. intros Hf s. split; [apply Hf|apply stable_nil]. Qed.

Lemma keeps_emit (e : Ev) : Q [e] → keeps R Q (emit e : Act St Ev unit).
Proof. intros He s. split; [apply stable_refl|done]. Qed.

Lemma keeps_when (b : bool) (m : Act St Ev unit) :
  keeps R Q m → keeps R Q (when b m).
Proof. intros Hm. destruct b; [done|]. apply (keeps_ret tt). Qed.

Lemma keeps_exec {A} (m : Act St Ev A) (s : St) :
  keeps R Q m → R s (exec m s).1 ∧ Q (exec m s).2.
Proof.
  intros Hm. specialize (Hm s). unfold exec. by destruct (m s) as [[a s1] t1].
Qed.

(** The delivery of frames, and the loop of [onReadyRead]. *)
Lemma keeps_runFrames (process : QByteArray → St → St * list Ev)
    (frames : list QByteArray) (s : St) :
  (∀ m s, R s (process m s).1 ∧ Q (process m s).2) →
  R s (runFrames process frames s).1 ∧ Q (runFrames process frames s).2.
Proof.
  intros Hp. revert s. induction frames as [|f fs IH]; intros s; cbn [runFrames].
  - split; [apply stable_refl|apply stable_nil].
  - destruct (isEmpty f); cbn [fst snd].
    + destruct (IH s). split; [done|]. apply stable_app; [apply stable_nil|done].
    + destruct (Hp f s), (IH (process f s).1).
      split; [by eapply stable_trans|by apply stable_app].
Qed.

End Keeps.

Lemma keeps_forEach {A} (R : TcpServer.TcpServer → TcpServer.TcpServer → Prop)
    (Q : list TcpServer.Event → Prop) `{!Stable R Q}
    (l : list A) (body : A → TcpServer.M unit) :
  (∀ x, keeps R Q (body x)) → keeps R Q (TcpServer.forEach l body).
Proof.
  intros Hbody. induction l as [|x l IH]; cbn [TcpServer.forEach].
  - by apply keeps_ret.
  - apply keeps_bind; [done..|]. intros _. apply IH.
Qed.

(** The loop of [stopServer] keeps what the abort of a socket and the slot
    of its [disconnected()] keep. *)
Lemma keeps_abortClients (R : TcpServer.TcpServer → TcpServer.TcpServer → Prop)
    (Q : list TcpServer.Event → Prop) `{!Stable R Q} (l : list Socket) :
  (∀ socket, keeps R Q (TcpServer.abort socket)) →
  (∀ socket, keeps R Q (TcpServer.onClientDisconnected socket)) →
  (∀ socket, Q [TcpServer.socketDeleteLater socket]) →
  keeps R Q (TcpServer.abortClients l).
Proof.
  intros Ha Hd He. induction l as [|x l IH]; cbn [TcpServer.abortClients].
  - by apply keeps_ret.
  - apply keeps_bind; [done|by apply keeps_get|]. intros s.
    apply keeps_bind; [done|apply Ha|]. intros _.
    apply keeps_bind; [done|apply keeps_when; [done|apply Hd]|]. intros _.
    apply keeps_bind; [done|by apply keeps_emit|]. intros _.
    apply keeps_bind; [done|by apply keeps_get|]. intros s'.
    case_bool_decide; [by apply keeps_ret|apply IH].
Qed.

#[local] Instance counter_stable : Stable Registry.same_counter Registry.no_ids.
Proof.
  split; unfold Registry.same_counter, Registry.no_ids, TcpServer.ids_issued.
  - done.
  - intros s1 s2 s3 H12 H23. congruence.
  - done.
  - intros t1 t2 H1 H2. by rewrite omap_app, H1, H2.
Qed.

(** Goes through the text of a transition; [known] closes the calls that
    have a lemma of their own. *)
Ltac keeps_with known :=
  repeat first
    [ known
    | apply keeps_bind; [tc_solve| |intros ?]
    | apply keeps_ret; tc_solve
    | apply keeps_get; tc_solve
    | apply keeps_when; [tc_solve|]
    | apply keeps_forEach; [tc_solve|intros ?]
    | apply keeps_emit; [tc_solve|done]
    | apply keeps_modify; [tc_solve|intros ?; solve [done|by intros ?]]
    | case_match
    | case_bool_decide ].

Ltac keeps_tac := keeps_with fail.

Section CounterFacts.
Import TcpServer Registry.
Context {qt : QtRuntime}.

(** Every transition but the accept leaves the counter alone and hands out
    no ID. *)
Lemma startServer_counter (port : Z) (ok : bool) (e : string) :
  keeps same_counter no_ids (startServer port ok e).
Proof. unfold startServer. keeps_tac. Qed.

Lemma onClientDisconnected_counter (socket : Socket) :
  keeps same_counter no_ids (onClientDisconnected socket).
Proof. unfold onClientDisconnected. keeps_tac. Qed.

Lemma abortClients_counter (l : list Socket) : keeps same_counter no_ids (abortClients l).
Proof.
  apply keeps_abortClients; [tc_solve| |apply onClientDisconnected_counter|done].
  intros socket. unfold abort. keeps_tac.
Qed.

Lemma stopServer_counter : keeps same_counter no_ids stopServer.
Proof. unfold stopServer. keeps_with ltac:(apply abortClients_counter). Qed.

Lemma startClient_counter (client_id : Z) :
  keeps same_counter no_ids (startClient client_id).
Proof. unfold startClient. keeps_tac. Qed.

Lemma stopClient_counter (client_id : Z) :
  keeps same_counter no_ids (stopClient client_id).
Proof. unfold stopClient. keeps_tac. Qed.

Lemma startAllClients_counter : keeps same_counter no_ids startAllClients.
Proof. unfold startAllClients. keeps_tac. Qed.

Lemma stopAllClients_counter : keeps same_counter no_ids stopAllClients.
Proof. unfold stopAllClients. keeps_tac. Qed.

Lemma setThresholds_counter (config : ThresholdConfig) :
  keeps same_counter no_ids (setThresholds config).
Proof. unfold setThresholds. keeps_tac. Qed.

Lemma onSocketError_counter (socket : Socket) :
  keeps same_counter no_ids (onSocketError socket).
Proof. unfold onSocketError. keeps_tac. Qed.

Lemma processClientData_counter (client_id : Z) (data : QByteArray) :
  keeps same_counter no_ids (processClientData client_id data).
Proof. unfold processClientData. keeps_tac. Qed.

#[local] Instance unchanged_stable : Stable unchanged no_ids.
Proof.
  split; unfold unchanged.
  - done.
  - intros s1 s2 s3 H12 H23. congruence.
  - apply counter_stable.
  - apply counter_stable.
Qed.

Lemma sendToClient_unchanged (socket : Socket) (message : QJsonObject) :
  keeps unchanged no_ids (sendToClient socket message).
Proof. unfold sendToClient. keeps_tac. Qed.

Lemma acceptConnection_exec (p : Pending) (s : TcpServer) :
  ∃ t, exec (acceptConnection p) s = (accepted_state p s, t)
       ∧ ids_issued t = [next_client_id_ s].
Proof.
  unfold acceptConnection, generateClientId, exec. act_unfold. cbn.
  match goal with |- context [sendToClient ?a ?b ?c] =>
    pose proof (sendToClient_unchanged a b c) as [Hs Ht];
    destruct (sendToClient a b c) as [[u s'] t] end.
  cbn in *. unfold unchanged in Hs. subst s'.
  eexists. split; [reflexivity|].
  unfold no_ids in Ht. unfold ids_issued in *. rewrite omap_app, Ht. done.
Qed.

Lemma onReadyRead_counter (socket : Socket) (data : QByteArray) (s : TcpServer) :
  ∃ s' t, onReadyRead socket data s = Some (s', t) ∧ same_counter s s' ∧ no_ids t.
Proof.
  destruct (clients_ s !! socket) as [info|] eqn:Hinfo;
    [|unfold onReadyRead; rewrite Hinfo; by eexists _, _].
  destruct (decide (socket = 0%N)) as [->|Hsock].
  { unfold onReadyRead. rewrite Hinfo. by eexists _, _. }
  destruct (Z.le_gt_cases (size (buffer socket s ++ data)) kMaxBufferSize) as [Hfit|Hover].
  - rewrite (TcpServer_onReadyRead_loop socket info) by done.
    rewrite frameLoop_scan.
    + eexists _, _. split; [done|].
      destruct (keeps_runFrames same_counter no_ids
                  (λ m, exec (processClientData (id info) m))
                  (scan kMessageDelimiter (buffer socket s ++ data)).1 s) as [HR HQ].
      { intros m s0. apply keeps_exec, processClientData_counter. }
      split; [|done]. unfold same_counter in *. cbn. done.
    + apply buffer_set_buffer.
    + apply set_buffer_set_buffer.
    + intros m b s0. apply TcpServer_process_setbuf.
    + unfold kMaxBufferSize, INT_MAX in *. lia.
    + lia.
  - rewrite (TcpServer_onReadyRead_overflow socket info) by (done || lia).
    by eexists _, _.
Qed.

End CounterFacts.

Section ClientIds.
Import TcpServer Registry.
Context {qt : QtRuntime}.

Lemma exec_seq (m k : M unit) (s : TcpServer) :
  exec (m;; k) s = ((exec k (exec m s).1).1, (exec m s).2 ++ (exec k (exec m s).1).2).
Proof.
  unfold exec, mbind, Act_bind, bind.
  destruct (m s) as [[u s1] t1]. cbn. by destruct (k s1) as [[u' s2] t2].
Qed.

Lemma ids_issued_app (t1 t2 : list Event) :
  ids_issued (t1 ++ t2) = ids_issued t1 ++ ids_issued t2.
Proof. apply omap_app. Qed.

Lemma to_int_range (z : Z) : INT_MIN ≤ to_int z ≤ INT_MAX.
Proof.
  unfold to_int, INT_MIN, INT_MAX.
  pose proof (Z.mod_pos_bound (z + 2147483648) 4294967296). lia.
Qed.

Lemma to_int_add_l (x y : Z) : to_int (to_int x + y) = to_int (x + y).
Proof.
  unfold to_int. f_equal.
  replace (((x + 2147483648) mod 4294967296 - 2147483648 + y + 2147483648))
    with ((x + 2147483648) mod 4294967296 + y) by lia.
  rewrite Zplus_mod_idemp_l. f_equal. lia.
Qed.

Lemma counter_ids_app (n a b : Z) :
  0 ≤ a → 0 ≤ b →
  counter_ids n (a + b) = counter_ids n a ++ counter_ids (to_int (n + a)) b.
Proof.
  intros Ha Hb. unfold counter_ids. rewrite seqZ_app, fmap_app by done. f_equal.
  rewrite (Z.add_comm 0 a), <- (fmap_add_seqZ a 0 b), <- list_fmap_compose.
  apply list_fmap_ext. intros i j _. cbn. rewrite to_int_add_l. f_equal. lia.
Qed.

Lemma counter_ids_one (n : Z) : INT_MIN ≤ n ≤ INT_MAX → counter_ids n 1 = [n].
Proof.
  intros Hn. unfold counter_ids. change (seqZ 0 1) with [0].
  cbn [fmap list_fmap]. by rewrite Z.add_0_r, to_int_fits.
Qed.

Lemma counter_ids_fits (n k : Z) :
  INT_MIN ≤ n → n + k ≤ INT_MAX + 1 → counter_ids n k = seqZ n k.
Proof.
  intros Hmin Hmax. unfold counter_ids.
  replace (seqZ n k) with (Z.add n <$> seqZ 0 k)
    by (by rewrite fmap_add_seqZ, Z.add_0_r).
  apply Forall_fmap_ext, Forall_seqZ. intros j Hj. apply to_int_fits.
  unfold INT_MIN, INT_MAX in *. lia.
Qed.

(** The IDs of one call of [onNewConnection]. *)
Lemma onNewConnection_ids (pending : list Pending) (s : TcpServer) :
  INT_MIN ≤ next_client_id_ s ≤ INT_MAX →
  ids_issued (exec (onNewConnection pending) s).2
  = counter_ids (next_client_id_ s) (Z.of_nat (length pending))
  ∧ next_client_id_ (exec (onNewConnection pending) s).1
    = to_int (next_client_id_ s + Z.of_nat (length pending)).
Proof.
  unfold onNewConnection. revert s.
  induction pending as [|p ps IH]; intros s Hrange.
  - cbn. rewrite Z.add_0_r, to_int_fits; done.
  - cbn [forEach]. rewrite exec_seq. cbn [fst snd].
    destruct (acceptConnection_exec p s) as (t & -> & Hids). cbn [fst snd].
    rewrite ids_issued_app, Hids.
    destruct (IH (accepted_state p s)) as [IH1 IH2]; [apply to_int_range|].
    rewrite IH1, IH2. cbn [length next_client_id_ accepted_state]. unfold int_add.
    replace (Z.of_nat (S (length ps))) with (1 + Z.of_nat (length ps)) by lia.
    rewrite counter_ids_app, counter_ids_one by (done || lia).
    split; [done|]. rewrite to_int_add_l. f_equal. lia.
Qed.

(** One operation: it has a result, and the IDs it hands out are those of
    the counter. *)
Lemma step_ids (op : Op) (s : TcpServer) :
  INT_MIN ≤ next_client_id_ s ≤ INT_MAX →
  ∃ s' t, step op s = Some (s', t)
          ∧ ids_issued t = counter_ids (next_client_id_ s) (Z.of_nat (accepts op))
          ∧ next_client_id_ s' = to_int (next_client_id_ s + Z.of_nat (accepts op)).
Proof.
  intros Hrange.
  assert (∀ A (m : M A), keeps same_counter no_ids m →
          accepts op = 0%nat →
          ∃ s' t, Some (exec m s) = Some (s', t)
                  ∧ ids_issued t = counter_ids (next_client_id_ s) (Z.of_nat (accepts op))
                  ∧ next_client_id_ s'
                    = to_int (next_client_id_ s + Z.of_nat (accepts op))) as Hquiet.
  { intros A m Hm Hacc. destruct (keeps_exec same_counter no_ids m s Hm) as [HR HQ].
    exists (exec m s).1, (exec m s).2. rewrite Hacc in *.
    split; [by destruct (exec m s)|]. split; [done|].
    rewrite HR, Z.add_0_r, to_int_fits; done. }
  destruct op as [p ok e| | | |cid|cid|config|pending|socket|socket data|socket|socket st];
    cbn [step].
  - apply Hquiet; [apply startServer_counter|done].
  - apply Hquiet; [apply stopServer_counter|done].
  - apply Hquiet; [apply startAllClients_counter|done].
  - apply Hquiet; [apply stopAllClients_counter|done].
  - apply Hquiet; [apply startClient_counter|done].
  - apply Hquiet; [apply stopClient_counter|done].
  - apply Hquiet; [apply setThresholds_counter|done].
  - destruct (onNewConnection_ids pending s Hrange) as [Hids Hnext].
    exists (exec (onNewConnection pending) s).1, (exec (onNewConnection pending) s).2.
    split; [by destruct (exec (onNewConnection pending) s)|done].
  - apply Hquiet; [apply onClientDisconnected_counter|done].
  - destruct (onReadyRead_counter socket data s) as (s' & t & -> & HR & HQ).
    exists s', t. cbn in *. split; [done|]. split; [done|].
    rewrite HR, Z.add_0_r, to_int_fits; done.
  - apply Hquiet; [apply onSocketError_counter|done].
  - eexists _, _. split; [done|]. cbn in *. split; [done|].
    rewrite Z.add_0_r, to_int_fits; done.
Qed.

Lemma accepted_cons (op : Op) (ops : list Op) :
  Z.of_nat (accepted (op :: ops)) = Z.of_nat (accepts op) + Z.of_nat (accepted ops).
Proof. unfold accepted. cbn. lia. Qed.

(** Every run has a result, and the IDs it hands out are those of the
    counter, which wraps. *)
Lemma run_ids (ops : list Op) (s : TcpServer) :
  INT_MIN ≤ next_client_id_ s ≤ INT_MAX →
  ∃ s' t, run ops s = Some (s', t)
          ∧ ids_issued t = counter_ids (next_client_id_ s) (Z.of_nat (accepted ops))
          ∧ next_client_id_ s' = to_int (next_client_id_ s + Z.of_nat (accepted ops)).
Proof.
  revert s. induction ops as [|op ops IH]; intros s Hrange.
  - exists s, []. cbn. rewrite Z.add_0_r, to_int_fits; done.
  - rewrite accepted_cons.
    destruct (step_ids op s Hrange) as (s1 & t1 & Hstep & Hids1 & Hnext1).
    cbn [run]. rewrite Hstep. cbn [fst snd].
    destruct (IH s1) as (s' & t & -> & Hids & Hnext).
    { rewrite Hnext1. apply to_int_range. }
    exists s', (t1 ++ t). split; [done|].
    rewrite ids_issued_app, Hids1, Hids, Hnext, Hnext1.
    rewrite counter_ids_app by lia. split; [done|].
    rewrite to_int_add_l. f_equal. lia.
Qed.

(** C4, as corrected.  A run of the server, from its construction, that
    accepts at most 2^31 - 1 connections gives the connections it accepts the
    IDs 1, 2, 3, ... in the order of the accepts, whatever happens between
    them: an ID of a connection that has gone is not handed out again. *)
Theorem C4_client_ids (ops : list Op) :
  Z.of_nat (accepted ops) ≤ INT_MAX →
  ∃ s' t, run ops init = Some (s', t)
          ∧ ids_issued t = seqZ 1 (Z.of_nat (accepted ops)).
Proof.
  intros Hmax. destruct (run_ids ops init) as (s' & t & Hrun & Hids & _); [done|].
  exists s', t. split; [done|]. rewrite Hids. apply counter_ids_fits; cbn; [done|lia].
Qed.

End ClientIds.

Lemma accepted_reconnect_ops (k : nat) :
  TcpServer.accepted (Scenario.reconnect_ops k) = k.
Proof.
  unfold TcpServer.accepted, Scenario.reconnect_ops.
  induction k as [|k IH]; [done|].
  cbn [replicate concat app fmap list_fmap sum_list TcpServer.accepts length].
  cbn [fmap] in IH. by rewrite IH.
Qed.

(** C4, the claim as stated fails: when a device has connected and gone 2^31
    times, the last ID handed out is -2^31, after 2^31 - 1. *)
Lemma C4_counterexample :
  ∃ s t, TcpServer.run (qt := Wire.qt) (Scenario.reconnect_ops (Z.to_nat 2147483648))
           TcpServer.init = Some (s, t)
         ∧ TcpServer.ids_issued t = seqZ 1 2147483647 ++ [-2147483648].
Proof.
  destruct (run_ids (qt := Wire.qt) (Scenario.reconnect_ops (Z.to_nat 2147483648))
              TcpServer.init) as (s & t & Hrun & Hids & _); [done|].
  exists s, t. split; [exact Hrun|]. rewrite Hids.
  rewrite accepted_reconnect_ops, Z2Nat.id by lia.
  change (TcpServer.next_client_id_ TcpServer.init) with 1.
  change 2147483648 with (2147483647 + 1).
  rewrite counter_ids_app by lia.
  rewrite (counter_ids_fits 1 2147483647) by (unfold INT_MIN, INT_MAX; lia).
  rewrite counter_ids_one by apply to_int_range.
  assert (to_int (1 + 2147483647) = -2147483648) as -> by reflexivity.
  reflexivity.
Qed.

Lemma C4_client_ids_witness :
  Z.of_nat (TcpServer.accepted Scenario.session_ops) ≤ INT_MAX
  ∧ ∃ s' t, TcpServer.run (qt := Wire.qt) Scenario.session_ops TcpServer.init = Some (s', t)
            ∧ TcpServer.ids_issued t = [1; 2; 3].
Proof.
  assert (Z.of_nat (TcpServer.accepted Scenario.session_ops) ≤ INT_MAX) as Hmax
    by (vm_compute; discriminate).
  split; [exact Hmax|].
  exact (C4_client_ids (qt := Wire.qt) Scenario.session_ops Hmax).
Defined.

(** * The registry invariant *)

Lemma bind_get {A : Type} (k : TcpServer.TcpServer → TcpServer.M A)
    (s : TcpServer.TcpServer) :
  (get ≫= k) s = k s s.
Proof. unfold mbind, Act_bind, bind, get. by destruct (k s s) as [[a s'] t]. Qed.

(** The iterator of a map visits each of its keys, once. *)
Lemma elem_of_sockets {T : Type} (m : gmap Socket T) (socket : Socket) :
  socket ∈ TcpServer.sockets m ↔ is_Some (m !! socket).
Proof.
  unfold TcpServer.sockets. rewrite merge_sort_Permutation, list_elem_of_fmap. split.
  - intros ([k v] & -> & Hin). apply elem_of_map_to_list in Hin. by eexists.
  - intros [v Hv]. exists (socket, v). split; [done|]. by apply elem_of_map_to_list.
Qed.

Lemma NoDup_sockets {T : Type} (m : gmap Socket T) : NoDup (TcpServer.sockets m).
Proof. unfold TcpServer.sockets. rewrite merge_sort_Permutation. apply NoDup_fst_map_to_list. Qed.

Lemma sockets_empty {T : Type} : TcpServer.sockets (∅ : gmap Socket T) = [].
Proof.
  apply Permutation_nil_r. unfold TcpServer.sockets.
  by rewrite merge_sort_Permutation, map_to_list_empty.
Qed.

Section RegistryFacts.
Import TcpServer Registry.
Context {qt : QtRuntime}.

Lemma consistent_lookup (s : TcpServer) :
  consistent s ↔
  (∀ i socket, client_sockets_ s !! i = Some socket →
               ∃ info, clients_ s !! socket = Some info ∧ id info = i)
  ∧ (∀ socket info, clients_ s !! socket = Some info →
                    client_sockets_ s !! id info = Some socket)
  ∧ (∀ socket, is_Some (receive_buffers_ s !! socket) ↔ is_Some (clients_ s !! socket)).
Proof.
  unfold consistent. rewrite !map_Forall_lookup.
  split; intros (H1 & H2 & H3); (split; [|split]); try done.
  - intros i socket Hi. specialize (H1 i socket Hi).
    destruct (clients_ s !! socket) as [info|]; [|done].
    exists info. split; [done|]. cbn in H1. congruence.
  - intros socket. rewrite <- !elem_of_dom. by rewrite H3.
  - intros i socket Hi. destruct (H1 i socket Hi) as (info & -> & <-). done.
  - apply set_eq. intros socket. rewrite !elem_of_dom. apply H3.
Qed.

Lemma registry_inv_init : registry_inv init.
Proof.
  split; [|split]; [|by apply map_Forall_empty|done].
  apply consistent_lookup. cbn. split; [|split].
  - intros i socket Hi. by rewrite lookup_empty in Hi.
  - intros socket info Hs. by rewrite lookup_empty in Hs.
  - intros socket. by rewrite !lookup_empty.
Qed.

(** The invariant depends on the view only. *)
Lemma registry_inv_view (s s' : TcpServer) :
  view s' = view s → registry_inv s → registry_inv s'.
Proof.
  unfold view. intros Hview (Hc & Hb & Hn).
  injection Hview as Hids Hcs Hdom Hnext.
  split; [|split].
  - apply consistent_lookup in Hc as (H1 & H2 & H3). apply consistent_lookup.
    assert (∀ socket, id <$> clients_ s' !! socket = id <$> clients_ s !! socket) as Hid.
    { intros socket. by rewrite <- !lookup_fmap, Hids. }
    split; [|split].
    + intros i socket Hi. rewrite Hcs in Hi. destruct (H1 i socket Hi) as (info & Hs & <-).
      specialize (Hid socket). rewrite Hs in Hid.
      destruct (clients_ s' !! socket) as [info'|]; [|done].
      exists info'. split; [done|]. cbn in Hid. congruence.
    + intros socket info' Hs. rewrite Hcs. specialize (Hid socket). rewrite Hs in Hid.
      destruct (clients_ s !! socket) as [info|] eqn:Hs0; [|done].
      cbn in Hid. injection Hid as ->. by apply H2.
    + intros socket. rewrite <- elem_of_dom, Hdom, elem_of_dom, H3.
      specialize (Hid socket).
      destruct (clients_ s' !! socket), (clients_ s !! socket); try done;
        split; intros [? ?]; done.
  - unfold ids_below_counter in *. by rewrite Hcs, Hnext.
  - by rewrite Hnext.
Qed.

#[local] Instance unchanged_any_stable : Stable unchanged any_trace.
Proof.
  split; unfold unchanged, any_trace; try done. intros s1 s2 s3 H12 H23. congruence.
Qed.

Lemma sendToClient_state (socket : Socket) (message : QJsonObject) :
  keeps unchanged any_trace (sendToClient socket message).
Proof. unfold sendToClient. keeps_tac. Qed.

Lemma processClientData_state (client_id : Z) (data : QByteArray) :
  keeps unchanged any_trace (processClientData client_id data).
Proof. unfold processClientData. keeps_tac. Qed.

(** [startClient] and [stopClient] with a registered ID. *)
Lemma startClient_exec (client_id : Z) (socket : Socket) (s : TcpServer) :
  client_sockets_ s !! client_id = Some socket →
  (exec (startClient client_id) s).1 = running_state socket true s.
Proof.
  intros Hid. unfold startClient, exec. act_unfold. cbn. rewrite Hid. cbn.
  match goal with |- context [sendToClient ?a ?b ?c] =>
    pose proof (sendToClient_state a b c) as [Hs _];
    destruct (sendToClient a b c) as [[u s'] t] end.
  cbn in *. by rewrite Hs.
Qed.

Lemma stopClient_exec (client_id : Z) (socket : Socket) (s : TcpServer) :
  client_sockets_ s !! client_id = Some socket →
  (exec (stopClient client_id) s).1 = running_state socket false s.
Proof.
  intros Hid. unfold stopClient, exec. act_unfold. cbn. rewrite Hid. cbn.
  match goal with |- context [sendToClient ?a ?b ?c] =>
    pose proof (sendToClient_state a b c) as [Hs _];
    destruct (sendToClient a b c) as [[u s'] t] end.
  cbn in *. by rewrite Hs.
Qed.

Lemma running_state_view (socket : Socket) (running : bool) (s : TcpServer) :
  is_Some (clients_ s !! socket) → view (running_state socket running s) = view s.
Proof.
  intros [info Hinfo]. unfold view, running_state. cbn. rewrite Hinfo. cbn.
  rewrite fmap_insert. cbn. rewrite insert_id; [done|].
  by rewrite lookup_fmap, Hinfo.
Qed.

#[local] Instance same_view_stable : Stable same_view any_trace.
Proof.
  split; unfold same_view, any_trace; try done.
  intros s1 s2 s3 H12 H23 Hc. rewrite H23, H12; try done.
  unfold view in H12. specialize (H12 Hc). injection H12 as Hids Hcs Hdom Hnext.
  apply consistent_lookup in Hc as (H1 & H2 & H3). apply consistent_lookup.
  assert (∀ socket, id <$> clients_ s2 !! socket = id <$> clients_ s1 !! socket) as Hid.
  { intros socket. by rewrite <- !lookup_fmap, Hids. }
  split; [|split].
  - intros i socket Hi. rewrite Hcs in Hi. destruct (H1 i socket Hi) as (info & Hs & <-).
    specialize (Hid socket). rewrite Hs in Hid.
    destruct (clients_ s2 !! socket) as [info'|]; [|done].
    exists info'. split; [done|]. cbn in Hid. congruence.
  - intros socket info' Hs. rewrite Hcs. specialize (Hid socket). rewrite Hs in Hid.
    destruct (clients_ s1 !! socket) as [info|] eqn:Hs0; [|done].
    cbn in Hid. injection Hid as ->. by apply H2.
  - intros socket. rewrite <- elem_of_dom, Hdom, elem_of_dom, H3.
    specialize (Hid socket).
    destruct (clients_ s2 !! socket), (clients_ s1 !! socket); try done;
      split; intros [? ?]; done.
Qed.

Lemma startClient_view (client_id : Z) : keeps same_view any_trace (startClient client_id).
Proof.
  intros s. split; [|done]. intros Hc.
  destruct (client_sockets_ s !! client_id) as [socket|] eqn:Hid.
  - pose proof (startClient_exec client_id socket s Hid) as Hs.
    unfold exec in Hs. destruct (startClient client_id s) as [[u s'] t]. cbn in *.
    rewrite Hs. apply running_state_view.
    apply consistent_lookup in Hc as (H1 & _). destruct (H1 _ _ Hid) as (info & -> & _).
    by eexists.
  - unfold startClient. act_unfold. cbn. by rewrite Hid.
Qed.

Lemma stopClient_view (client_id : Z) : keeps same_view any_trace (stopClient client_id).
Proof.
  intros s. split; [|done]. intros Hc.
  destruct (client_sockets_ s !! client_id) as [socket|] eqn:Hid.
  - pose proof (stopClient_exec client_id socket s Hid) as Hs.
    unfold exec in Hs. destruct (stopClient client_id s) as [[u s'] t]. cbn in *.
    rewrite Hs. apply running_state_view.
    apply consistent_lookup in Hc as (H1 & _). destruct (H1 _ _ Hid) as (info & -> & _).
    by eexists.
  - unfold stopClient. act_unfold. cbn. by rewrite Hid.
Qed.

Lemma startServer_view (p : Z) (ok : bool) (e : string) :
  keeps same_view any_trace (startServer p ok e).
Proof. unfold startServer. keeps_tac. Qed.

Lemma startAllClients_view : keeps same_view any_trace startAllClients.
Proof. unfold startAllClients. keeps_with ltac:(apply startClient_view). Qed.

Lemma stopAllClients_view : keeps same_view any_trace stopAllClients.
Proof. unfold stopAllClients. keeps_with ltac:(apply stopClient_view). Qed.

Lemma setThresholds_view (config : ThresholdConfig) :
  keeps same_view any_trace (setThresholds config).
Proof. unfold setThresholds. keeps_tac. Qed.

Lemma onSocketError_view (socket : Socket) :
  keeps same_view any_trace (onSocketError socket).
Proof. unfold onSocketError. keeps_tac. Qed.

(** An accept of a new socket keeps the invariant while the counter has not
    reached [INT_MAX]. *)
Lemma accepted_state_inv (p : Pending) (s : TcpServer) :
  registry_inv s → clients_ s !! pending_socket p = None →
  next_client_id_ s < INT_MAX →
  registry_inv (accepted_state p s).
Proof.
  intros (Hc & Hb & Hn) Hfresh Hmax.
  apply consistent_lookup in Hc as (H1 & H2 & H3).
  unfold ids_below_counter in Hb. rewrite map_Forall_lookup in Hb.
  assert (next_client_id_ (accepted_state p s) = next_client_id_ s + 1) as Hnext.
  { cbn. unfold int_add. apply to_int_fits. unfold INT_MIN, INT_MAX in *. lia. }
  split; [|split].
  - apply consistent_lookup. cbn. split; [|split].
    + intros i socket Hi. destruct (decide (i = next_client_id_ s)) as [->|Hne].
      * rewrite lookup_insert_eq in Hi. injection Hi as <-.
        rewrite lookup_insert_eq. by eexists.
      * rewrite lookup_insert_ne in Hi by done.
        destruct (H1 i socket Hi) as (info & Hs & <-).
        rewrite lookup_insert_ne by congruence. by eexists.
    + intros socket info Hs. destruct (decide (socket = pending_socket p)) as [->|Hne].
      * rewrite lookup_insert_eq in Hs. injection Hs as <-. cbn.
        by rewrite lookup_insert_eq.
      * rewrite lookup_insert_ne in Hs by done.
        pose proof (H2 socket info Hs) as Hi. pose proof (Hb _ _ Hi).
        rewrite lookup_insert_ne by lia. done.
    + intros socket. destruct (decide (socket = pending_socket p)) as [->|Hne].
      * rewrite !lookup_insert_eq. split; by eexists.
      * rewrite !lookup_insert_ne by done. apply H3.
  - unfold ids_below_counter. rewrite map_Forall_lookup, Hnext. cbn.
    intros i socket Hi. destruct (decide (i = next_client_id_ s)) as [->|Hne]; [lia|].
    rewrite lookup_insert_ne in Hi by done. pose proof (Hb _ _ Hi). lia.
  - rewrite Hnext. lia.
Qed.

Lemma onNewConnection_inv (pending : list Pending) (s : TcpServer) :
  registry_inv s → op_ok (OpNewConnection pending) s →
  next_client_id_ s + Z.of_nat (length pending) ≤ INT_MAX →
  registry_inv (exec (onNewConnection pending) s).1.
Proof.
  unfold onNewConnection. revert s.
  induction pending as [|p ps IH]; intros s Hinv [Hdup Hfresh] Hmax; [done|].
  cbn [forEach]. rewrite exec_seq. cbn [fst].
  destruct (acceptConnection_exec p s) as (t & -> & _). cbn [fst].
  cbn [fmap list_fmap] in Hdup. apply NoDup_cons in Hdup as [Hp Hdup].
  apply Forall_cons in Hfresh as [Hp0 Hfresh]. cbn [length] in Hmax.
  apply IH.
  - apply accepted_state_inv; [done..|lia].
  - split; [done|]. apply Forall_forall. intros q Hq. cbn.
    rewrite lookup_insert_ne.
    + by apply (proj1 (Forall_forall _ _) Hfresh).
    + intros Heq. apply Hp. rewrite Heq. by apply list_elem_of_fmap_2.
  - cbn. unfold int_add. destruct Hinv as (_ & _ & Hn).
    rewrite to_int_fits by (unfold INT_MIN, INT_MAX in *; lia). lia.
Qed.

(** [onClientDisconnected] of a registered socket. *)
Lemma onClientDisconnected_exec (socket : Socket) (info : ClientInfo) (s : TcpServer) :
  clients_ s !! socket = Some info → socket ≠ 0%N →
  (exec (onClientDisconnected socket) s).1 = disconnected_state socket info s.
Proof.
  intros Hinfo Hsock. unfold onClientDisconnected, exec. act_unfold. cbn.
  rewrite Hinfo. by rewrite bool_decide_false by done.
Qed.

Lemma disconnected_state_inv (socket : Socket) (info : ClientInfo) (s : TcpServer) :
  registry_inv s → clients_ s !! socket = Some info →
  registry_inv (disconnected_state socket info s).
Proof.
  intros (Hc & Hb & Hn) Hinfo.
  apply consistent_lookup in Hc as (H1 & H2 & H3).
  unfold ids_below_counter in Hb. rewrite map_Forall_lookup in Hb.
  split; [|split]; [|unfold ids_below_counter; rewrite map_Forall_lookup|done]; cbn.
  - apply consistent_lookup. cbn. split; [|split].
    + intros i sk Hi. apply lookup_delete_Some in Hi as [Hne Hi].
      destruct (H1 i sk Hi) as (info' & Hs & <-).
      exists info'. split; [|done]. rewrite lookup_delete_ne; [done|].
      intros <-. congruence.
    + intros sk info' Hs. apply lookup_delete_Some in Hs as [Hne Hs].
      pose proof (H2 _ _ Hs) as Hi. pose proof (H2 _ _ Hinfo) as Hi0.
      rewrite lookup_delete_ne; [done|]. intros Heq. rewrite Heq in Hi0. congruence.
    + intros sk. destruct (decide (sk = socket)) as [->|Hne].
      * rewrite !lookup_delete_eq. split; intros [? ?]; done.
      * rewrite !lookup_delete_ne by done. apply H3.
  - intros i sk Hi. apply lookup_delete_Some in Hi as [Hne Hi]. by apply (Hb i sk).
Qed.

(** The loop of [stopServer] over keys of [clients_].  It returns when none
    of them is live, with every socket aborted.  It ends at the first live
    one: this socket is aborted, [onClientDisconnected] has removed its
    entries, and the iterator has lost its entry. *)
Lemma abortClients_run (l : list Socket) (s : TcpServer) :
  NoDup l → Forall (λ x, is_Some (clients_ s !! x)) l →
  (Forall (λ x, ¬ live x s) l
   ∧ abortClients l s = (Returned, aborted l s, abort_calls l))
  ∨ (∃ l1 x l2 info,
       l = l1 ++ x :: l2 ∧ Forall (λ y, ¬ live y s) l1 ∧ live x s
       ∧ clients_ s !! x = Some info
       ∧ abortClients l s
         = (Undefined, disconnected_state x info (aborted (l1 ++ [x]) s),
            abort_calls l1
            ++ [socketAbort x; clientDisconnected (id info);
                logMessage ("Client " +:+ arg_int (id info) +:+ " disconnected");
                socketDeleteLater x; socketDeleteLater x])).
Proof.
  revert s. induction l as [|x l IH]; intros s Hdup Hreg.
  { left. split; [done|]. unfold aborted. cbn. by destruct s. }
  apply NoDup_cons in Hdup as [Hx Hdup].
  apply Forall_cons in Hreg as [[info Hinfo] Hreg].
  assert (∀ y, y ∈ l → live y (aborted [x] s) ↔ live y s) as Hlive.
  { intros y Hy. unfold live, state, aborted. cbn.
    rewrite lookup_insert_ne; [done|]. by intros ->. }
  assert (abortClients (x :: l) s
          = if bool_decide (x ≠ 0%N ∧ (state x s = ConnectedState ∨ state x s = ClosingState))
            then (Undefined, disconnected_state x info (aborted [x] s),
                  [socketAbort x; clientDisconnected (id info);
                   logMessage ("Client " +:+ arg_int (id info) +:+ " disconnected");
                   socketDeleteLater x; socketDeleteLater x])
            else let r := abortClients l (aborted [x] s) in
                 (r.1.1, r.1.2, [socketAbort x; socketDeleteLater x] ++ r.2)) as Hstep.
  { cbn [abortClients]. rewrite bind_get. unfold abort, onClientDisconnected.
    unfold mbind, Act_bind, bind, modify, emit, when, get, mret, Act_ret, ret. cbn.
    fold (aborted [x] s).
    destruct (decide (state x s = ConnectedState ∨ state x s = ClosingState)) as [Hr|Hr].
    - rewrite (bool_decide_true (state x s = _ ∨ _)) by done. cbn. rewrite Hinfo.
      destruct (decide (x = 0%N)) as [->|Hnull].
      + rewrite bool_decide_true by done. rewrite (bool_decide_false (_ ∧ _)) by tauto.
        cbn. rewrite Hinfo. rewrite bool_decide_false by done.
        by destruct (abortClients l _) as [[e s'] t].
      + rewrite (bool_decide_false (x = 0%N)) by done.
        rewrite (bool_decide_true (_ ∧ _)) by done. cbn.
        rewrite lookup_delete_eq. by rewrite bool_decide_true by done.
    - rewrite (bool_decide_false (state x s = _ ∨ _)) by done.
      rewrite (bool_decide_false (_ ∧ _)) by tauto. cbn. rewrite Hinfo.
      rewrite bool_decide_false by done.
      by destruct (abortClients l _) as [[e s'] t]. }
  rewrite Hstep. clear Hstep.
  assert (Forall (λ x0, is_Some (clients_ (aborted [x] s) !! x0)) l) as Hreg1 by done.
  case_bool_decide as Hcase.
  - right. exists [], x, l, info. split; [done|]. split; [done|].
    split; [|done]. destruct Hcase as [? ?]. split; [done|]. split; [by eexists|done].
  - assert (¬ live x s) as Hnot by (intros (? & _ & ?); by apply Hcase).
    destruct (IH (aborted [x] s) Hdup Hreg1)
      as [[Hall Hrun]|(l1 & y & l2 & info' & -> & Hall & Hy & Hinfo' & Hrun)].
    + left. split.
      * apply Forall_cons. split; [done|].
        apply Forall_forall. intros y Hin. rewrite <- Hlive by done.
        by apply (proj1 (Forall_forall _ _) Hall).
      * rewrite Hrun. done.
    + right. exists (x :: l1), y, l2, info'. split; [done|]. split.
      * apply Forall_cons. split; [done|].
        apply Forall_forall. intros z Hin. rewrite <- Hlive.
        -- by apply (proj1 (Forall_forall _ _) Hall).
        -- apply elem_of_app. by left.
      * split; [apply Hlive; [|done]; apply elem_of_app; right; apply list_elem_of_here|].
        split; [done|]. rewrite Hrun. done.
Qed.

(** [stopServer]: it returns when no registered socket is live, and
    otherwise ends in its loop, at the first live socket. *)
Lemma stopServer_run (s : TcpServer) :
  ((∀ socket, ¬ live socket s)
   ∧ stopServer s
     = (Returned,
        mkTcpServer false ∅ ∅ (next_client_id_ s) ∅ (thresholds_ s)
          (socket_states_ (aborted (sockets (clients_ s)) s)),
        abort_calls (sockets (clients_ s))
        ++ (if listening_ s then [serverClose; logMessage "Server stopped"; serverStopped]
            else [])))
  ∨ (∃ l1 x l2 info,
       sockets (clients_ s) = l1 ++ x :: l2 ∧ Forall (λ y, ¬ live y s) l1 ∧ live x s
       ∧ clients_ s !! x = Some info
       ∧ stopServer s
         = (Undefined, disconnected_state x info (aborted (l1 ++ [x]) s),
            abort_calls l1
            ++ [socketAbort x; clientDisconnected (id info);
                logMessage ("Client " +:+ arg_int (id info) +:+ " disconnected");
                socketDeleteLater x; socketDeleteLater x])).
Proof.
  unfold stopServer. rewrite bind_get.
  destruct (abortClients_run (sockets (clients_ s)) s)
    as [[Hall Hrun]|(l1 & x & l2 & info & Hl & Hall & Hx & Hinfo & Hrun)].
  - apply NoDup_sockets.
  - apply Forall_forall. intros x Hx. by apply elem_of_sockets.
  - left. split.
    + intros socket Hlive. apply (proj1 (Forall_forall _ _) Hall socket); [|done].
      apply elem_of_sockets. by destruct Hlive as (_ & ? & _).
    + unfold mbind, Act_bind, bind. rewrite Hrun.
      unfold modify, emit, when, get, mret, Act_ret, ret. cbn.
      destruct s as [li c cs n b th st]. cbn. destruct li; cbn; by rewrite ?app_nil_r.
  - right. exists l1, x, l2, info. repeat (split; [done|]).
    unfold mbind, Act_bind, bind. rewrite Hrun. cbn. by rewrite app_nil_r.
Qed.

Lemma stopServer_inv (s : TcpServer) :
  registry_inv s → registry_inv (exec stopServer s).1.
Proof.
  intros Hinv. unfold exec.
  destruct (stopServer_run s) as [[_ ->]|(l1 & x & l2 & info & _ & _ & _ & Hinfo & ->)].
  - destruct Hinv as (_ & _ & Hn). split; [|split]; [|by apply map_Forall_empty|done].
    apply consistent_lookup. cbn. split; [|split].
    + intros i socket Hi. by rewrite lookup_empty in Hi.
    + intros socket info Hs. by rewrite lookup_empty in Hs.
    + intros socket. by rewrite !lookup_empty.
  - cbn [fst snd]. apply disconnected_state_inv; [|done].
    by apply (registry_inv_view s).
Qed.

(** [stopServer] returns exactly when no registered socket is live, and the
    three maps are empty when it has returned. *)
Lemma stopServer_ending (s : TcpServer) :
  ((stopServer s).1.1 = Returned ↔ ∀ socket, ¬ live socket s)
  ∧ ((stopServer s).1.1 = Returned →
     clients_ (exec stopServer s).1 = ∅
     ∧ client_sockets_ (exec stopServer s).1 = ∅
     ∧ receive_buffers_ (exec stopServer s).1 = ∅).
Proof.
  unfold exec.
  destruct (stopServer_run s) as [[Hall ->]|(l1 & x & l2 & info & _ & _ & Hx & _ & ->)].
  - done.
  - cbn [fst snd]. split; [|done]. split; [done|]. intros Hall. by apply Hall in Hx.
Qed.

Lemma set_buffer_view (socket : Socket) (b : QByteArray) (s : TcpServer) :
  consistent s → is_Some (clients_ s !! socket) → view (set_buffer socket b s) = view s.
Proof.
  intros Hc Hs. unfold view, set_buffer. cbn. f_equal. f_equal.
  rewrite dom_insert_L. apply consistent_lookup in Hc as (_ & _ & H3).
  assert (socket ∈ dom (receive_buffers_ s)) as Hdom by (by apply elem_of_dom, H3).
  apply set_eq. intros x. rewrite elem_of_union, elem_of_singleton.
  split; [intros [->|Hx]; done|by right].
Qed.

(** [onReadyRead] has a result, and keeps the view of a consistent
    registry. *)
Lemma onReadyRead_view (socket : Socket) (data : QByteArray) (s : TcpServer) :
  ∃ s' t, onReadyRead socket data s = Some (s', t) ∧ same_view s s'.
Proof.
  destruct (clients_ s !! socket) as [info|] eqn:Hinfo;
    [|unfold onReadyRead; rewrite Hinfo; by eexists _, _].
  destruct (decide (socket = 0%N)) as [->|Hsock].
  { unfold onReadyRead. rewrite Hinfo. by eexists _, _. }
  destruct (Z.le_gt_cases (size (buffer socket s ++ data)) kMaxBufferSize) as [Hfit|Hover].
  - rewrite (TcpServer_onReadyRead_loop socket info) by done.
    rewrite frameLoop_scan.
    + eexists _, _. split; [done|].
      destruct (keeps_runFrames unchanged any_trace
                  (λ m, exec (processClientData (id info) m))
                  (scan kMessageDelimiter (buffer socket s ++ data)).1 s) as [HR _].
      { intros m s0. apply keeps_exec, processClientData_state. }
      cbn [fst]. rewrite HR. intros Hc. apply set_buffer_view; [done|by eexists].
    + apply buffer_set_buffer.
    + apply set_buffer_set_buffer.
    + intros m b s0. apply TcpServer_process_setbuf.
    + unfold kMaxBufferSize, INT_MAX in *. lia.
    + lia.
  - rewrite (TcpServer_onReadyRead_overflow socket info) by (done || lia).
    eexists _, _. split; [done|]. intros Hc.
    rewrite <- (set_buffer_view socket (buffer socket s ++ data) s Hc) by (by eexists).
    done.
Qed.


End RegistryFacts.

(** * The counter after 2^32 accepts *)

Section Wrap.
Import TcpServer Registry.
Context {qt : QtRuntime}.

Lemma reaches_nil (s : TcpServer) : reaches [] s s.
Proof. by exists []. Qed.

Lemma reaches_cons (op : Op) (ops : list Op) (s s1 s' : TcpServer) (t : list Event) :
  step op s = Some (s1, t) → reaches ops s1 s' → reaches (op :: ops) s s'.
Proof.
  intros Hstep [t' Hrun]. exists (t ++ t'). cbn [run]. rewrite Hstep. cbn [fst snd].
  by rewrite Hrun.
Qed.

Lemma reaches_app (ops1 ops2 : list Op) (s s1 s' : TcpServer) :
  reaches ops1 s s1 → reaches ops2 s1 s' → reaches (ops1 ++ ops2) s s'.
Proof.
  revert s. induction ops1 as [|op ops1 IH]; intros s [t Hrun] H2.
  - cbn in Hrun. by injection Hrun as <- _.
  - cbn [run] in Hrun. destruct (step op s) as [[s0 t0]|] eqn:Hstep; [|done].
    cbn [fst snd] in Hrun. destruct (run ops1 s0) as [[s2 t2]|] eqn:Hrun1; [|done].
    injection Hrun as <- _. cbn [app].
    apply (reaches_cons op _ s s0 s' t0 Hstep). apply IH; [by exists t2|done].
Qed.

Lemma step_accept_one (p : Pending) (s : TcpServer) :
  ∃ t, step (OpNewConnection [p]) s = Some (accepted_state p s, t).
Proof.
  cbn [step]. unfold onNewConnection. cbn [forEach].
  destruct (acceptConnection_exec p s) as (t & Hexec & _).
  exists (t ++ []). rewrite exec_seq, Hexec. done.
Qed.

(** The device on socket 5 connects and goes: the registry is as before,
    with the counter one further. *)
Lemma reconnect_once (n : Z) (states : gmap Socket SocketState) :
  n ≠ 1 →
  reaches [OpNewConnection [Scenario.p5]; OpClientDisconnected 5]
    (Scenario.lingering n states)
    (Scenario.lingering (int_add n 1) (<[5%N := ConnectedState]> states)).
Proof.
  intros Hn.
  destruct (step_accept_one Scenario.p5 (Scenario.lingering n states)) as [t Haccept].
  apply (reaches_cons _ _ _ _ _ t Haccept).
  set (accepted := accepted_state Scenario.p5 (Scenario.lingering n states)).
  assert (clients_ accepted !! 5%N = Some (mkClientInfo n "10.0.0.1" 40000 true false))
    as Hinfo by apply lookup_insert_eq.
  pose proof (onClientDisconnected_exec 5 _ accepted Hinfo) as Hexec.
  apply (reaches_cons _ _ _ (exec (onClientDisconnected 5) accepted).1 _
           (exec (onClientDisconnected 5) accepted).2).
  { cbn [step]. by destruct (exec (onClientDisconnected 5) accepted). }
  rewrite Hexec by done.
  replace (disconnected_state 5 (mkClientInfo n "10.0.0.1" 40000 true false) accepted)
    with (Scenario.lingering (int_add n 1) (<[5%N := ConnectedState]> states));
    [apply reaches_nil|].
  unfold disconnected_state, accepted, accepted_state, Scenario.lingering. cbn.
  rewrite !delete_insert_eq.
  rewrite (delete_id {[6%N := _]}) by done.
  rewrite (delete_id {[1 := _]}) by (by apply lookup_singleton_ne).
  rewrite (delete_id {[6%N := _]}) by done.
  reflexivity.
Qed.

Lemma to_int_not_one (j : Z) : 0 ≤ j < 4294967295 → to_int (2 + j) ≠ 1.
Proof. unfold to_int. intros Hj. Z.div_mod_to_equations. lia. Qed.

Lemma reconnect_many (k : nat) (j : Z) (states : gmap Socket SocketState) :
  0 ≤ j → j + Z.of_nat k ≤ 4294967295 →
  ∃ states', reaches (Scenario.reconnect_ops k)
               (Scenario.lingering (to_int (2 + j)) states)
               (Scenario.lingering (to_int (2 + j + Z.of_nat k)) states').
Proof.
  revert j states. induction k as [|k IH]; intros j states Hj Hmax.
  - exists states. rewrite Z.add_0_r. apply reaches_nil.
  - destruct (IH (j + 1) (<[5%N := ConnectedState]> states)) as [states' Hrest];
      [lia..|].
    exists states'. unfold Scenario.reconnect_ops. cbn [replicate concat].
    eapply reaches_app.
    + apply reconnect_once. apply to_int_not_one. lia.
    + unfold int_add. rewrite to_int_add_l.
      replace (2 + j + 1) with (2 + (j + 1)) by lia.
      replace (2 + j + Z.of_nat (S k)) with (2 + (j + 1) + Z.of_nat k) by lia.
      exact Hrest.
Qed.

End Wrap.

Lemma lingering_consistent (n : Z) (states : gmap Socket SocketState) :
  TcpServer.consistent (Scenario.lingering n states).
Proof.
  unfold TcpServer.consistent, Scenario.lingering. cbn. split; [|split].
  - apply map_Forall_singleton. by rewrite lookup_singleton_eq.
  - apply map_Forall_singleton. cbn. by rewrite lookup_singleton_eq.
  - by rewrite !dom_singleton_L.
Qed.


Lemma one_client_accepted :
  Scenario.one_client = Registry.accepted_state Scenario.p5 TcpServer.init.
Proof.
  unfold Scenario.one_client, TcpServer.onNewConnection. cbn [TcpServer.forEach].
  destruct (acceptConnection_exec (qt := Wire.qt) Scenario.p5 TcpServer.init)
    as (t & Hexec & _).
  fold Scenario.p5. by rewrite exec_seq, Hexec.
Qed.

Lemma half_open_unconnected (socket : Socket) :
  TcpServer.state socket Scenario.half_open = UnconnectedState.
Proof.
  unfold TcpServer.state, Scenario.half_open. rewrite one_client_accepted. cbn.
  destruct (decide (socket = 5%N)) as [->|Hne].
  - by rewrite lookup_insert_eq.
  - by rewrite !lookup_insert_ne, lookup_empty by done.
Qed.


(** * Further properties

    What follows covers code that the claims do not reach: the rest of the
    device and of the collector, the window of the collector, and the
    command line of the device. *)

#[local] Existing Instance unchanged_stable.
#[local] Existing Instance same_view_stable.

(** * Further properties of the framing *)

(** The frames of a buffer, each with its delimiter, and the rest are the
    buffer: [scan] loses no byte and adds none. *)
Lemma scan_join (d : byte) (b : QByteArray) :
  b = concat ((λ f, f ++ [d]) <$> (scan d b).1) ++ (scan d b).2.
Proof.
  induction b as [|x b IH]; [done|]. cbn [scan].
  destruct (Byte.eqb x d) eqn:E.
  - apply byte_dec_bl in E as ->. cbn. by rewrite <- IH.
  - destruct (scan d b).1 as [|f fs] eqn:Hf; cbn in *; by rewrite IH at 1.
Qed.

Lemma scan_frames_absent (d : byte) (b : QByteArray) :
  Forall (λ f, d ∉ f) (scan d b).1.
Proof.
  induction b as [|x b IH]; [by constructor|]. cbn [scan].
  destruct (Byte.eqb x d) eqn:E.
  - cbn. constructor; [apply not_elem_of_nil|done].
  - destruct (scan d b).1 as [|f fs] eqn:Hf; cbn; [by constructor|].
    apply Forall_cons in IH as [Hf' Hfs]. constructor; [|done].
    apply not_elem_of_cons. split; [|done].
    intros ->. by rewrite byte_eqb_refl in E.
Qed.

Section ReadTerminates.
Context {qt : QtRuntime}.

(** X1.  The device's [onReadyRead] returns for every buffer and every
    chunk that together fit an [int]: it hands some frames to
    [processServerMessage], in their order, skipping the empty ones; these
    frames, each with its delimiter, followed by the buffer it leaves, are
    exactly the old buffer and the chunk; and the buffer it leaves holds no
    delimiter. *)
Theorem X1_device_onReadyRead_returns (data : QByteArray) (c : Client.Client) :
  size (Client.receive_buffer_ c ++ data) ≤ INT_MAX →
  ∃ frames rest,
    Client.onReadyRead data c
    = Some (Client.set_receive_buffer rest
              (runFrames (λ m, exec (Client.processServerMessage m)) frames c).1,
            (runFrames (λ m, exec (Client.processServerMessage m)) frames c).2)
    ∧ Client.receive_buffer_ c ++ data
      = concat ((λ f, f ++ [Client.kMessageDelimiter]) <$> frames) ++ rest
    ∧ Forall (λ f, Client.kMessageDelimiter ∉ f) frames
    ∧ Client.kMessageDelimiter ∉ rest.
Proof.
  intros Hsz.
  exists (scan Client.kMessageDelimiter (Client.receive_buffer_ c ++ data)).1,
         (scan Client.kMessageDelimiter (Client.receive_buffer_ c ++ data)).2.
  split; [|split; [apply scan_join|split; [apply scan_frames_absent|apply scan_rest_absent]]].
  unfold Client.onReadyRead. cbn [Client.receive_buffer_ Client.set_receive_buffer].
  pose proof (frameLoop_scan Client.kMessageDelimiter Client.receive_buffer_
                Client.set_receive_buffer (λ m, exec (Client.processServerMessage m))) as H.
  specialize (H (λ b s, eq_refl) (λ b b' s, eq_refl)
                (λ m b s, Client_process_setbuf m b s)
                (S (length (Client.receive_buffer_ c ++ data)))
                (Client.receive_buffer_ c ++ data) c Hsz ltac:(lia)).
  exact H.
Qed.


End ReadTerminates.

Lemma each_app {Ev : Type} (p : Ev → bool) (t1 t2 : list Ev) :
  each p t1 → each p t2 → each p (t1 ++ t2).
Proof. unfold each. intros H1 H2. by rewrite forallb_app, H1, H2. Qed.

Lemma each_elem_of {Ev : Type} (p : Ev → bool) (t : list Ev) (e : Ev) :
  each p t → e ∈ t → p e = true.
Proof.
  unfold each. rewrite forallb_forall. intros H He. apply H. by apply list_elem_of_In.
Qed.

#[local] Instance unchanged_each_stable (p : TcpServer.Event → bool) :
  Stable Registry.unchanged (each p).
Proof.
  split; unfold Registry.unchanged.
  - done.
  - intros s1 s2 s3 H12 H23. congruence.
  - done.
  - apply each_app.
Qed.

Section CollectorReads.
Import TcpServer Registry.
Context {qt : QtRuntime}.

Lemma processClientData_reports (client_id : Z) (data : QByteArray) :
  keeps unchanged (each is_report) (processClientData client_id data).
Proof. unfold processClientData, checkThresholds, getThresholds. keeps_tac. Qed.

(** X2.  The collector's [onReadyRead] returns for every socket, chunk and
    registry.  A socket that is null or not registered changes nothing.  For
    a registered socket whose buffer and chunk are within the cap, the
    frames that end with a delimiter are handed to [processClientData] in
    their order, the empty ones skipped; these frames, each with its
    delimiter, followed by the buffer it leaves, are exactly the old buffer
    and the chunk, and the buffer it leaves holds no delimiter; no other
    field changes, and what is emitted are log lines and [dataReceived].
    When buffer and chunk exceed the cap, the chunk is appended, the
    overflow is logged and the socket aborted, and nothing else; the slot
    of the [disconnected()] signal of the aborted socket then removes the
    record, the ID and the buffer.  The socket is aborted in no other
    case. *)
Theorem X2_collector_onReadyRead_returns (socket : Socket) (data : QByteArray)
    (s : TcpServer) :
  ∃ s' t,
    onReadyRead socket data s = Some (s', t)
    ∧ (socket = 0%N ∨ (clients_ s !! socket) = None → s' = s ∧ t = [])
    ∧ (∀ info, socket ≠ 0%N → clients_ s !! socket = Some info →
       size (buffer socket s ++ data) ≤ kMaxBufferSize →
       ∃ frames rest,
         s' = set_buffer socket rest s
         ∧ t = (runFrames (λ m, exec (processClientData (id info) m)) frames s).2
         ∧ buffer socket s ++ data
           = concat ((λ f, f ++ [kMessageDelimiter]) <$> frames) ++ rest
         ∧ Forall (λ f, kMessageDelimiter ∉ f) frames
         ∧ (kMessageDelimiter ∉ rest)
         ∧ each is_report t)
    ∧ (∀ info, socket ≠ 0%N → clients_ s !! socket = Some info →
       kMaxBufferSize < size (buffer socket s ++ data) →
       s' = set_socket_states (<[socket := UnconnectedState]> (socket_states_ s))
              (set_buffer socket (buffer socket s ++ data) s)
       ∧ t = [logMessage ("Client " +:+ arg_int (id info)
                          +:+ ": buffer overflow, disconnecting");
              socketAbort socket]
       ∧ exec (onClientDisconnected socket) s'
         = (disconnected_state socket info s',
            [clientDisconnected (id info);
             logMessage ("Client " +:+ arg_int (id info) +:+ " disconnected");
             socketDeleteLater socket]))
    ∧ (socketAbort socket ∈ t
       ↔ socket ≠ 0%N ∧ is_Some (clients_ s !! socket)
         ∧ kMaxBufferSize < size (buffer socket s ++ data)).
Proof.
  destruct (clients_ s !! socket) as [info|] eqn:Hinfo.
  2:{ exists s, []. unfold onReadyRead. rewrite Hinfo.
      split; [done|]. split; [done|]. split; [done|]. split; [done|].
      split; [by intros ?%elem_of_nil|by intros (_ & [? ?] & _)]. }
  destruct (decide (socket = 0%N)) as [->|Hsock].
  { exists s, []. unfold onReadyRead. rewrite Hinfo. cbn.
    split; [done|]. split; [done|]. split; [done|]. split; [done|].
    split; [by intros ?%elem_of_nil|by intros (? & _)]. }
  destruct (Z.le_gt_cases (size (buffer socket s ++ data)) kMaxBufferSize) as [Hfit|Hover].
  - rewrite (TcpServer_onReadyRead_loop socket info) by done.
    rewrite frameLoop_scan;
      [|apply buffer_set_buffer|apply set_buffer_set_buffer
       |intros m b s0; apply TcpServer_process_setbuf
       |unfold kMaxBufferSize, INT_MAX in *; lia|lia].
    destruct (keeps_runFrames unchanged (each is_report)
                (λ m, exec (processClientData (id info) m))
                (scan kMessageDelimiter (buffer socket s ++ data)).1 s) as [HR HQ].
    { intros m s0. apply keeps_exec, processClientData_reports. }
    unfold unchanged in HR. rewrite HR.
    eexists _, _. split; [done|]. split; [by intros [?|?]|]. split; [|split].
    + intros info' _ [= <-] _.
      exists (scan kMessageDelimiter (buffer socket s ++ data)).1,
             (scan kMessageDelimiter (buffer socket s ++ data)).2.
      split; [done|]. split; [done|]. split; [apply scan_join|].
      split; [apply scan_frames_absent|]. split; [apply scan_rest_absent|done].
    + intros info' _ _ ?. lia.
    + split.
      * intros He. by apply (each_elem_of _ _ _ HQ) in He.
      * intros (_ & _ & ?). lia.
  - rewrite (TcpServer_onReadyRead_overflow socket info) by (done || lia).
    eexists _, _. split; [done|]. split; [by intros [?|?]|]. split; [|split].
    + intros info' _ _ ?. lia.
    + intros info' _ [= <-] _. split; [done|]. split; [done|].
      unfold onClientDisconnected, exec.
      unfold mbind, Act_bind, bind, get, modify, emit, mret, Act_ret, ret. cbn.
      rewrite Hinfo. by rewrite bool_decide_eq_false_2 by done.
    + split; [done|]. intros _. apply list_elem_of_further, list_elem_of_here.
Qed.

End CollectorReads.

(** * Further properties of the device *)

Section DeviceEdges.
Import Client.
Context {qt : QtRuntime}.

(** X3.  A frame that is no JSON object never changes the device: a frame
    that does not parse, and a frame that parses to something that is no
    object (an array, say), each leave every field as it is and produce one
    log line, the first with the parse error, the second naming an empty
    message type. *)
Theorem X3_frame_without_object (c : Client) (data : QByteArray) :
  (∀ e, fromJson data = inl e →
        exec (processServerMessage data) c
        = (c, [logMessage ("JSON parse error: " +:+ e)]))
  ∧ (∀ doc, fromJson data = inr doc → isObject doc = false →
            exec (processServerMessage data) c
            = (c, [logMessage "Unknown message type: "])).
Proof.
  split.
  - intros e He. unfold processServerMessage. by rewrite He.
  - intros doc Hdoc Hobj. unfold processServerMessage. rewrite Hdoc.
    destruct doc as [|a|o]; [| |done]; done.
Qed.

(** X4.  A ConnectionConfirm is taken in every state of the device, and its
    ID is read with [toInt]: the device stores the ID of the message, or 0
    when the member is missing, is no number or is no [int]; it logs the ID
    and the status text, moves to WaitingStart, and leaves its timers, its
    buffer and its counters as they are. *)
Theorem X4_confirm_in_any_state (c : Client) (data : QByteArray) (obj : QJsonObject) :
  fromJson data = inr (DocObject obj) →
  obj !! "type" = Some (JString "ConnectionConfirm") →
  let client_id := toInt (json_at obj "client_id") in
  exec (processServerMessage data) c
  = (set_state WaitingStart (set_client_id client_id c),
     logMessage ("Connection confirmed. Client ID: " +:+ arg_int client_id
                 +:+ ", Status: " +:+ toString (json_at obj "status"))
     :: (if bool_decide (state_ c = WaitingStart) then []
         else [stateChanged WaitingStart]))
  ∧ (obj !! "client_id" = None → client_id = 0)
  ∧ (∀ text, obj !! "client_id" = Some (JString text) → client_id = 0)
  ∧ (∀ n, obj !! "client_id" = Some (JInteger n) → fits_int n = false → client_id = 0).
Proof.
  intros Hdoc Htype client_id. split.
  - unfold processServerMessage. rewrite Hdoc. cbn [object].
    unfold dispatchServerMessage. rewrite (json_ref_lookup _ _ _ Htype). cbn [toString].
    rewrite bool_decide_eq_true_2 by done.
    assert (∀ o k, toInt (json_ref o k).1 = toInt (json_at o k)) as HtoInt.
    { intros o k. unfold json_ref, json_at. by destruct (o !! k). }
    assert (∀ k1 k2 : string, k1 ≠ k2 →
            toString (json_ref (json_ref obj k1).2 k2).1 = toString (json_at obj k2)) as Hstr.
    { intros k1 k2 Hne. unfold json_ref, json_at.
      destruct (obj !! k1); cbn; [by destruct (obj !! k2)|].
      rewrite lookup_insert_ne by done. by destruct (obj !! k2). }
    specialize (HtoInt obj "client_id"). specialize (Hstr "client_id" "status").
    destruct (json_ref obj "client_id") as [id_v o2]. cbn [fst snd] in *.
    destruct (json_ref o2 "status") as [st_v o3]. cbn [fst snd] in *.
    unfold setState. destruct c. act_cases; subst; cbn in *;
      rewrite ?HtoInt, ?Hstr by done; try done.
  - subst client_id. unfold json_at. split; [by intros ->|]. split.
    + by intros text ->.
    + intros n -> Hn. cbn. by rewrite Hn.
Qed.

(** X5.  A local [disconnect()] ends in Disconnected with the send timer
    stopped.  When the socket was neither unconnected nor looking the host
    up or connecting, and has nothing left to write, it raises
    [disconnected()] inside [disconnectFromHost()]: [onDisconnected] runs
    before [setState(Disconnected)], and in a state other than Disconnected
    it starts the reconnect timer, which is then pending when [disconnect()]
    returns.  In every other case no reconnect timer is pending, and none
    has been started.  Either way the device is Disconnected when
    [disconnect()] returns: the reconnect timer does nothing when it fires,
    and a [disconnected()] that arrives then only logs, stops the send timer
    and resets the ID. *)
Theorem X5_local_disconnect_is_final (c : Client) (bytesToWrite : Z) :
  let r := exec (disconnect bytesToWrite) c in
  let signalled :=
    socket_ c ≠ UnconnectedState ∧ socket_ c ≠ HostLookupState
    ∧ socket_ c ≠ ConnectingState ∧ bytesToWrite ≤ 0 in
  state_ r.1 = Disconnected
  ∧ send_timer_ r.1 = None
  ∧ (disconnected ∈ r.2 ↔ signalled)
  ∧ (signalled → state_ c ≠ Disconnected →
     reconnect_timer_ r.1 = Some 5000 ∧ timerStart ReconnectTimer 5000 ∈ r.2)
  ∧ (¬ (signalled ∧ state_ c ≠ Disconnected) →
     reconnect_timer_ r.1 = None ∧ ∀ ms, timerStart ReconnectTimer ms ∉ r.2)
  ∧ exec onReconnectTimer r.1 = (r.1, [])
  ∧ exec onDisconnected r.1
    = (set_client_id (-1) r.1,
       [logMessage "Disconnected from server"; timerStop SendTimer; disconnected]).
Proof.
  destruct c as [sk rt st b h p i state u m d].
  unfold disconnect, socket_disconnectFromHost, onDisconnected, onReconnectTimer, setState,
    timer_stop, timer_start.
  destruct (0 <? bytesToWrite) eqn:Hw; [apply Z.ltb_lt in Hw|apply Z.ltb_ge in Hw].
  all: act_cases; cbn in *; subst.
  all: try done.
  all: repeat first [split | intro].
  all: try (done || lia || tauto).
  all: try (repeat (first [apply list_elem_of_here | apply list_elem_of_further])).
  all: try match goal with
           | H : _ ∈ _ |- _ =>
               repeat (apply elem_of_cons in H as [H|H]; [done|]); by apply elem_of_nil in H
           end.
Qed.

(** X6.  A socket error while Connecting is a failed attempt: the device
    stays Connecting, logs the failure and starts the reconnect timer with
    5000 ms, and when the timer fires it calls [connectToHost] with the same
    host and port, with no change of state signalled.  In every other state a
    socket error is logged and nothing else happens. *)
Theorem X6_failed_attempt_is_retried (c : Client) :
  (state_ c = Connecting →
   exec onSocketError c
   = (set_reconnect_timer (Some 5000) c,
      [logMessage ("Connection failed: " +:+ socket_errorString 0%N);
       logMessage "Retrying in 5 seconds...";
       timerStart ReconnectTimer 5000])
   ∧ let r := exec onReconnectTimer (set_reconnect_timer None (exec onSocketError c).1) in
     state_ r.1 = Connecting
     ∧ host_ r.1 = host_ c ∧ port_ r.1 = port_ c
     ∧ socketConnectToHost (host_ c) (port_ c) ∈ r.2
     ∧ ∀ st, stateChanged st ∉ r.2)
  ∧ (state_ c ≠ Connecting →
     exec onSocketError c
     = (c, [logMessage ("Socket error: " +:+ socket_errorString 0%N)])).
Proof.
  split.
  - intros Hst. destruct c. cbn in Hst. subst.
    unfold onSocketError, onReconnectTimer, connectToServer, socket_abort, onDisconnected,
      setState, timer_start, timer_stop.
    act_cases; cbn in *; try done.
    all: split; [done|]. all: repeat split; try done.
    all: try (intros st Hin; repeat (apply elem_of_cons in Hin as [Hin|Hin]; [done|]);
              by apply elem_of_nil in Hin).
    all: repeat (first [apply list_elem_of_here | apply list_elem_of_further]).
  - intros Hst. unfold onSocketError. act_cases; done.
Qed.

End DeviceEdges.

(** * The data the device sends *)

Lemma append_cons (ch : Ascii.ascii) (s1 s2 : string) :
  String ch s1 +:+ s2 = String ch (s1 +:+ s2).
Proof. done. Qed.

Lemma append_assoc (s1 s2 s3 : string) : (s1 +:+ s2) +:+ s3 = s1 +:+ (s2 +:+ s3).
Proof. induction s1 as [|ch s1 IH]; [done|]. by rewrite !append_cons, IH. Qed.

Lemma get_elem_of (s : string) (n : nat) :
  (n < String.length s)%nat →
  ∃ ch, String.get n s = Some ch ∧ ch ∈ String.list_ascii_of_string s.
Proof.
  revert n. induction s as [|x s IH]; intros n Hn; cbn in *; [lia|].
  destruct n as [|n].
  - exists x. split; [done|apply list_elem_of_here].
  - destruct (IH n) as (ch & Hget & Hin); [lia|].
    exists ch. split; [done|by apply list_elem_of_further].
Qed.

#[local] Instance session_stable : Stable same_session (silent (Ev := Client.Event)).
Proof.
  split; unfold same_session, silent.
  - done.
  - intros s1 s2 s3 H12 H23. destruct_and!. repeat split; congruence.
  - done.
  - by intros t1 t2 -> ->.
Qed.

Section DeviceData.
Import Client.
Context {qt : QtRuntime}.
Variable generateDouble : nat → float.

Lemma bounded_run (lowest highest : Z) (c : Client) :
  bounded lowest highest c
  = (random_bounded (draws_ c) lowest highest, set_draws (S (draws_ c)) c, []).
Proof. done. Qed.

Lemma bounded_session (lowest highest : Z) :
  keeps same_session silent (bounded lowest highest).
Proof. unfold bounded. keeps_tac. Qed.

Lemma generateNetworkMetrics_session :
  keeps same_session silent (generateNetworkMetrics generateDouble).
Proof. unfold generateNetworkMetrics, randDouble. keeps_tac. Qed.

Lemma generateDeviceStatus_session : keeps same_session silent generateDeviceStatus.
Proof. unfold generateDeviceStatus, bounded. keeps_tac. Qed.

Lemma appendRandomChars_session (n : nat) (result : string) :
  keeps same_session silent (appendRandomChars n result).
Proof.
  revert result. induction n as [|n IH]; intros result; cbn [appendRandomChars].
  - apply keeps_ret; tc_solve.
  - apply keeps_bind; [tc_solve|apply bounded_session|]. intros idx. apply IH.
Qed.

Lemma generateRandomString_session (min_length max_length : Z) :
  keeps same_session silent (generateRandomString min_length max_length).
Proof.
  unfold generateRandomString.
  keeps_with ltac:(first [apply bounded_session | apply appendRandomChars_session]).
Qed.

Lemma generateLogMessage_session : keeps same_session silent generateLogMessage.
Proof.
  unfold generateLogMessage.
  keeps_with ltac:(first [apply bounded_session | apply generateRandomString_session]).
Qed.

Lemma generateNetworkMetrics_type (c : Client) :
  (generateNetworkMetrics generateDouble c).1.1 !! "type"
  = Some (JString "NetworkMetrics").
Proof. done. Qed.

Lemma generateDeviceStatus_type (c : Client) :
  (generateDeviceStatus c).1.1 !! "type" = Some (JString "DeviceStatus").
Proof. done. Qed.


Lemma generateLogMessage_run (c : Client) :
  generateLogMessage c
  = let msg_idx := random_bounded (draws_ c) 0 10 in
    let sev_idx := random_bounded (S (draws_ c)) 0 4 in
    let r := generateRandomString 0 200 (set_draws (S (S (draws_ c))) c) in
    (<["severity" := JString (item kSeverities sev_idx)]>
       (<["message" := JString (item kLogMessages msg_idx
                                +:+ (if bool_decide (r.1.1 = "") then ""
                                     else " - " +:+ r.1.1))]>
          (<["type" := JString "Log"]> ∅)),
     r.1.2, r.2).
Proof.
  unfold generateLogMessage. unfold mbind, Act_bind, bind. rewrite !bounded_run.
  cbn [draws_ set_draws].
  assert (set_draws (S (S (draws_ c))) (set_draws (S (draws_ c)) c)
          = set_draws (S (S (draws_ c))) c) as -> by by destruct c.
  destruct (generateRandomString 0 200 _) as [[extra c3] t]. cbn.
  by rewrite app_nil_r.
Qed.

Lemma generateLogMessage_type (c : Client) :
  (generateLogMessage c).1.1 !! "type" = Some (JString "Log").
Proof. rewrite generateLogMessage_run. done. Qed.

(** The data of a timer shot, by the remainder of the counter. *)
Lemma generated_type (data_type : Z) (c : Client) :
  0 ≤ data_type < 3 →
  ((if data_type =? 0 then generateNetworkMetrics generateDouble
    else if data_type =? 1 then generateDeviceStatus
    else if data_type =? 2 then generateLogMessage
    else mret ∅) c).1.1 !! "type" = Some (JString (rotation data_type)).
Proof.
  intros Hd.
  assert (data_type = 0 ∨ data_type = 1 ∨ data_type = 2) as Hcases by lia.
  destruct Hcases as [-> | [-> | ->]].
  - apply generateNetworkMetrics_type.
  - apply generateDeviceStatus_type.
  - apply generateLogMessage_type.
Qed.

Lemma generated_session (data_type : Z) :
  keeps same_session silent
    (if data_type =? 0 then generateNetworkMetrics generateDouble
     else if data_type =? 1 then generateDeviceStatus
     else if data_type =? 2 then generateLogMessage
     else mret ∅).
Proof.
  repeat case_match.
  - apply generateNetworkMetrics_session.
  - apply generateDeviceStatus_session.
  - apply generateLogMessage_session.
  - apply keeps_ret; tc_solve.
Qed.

Lemma onSendDataTimer_run (c : Client) :
  state_ c = Running →
  exec (onSendDataTimer generateDouble) c
  = let data_type := message_counter_ c `rem` 3 in
    let r := (if data_type =? 0 then generateNetworkMetrics generateDouble
              else if data_type =? 1 then generateDeviceStatus
              else if data_type =? 2 then generateLogMessage
              else mret ∅)
               (set_message_counter (int_add (message_counter_ c) 1) c) in
    let r' := exec (sendMessage r.1.1;; scheduleNextSend) r.1.2 in
    (r'.1, r.2 ++ r'.2).
Proof.
  intros Hst. unfold onSendDataTimer, exec.
  unfold mbind, Act_bind, bind, get, modify. cbn.
  rewrite bool_decide_eq_false_2 by (by intros []).
  cbn. destruct (if _ =? 0 then _ else _) as [[data c1] t1]. cbn.
  destruct (sendMessage data c1) as [[u c2] t2]. cbn.
  by destruct (scheduleNextSend c2) as [[u' c3] t3].
Qed.

(** X7.  The device sends data only when it is Running and its socket is
    connected: a send timer that fires in another state does nothing at
    all, and a write on the socket happens only in state Running with the
    socket in ConnectedState. *)
Theorem X7_data_only_when_running (c : Client) :
  (state_ c ≠ Running → exec (onSendDataTimer generateDouble) c = (c, []))
  ∧ (∀ data, socketWrite data ∈ (exec (onSendDataTimer generateDouble) c).2 →
             state_ c = Running ∧ socket_ c = ConnectedState).
Proof.
  split.
  - intros Hst. unfold onSendDataTimer, exec.
    unfold mbind, Act_bind, bind, get. cbn.
    by rewrite bool_decide_eq_true_2.
  - intros data Hin. destruct (decide (state_ c = Running)) as [Hst|Hst].
    2:{ unfold onSendDataTimer, exec in Hin.
        unfold mbind, Act_bind, bind, get in Hin. cbn in Hin.
        rewrite bool_decide_eq_true_2 in Hin by done. by apply elem_of_nil in Hin. }
    split; [done|]. rewrite onSendDataTimer_run in Hin by done. cbv zeta in Hin.
    pose proof (generated_session (message_counter_ c `rem` 3)
                  (set_message_counter (int_add (message_counter_ c) 1) c)) as [HR HQ].
    destruct (if _ =? 0 then _ else _) as [[obj c1] t1]. cbn in *.
    unfold silent in HQ. subst t1. destruct HR as (Hsock & _). cbn in Hsock.
    destruct (decide (socket_ c = ConnectedState)) as [|Hne]; [done|]. exfalso.
    unfold sendMessage, scheduleNextSend, timer_start, exec in Hin.
    unfold mbind, Act_bind, bind, get, modify, emit, mret, Act_ret, ret in Hin.
    cbn in Hin. rewrite bool_decide_eq_true_2 in Hin by congruence.
    cbn in Hin. case_bool_decide; cbn in Hin.
    + by apply elem_of_nil in Hin.
    + apply elem_of_cons in Hin as [Hin|Hin]; [done|]. by apply elem_of_nil in Hin.
Qed.

(** X8.  In state Running with a connected socket a timer shot writes one
    frame, the text of one object and the delimiter, advances the message
    counter by one and arms the send timer again, with a delay from 10 to
    100 ms when the generator keeps its contract.  While the counter is not
    negative the type of the object goes round NetworkMetrics, DeviceStatus,
    Log with the counter; once the counter is negative, two shots in three
    send the empty object. *)
Theorem X8_timer_shot (c : Client) :
  bounded_in_range →
  state_ c = Running → socket_ c = ConnectedState →
  ∃ data delay c',
    exec (onSendDataTimer generateDouble) c
    = (c', [socketWrite (toJson data ++ [kMessageDelimiter]);
            timerStart SendTimer delay])
    ∧ 10 ≤ delay ≤ 100
    ∧ send_timer_ c' = Some delay
    ∧ state_ c' = Running
    ∧ message_counter_ c' = int_add (message_counter_ c) 1
    ∧ (0 ≤ message_counter_ c →
       data !! "type" = Some (JString (rotation (message_counter_ c `mod` 3))))
    ∧ (message_counter_ c < 0 → message_counter_ c `rem` 3 ≠ 0 → data = ∅).
Proof.
  intros Hrange Hst Hsock. rewrite onSendDataTimer_run by done. cbv zeta.
  pose proof (generated_session (message_counter_ c `rem` 3)
                (set_message_counter (int_add (message_counter_ c) 1) c)) as [HR HQ].
  pose proof (λ H, generated_type (message_counter_ c `rem` 3)
                (set_message_counter (int_add (message_counter_ c) 1) c) H) as Htype.
  assert (message_counter_ c < 0 → message_counter_ c `rem` 3 ≠ 0 →
          ((if message_counter_ c `rem` 3 =? 0 then generateNetworkMetrics generateDouble
            else if message_counter_ c `rem` 3 =? 1 then generateDeviceStatus
            else if message_counter_ c `rem` 3 =? 2 then generateLogMessage
            else mret ∅)
             (set_message_counter (int_add (message_counter_ c) 1) c)).1.1 = ∅) as Hneg.
  { intros Hlt Hne.
    pose proof (Z.rem_bound_pos_neg (message_counter_ c) 3 ltac:(lia) ltac:(lia)).
    repeat case_match; try lia; done. }
  destruct (if _ =? 0 then _ else _) as [[data c1] t1]. cbn [fst snd] in *.
  unfold silent in HQ. subst t1.
  destruct HR as (Hsock1 & _ & _ & _ & _ & _ & _ & Hst1 & Hcnt1).
  cbn in Hsock1, Hst1, Hcnt1. rewrite Hsock in Hsock1. rewrite Hst in Hst1.
  exists data, (random_bounded (draws_ c1) kMinSendIntervalMs (kMaxSendIntervalMs + 1)), 
    (set_send_timer (Some (random_bounded (draws_ c1) kMinSendIntervalMs
                             (kMaxSendIntervalMs + 1)))
       (set_draws (S (draws_ c1)) c1)).
  split; [|split; [|split; [done|split; [done|split; [done|split; [|done]]]]]].
  - unfold sendMessage, scheduleNextSend, timer_start, exec.
    unfold mbind, Act_bind, bind, get, modify, emit, mret, Act_ret, ret.
    cbn. rewrite bool_decide_eq_false_2 by (by intros []).
    cbn. rewrite bool_decide_eq_false_2 by (by intros []). done.
  - pose proof (Hrange (draws_ c1) kMinSendIntervalMs (kMaxSendIntervalMs + 1)).
    unfold kMinSendIntervalMs, kMaxSendIntervalMs in *. lia.
  - intros Hpos. rewrite <- Z.rem_mod_nonneg by lia. apply Htype.
    pose proof (Z.rem_bound_pos (message_counter_ c) 3). lia.
Qed.


(** X9.  A DeviceStatus carries an uptime that has grown by 1 to 59 since
    the last one, a CPU usage from 0 to 99 and a memory usage from 20 to 94,
    when the generator keeps its contract and the uptime is short of the end
    of [int]; the device stores the new uptime, has made three draws, and
    has changed nothing else. *)
Theorem X9_device_status_ranges (c : Client) :
  bounded_in_range →
  INT_MIN ≤ uptime_ c → uptime_ c + 59 ≤ INT_MAX →
  ∃ step cpu_usage memory_usage,
    generateDeviceStatus c
    = (<["memory_usage" := JInteger memory_usage]>
         (<["cpu_usage" := JInteger cpu_usage]>
            (<["uptime" := JInteger (uptime_ c + step)]>
               (<["type" := JString "DeviceStatus"]> ∅))),
       set_draws (3 + draws_ c) (set_uptime (uptime_ c + step) c),
       [])
    ∧ 1 ≤ step ≤ 59
    ∧ 0 ≤ cpu_usage ≤ 99
    ∧ 20 ≤ memory_usage ≤ 94.
Proof.
  intros Hrange Hlo Hhi.
  exists (random_bounded (draws_ c) 1 60), (random_bounded (S (draws_ c)) 0 100),
    (random_bounded (S (S (draws_ c))) 20 95).
  pose proof (Hrange (draws_ c) 1 60). pose proof (Hrange (S (draws_ c)) 0 100).
  pose proof (Hrange (S (S (draws_ c))) 20 95).
  split; [|lia].
  unfold generateDeviceStatus, bounded.
  unfold mbind, Act_bind, bind, get, modify, mret, Act_ret, ret.
  destruct c. cbn in *. unfold int_add. rewrite to_int_fits by lia. done.
Qed.

Lemma appendRandomChars_run (n : nat) (result : string) (c : Client) :
  bounded_in_range →
  ∃ s, appendRandomChars n result c = (result +:+ s, set_draws (n + draws_ c) c, [])
       ∧ String.length s = n ∧ over chars s.
Proof.
  intros Hrange. revert result c. induction n as [|n IH]; intros result c.
  - exists "". split; [|split; [done|constructor]].
    assert (result +:+ "" = result) as ->.
    { clear. induction result as [|ch r IHr]; [done|]. by rewrite append_cons, IHr. }
    cbn. by destruct c.
  - cbn [appendRandomChars]. unfold mbind, Act_bind, bind. rewrite bounded_run.
    pose proof (Hrange (draws_ c) 0 (Z.of_nat (String.length chars)) ltac:(done)) as Hidx.
    destruct (get_elem_of chars (Z.to_nat (random_bounded (draws_ c) 0
                                             (Z.of_nat (String.length chars)))))
      as (ch & Hget & Hin); [cbn in *; lia|].
    assert (at_ chars (random_bounded (draws_ c) 0 (Z.of_nat (String.length chars))) = ch)
      as ->.
    { unfold at_. rewrite Hget. by rewrite (proj2 (Z.leb_le 0 _)) by lia. }
    destruct (IH (result +:+ String ch "") (set_draws (S (draws_ c)) c))
      as (s & Hrun & Hlen & Hover).
    rewrite Hrun. exists (String ch s). split; [|split].
    + rewrite append_assoc, append_cons. cbn. f_equal.
      destruct c. unfold set_draws. cbn. by rewrite ?Nat.add_succ_r.
    + cbn. by rewrite Hlen.
    + constructor; [done|exact Hover].
Qed.

Lemma generateRandomString_run (min_length max_length : Z) (c : Client) :
  bounded_in_range →
  ∃ s, generateRandomString min_length max_length c
       = (s, set_draws (S (String.length s) + draws_ c) c, [])
       ∧ Z.of_nat (String.length s)
         = Z.max 0 (random_bounded (draws_ c) min_length (int_add max_length 1))
       ∧ over chars s.
Proof.
  intros Hrange. unfold generateRandomString.
  unfold mbind, Act_bind, bind. rewrite bounded_run.
  destruct (Z.eqb_spec (random_bounded (draws_ c) min_length (int_add max_length 1)) 0)
    as [Hz|Hnz].
  - exists "". cbn. split; [done|]. split; [lia|constructor].
  - destruct (appendRandomChars_run
                (Z.to_nat (random_bounded (draws_ c) min_length (int_add max_length 1))) ""
                (set_draws (S (draws_ c)) c) Hrange) as (s & Hrun & Hs & Hover).
    rewrite Hrun. exists s. split; [|split; [lia|done]].
    rewrite app_nil_r, Hs. f_equal. f_equal. destruct c. unfold set_draws. cbn.
    by rewrite ?Nat.add_succ_r.
Qed.

(** X10.  [generateRandomString] returns a string of at least [min_length]
    and at most [max_length] characters, each of them a lower-case letter, a
    digit or a space, when the generator keeps its contract and the bounds
    are in order; it draws once for the length and once for each
    character, and changes nothing else. *)
Theorem X10_random_string (min_length max_length : Z) (c : Client) :
  bounded_in_range →
  0 ≤ min_length ≤ max_length → max_length < INT_MAX →
  ∃ s, generateRandomString min_length max_length c
       = (s, set_draws (S (String.length s) + draws_ c) c, [])
       ∧ min_length ≤ Z.of_nat (String.length s) ≤ max_length
       ∧ over chars s.
Proof.
  intros Hrange Hmin Hmax.
  destruct (generateRandomString_run min_length max_length c Hrange)
    as (s & Hrun & Hlen & Hover).
  exists s. split; [done|]. split; [|done].
  unfold int_add in Hlen. rewrite to_int_fits in Hlen by (unfold INT_MIN, INT_MAX in *; lia).
  pose proof (Hrange (draws_ c) min_length (max_length + 1) ltac:(lia)). lia.
Qed.

Lemma item_elem_of (l : list string) (i : Z) :
  0 ≤ i < Z.of_nat (length l) → item l i ∈ l.
Proof.
  intros Hi. unfold item. rewrite (proj2 (Z.leb_le 0 i)) by lia.
  destruct (l !! Z.to_nat i) as [x|] eqn:Hx.
  - cbn. by eapply list_elem_of_lookup_2.
  - apply lookup_ge_None in Hx. lia.
Qed.

(** X11.  A Log message has the type Log, a severity out of the four of
    [kSeverities] and a text that is one of the ten of [kLogMessages], alone
    or followed by [" - "] and 1 to 200 characters out of letters, digits
    and space, when the generator keeps its contract.  Making it changes no
    field of the device but the count of draws. *)
Theorem X11_log_message_shape (c : Client) :
  bounded_in_range →
  ∃ base severity extra,
    generateLogMessage c
    = (<["severity" := JString severity]>
         (<["message" := JString (base +:+ (if bool_decide (extra = "") then ""
                                            else " - " +:+ extra))]>
            (<["type" := JString "Log"]> ∅)),
       set_draws (3 + String.length extra + draws_ c) c, [])
    ∧ base ∈ kLogMessages
    ∧ severity ∈ kSeverities
    ∧ (String.length extra ≤ 200)%nat
    ∧ over chars extra.
Proof.
  intros Hrange. rewrite generateLogMessage_run. cbv zeta.
  destruct (generateRandomString_run 0 200 (set_draws (S (S (draws_ c))) c) Hrange)
    as (s & Hrun & Hlen & Hover).
  rewrite Hrun. cbn [fst snd].
  exists (item kLogMessages (random_bounded (draws_ c) 0 10)),
    (item kSeverities (random_bounded (S (draws_ c)) 0 4)), s.
  split; [|split; [|split; [|split; [|done]]]].
  - f_equal. f_equal. destruct c. unfold set_draws. cbn. by rewrite ?Nat.add_succ_r.
  - apply item_elem_of. pose proof (Hrange (draws_ c) 0 10). cbn. lia.
  - apply item_elem_of. pose proof (Hrange (S (draws_ c)) 0 4). cbn. lia.
  - change (int_add 200 1) with 201 in Hlen.
    pose proof (Hrange (draws_ (set_draws (S (S (draws_ c))) c)) 0 201). lia.
Qed.

End DeviceData.

(** * Further properties of the collector *)

Section CollectorEdges.
Import TcpServer Registry.
Context {qt : QtRuntime}.

(** X12.  [startServer] returns whether the server listens afterwards.  On a
    server that listens already it changes nothing and logs that; when
    [listen] fails it changes nothing and logs the failure; when [listen]
    succeeds only the listening flag changes.  [serverStarted] is emitted
    exactly when a server that did not listen does now. *)
Theorem X12_startServer_result (port : Z) (listen_ok : bool) (errorString : string)
    (s : TcpServer) :
  let r := startServer port listen_ok errorString s in
  r.1.1 = listening_ r.1.2
  ∧ r.1.2 = set_listening (listening_ s || listen_ok) s
  ∧ (serverStarted ∈ r.2 ↔ listening_ s = false ∧ listen_ok = true)
  ∧ (listening_ s = true → r.2 = [logMessage "Server is already running"])
  ∧ (listening_ s = false → listen_ok = false →
     r.2 = [logMessage ("Failed to start server: " +:+ errorString)])
  ∧ (listening_ s = false → listen_ok = true →
     r.2 = [logMessage ("Server started on port " +:+ arg_int port); serverStarted]).
Proof.
  destruct s as [l c cs n b th st]. unfold startServer.
  unfold mbind, Act_bind, bind, get, modify, emit, mret, Act_ret, ret. cbn.
  destruct l, listen_ok; cbn.
  all: split; [done|]; split; [done|]; split; [|split; [|split]]; try done.
  1, 2, 4: split; [|by intros [? ?]]; intros Hin;
    repeat (apply elem_of_cons in Hin as [Hin|Hin]; [done|]); by apply elem_of_nil in Hin.
  split; [done|]. intros _. apply list_elem_of_further, list_elem_of_here.
Qed.

Lemma foldl_unconnected (l : list Socket) (m : gmap Socket SocketState) (socket : Socket) :
  socket ∈ l →
  foldl (λ m socket, <[socket := UnconnectedState]> m) m l !! socket
  = Some UnconnectedState.
Proof.
  revert m. induction l as [|x l IH]; intros m Hin; [by apply elem_of_nil in Hin|].
  cbn [foldl]. destruct (decide (socket ∈ l)) as [Hl|Hl]; [by apply IH|].
  apply elem_of_cons in Hin as [->|Hin]; [|done].
  clear IH. revert m. induction l as [|y l IH]; intros m; cbn [foldl].
  - by rewrite lookup_insert_eq.
  - apply not_elem_of_cons in Hl as [Hne Hl].
    rewrite insert_insert_ne by done. by apply IH.
Qed.

Lemma abort_calls_other (e : Event) (l : list Socket) :
  (∀ socket, e ≠ socketAbort socket) → (∀ socket, e ≠ socketDeleteLater socket) →
  e ∉ abort_calls l.
Proof.
  intros H1 H2 Hin. apply list_elem_of_bind in Hin as (x & Hin & _).
  apply elem_of_cons in Hin as [->|Hin]; [by eapply H1|].
  apply elem_of_cons in Hin as [->|Hin]; [by eapply H2|]. by apply elem_of_nil in Hin.
Qed.

Lemma abort_calls_abort (socket : Socket) (l : list Socket) :
  socketAbort socket ∈ abort_calls l ↔ socket ∈ l.
Proof.
  unfold abort_calls. rewrite list_elem_of_bind. split.
  - intros (x & Hin & Hx).
    apply elem_of_cons in Hin as [[= ->]|Hin]; [done|].
    apply elem_of_cons in Hin as [?|Hin]; [done|]. by apply elem_of_nil in Hin.
  - intros Hin. exists socket. split; [apply list_elem_of_here|done].
Qed.

(** The first live socket in the order of the keys. *)
Lemma first_live (m : gmap Socket ClientInfo) (l1 l2 : list Socket) (x other : Socket)
    (s : TcpServer) :
  sockets m = l1 ++ x :: l2 → Forall (λ y, ¬ live y s) l1 →
  other ∈ sockets m → live other s → (x ≤ other)%N.
Proof.
  intros Hl Hall Hin Hlive.
  pose proof (StronglySorted_merge_sort N.le (map_to_list m).*1) as Hsorted.
  fold (sockets m) in Hsorted. rewrite Hl in Hsorted, Hin.
  apply elem_of_app in Hin as [Hin|Hin].
  { by apply (proj1 (Forall_forall _ _) Hall) in Hin. }
  apply elem_of_cons in Hin as [->|Hin]; [done|].
  apply (StronglySorted_app_1_elem_of _ (l1 ++ [x]) l2 x other).
  - by rewrite <- app_assoc.
  - apply elem_of_app. right. apply list_elem_of_here.
  - done.
Qed.

(** X13.  [stopServer] returns exactly when no registered socket is live:
    not null, and connected or closing.  When it returns it has aborted
    every registered socket, and no other; it has emptied the three maps,
    left these sockets unconnected and the server not listening, and kept
    the ID counter, so that a server started again goes on with the next ID;
    it has raised [serverStopped] exactly when the server was listening, and
    no [clientDisconnected]; stopping the stopped server does nothing.
    With a live socket it does not return.  At the first live socket, in
    the order of the keys, [abort()] runs [onClientDisconnected], which
    raises [clientDisconnected] with the ID of this socket and removes its
    record, its ID and its buffer; the loop then steps the iterator of the
    removed record.  At that point no other record has changed, the server
    listens as before, and neither the close of the server nor
    [serverStopped] has happened. *)
Theorem X13_stopServer_drops_all (s : TcpServer) :
  let r := stopServer s in
  (r.1.1 = Returned ↔ ∀ socket, ¬ live socket s)
  ∧ (r.1.1 = Returned →
     clients_ r.1.2 = ∅ ∧ client_sockets_ r.1.2 = ∅ ∧ receive_buffers_ r.1.2 = ∅
     ∧ listening_ r.1.2 = false
     ∧ next_client_id_ r.1.2 = next_client_id_ s
     ∧ thresholds_ r.1.2 = thresholds_ s
     ∧ (∀ socket, socketAbort socket ∈ r.2 ↔ is_Some (clients_ s !! socket))
     ∧ (∀ socket, is_Some (clients_ s !! socket) → state socket r.1.2 = UnconnectedState)
     ∧ (serverStopped ∈ r.2 ↔ listening_ s = true)
     ∧ (∀ client_id, clientDisconnected client_id ∉ r.2)
     ∧ stopServer r.1.2 = (Returned, r.1.2, []))
  ∧ (r.1.1 = Undefined →
     ∃ socket info,
       live socket s ∧ clients_ s !! socket = Some info
       ∧ (∀ other, live other s → (socket ≤ other)%N)
       ∧ (∀ client_id, clientDisconnected client_id ∈ r.2 ↔ client_id = id info)
       ∧ clients_ r.1.2 = delete socket (clients_ s)
       ∧ client_sockets_ r.1.2 = delete (id info) (client_sockets_ s)
       ∧ receive_buffers_ r.1.2 = delete socket (receive_buffers_ s)
       ∧ listening_ r.1.2 = listening_ s
       ∧ next_client_id_ r.1.2 = next_client_id_ s
       ∧ (serverClose ∉ r.2) ∧ (serverStopped ∉ r.2)).
Proof.
  cbv zeta.
  destruct (stopServer_run s) as [[Hall Hrun]|(l1 & x & l2 & info & Hl & Hall & Hx & Hinfo & Hrun)].
  - rewrite Hrun. cbn [fst snd]. split; [done|]. split; [|done]. intros _.
    cbn [clients_ client_sockets_ receive_buffers_ listening_ next_client_id_ thresholds_].
    repeat (split; [done|]).
    split; [|split; [|split; [|split]]].
    + intros socket. rewrite <- elem_of_sockets, <- abort_calls_abort, elem_of_app.
      split; [|by left]. intros [Hin|Hin]; [done|].
      destruct (listening_ s);
        repeat (apply elem_of_cons in Hin as [?|Hin]; [done|]); by apply elem_of_nil in Hin.
    + intros socket Hin%elem_of_sockets. unfold state. cbn. by rewrite foldl_unconnected.
    + rewrite elem_of_app. split.
      * intros [Hin|Hin]; [by apply abort_calls_other in Hin|].
        destruct (listening_ s); [done|by apply elem_of_nil in Hin].
      * intros ->. right. do 2 apply list_elem_of_further. apply list_elem_of_here.
    + intros client_id Hin. apply elem_of_app in Hin as [Hin|Hin].
      * by apply abort_calls_other in Hin.
      * destruct (listening_ s);
          repeat (apply elem_of_cons in Hin as [?|Hin]; [done|]); by apply elem_of_nil in Hin.
    + match goal with |- stopServer ?s1 = _ =>
        destruct (stopServer_run s1) as [[_ ->]|(k1 & y & k2 & ? & Hk & _)] end.
      * cbn [clients_ listening_ next_client_id_ thresholds_]. rewrite sockets_empty. done.
      * cbn [clients_] in Hk. rewrite sockets_empty in Hk. by destruct k1.
  - rewrite Hrun. cbn [fst snd]. split.
    { split; [done|]. intros Hnone. by apply Hnone in Hx. }
    split; [done|]. intros _. exists x, info.
    split; [done|]. split; [done|]. split.
    { intros other Hother. apply (first_live (clients_ s) l1 l2 x other s); try done.
      apply elem_of_sockets. by destruct Hother as (_ & ? & _). }
    split.
    { intros client_id. rewrite elem_of_app. split.
      - intros [Hin|Hin]; [by apply abort_calls_other in Hin|].
        apply elem_of_cons in Hin as [?|Hin]; [done|].
        apply elem_of_cons in Hin as [[= ->]|Hin]; [done|].
        repeat (apply elem_of_cons in Hin as [?|Hin]; [done|]). by apply elem_of_nil in Hin.
      - intros ->. right. apply list_elem_of_further, list_elem_of_here. }
    repeat (split; [done|]).
    split; intros Hin; (apply elem_of_app in Hin as [Hin|Hin];
      [by apply abort_calls_other in Hin|
       repeat (apply elem_of_cons in Hin as [?|Hin]; [done|]); by apply elem_of_nil in Hin]).
Qed.


Lemma consistent_view (s s' : TcpServer) :
  view s' = view s → consistent s → consistent s'.
Proof.
  unfold view. intros Hview Hc. injection Hview as Hids Hcs Hdom Hnext.
  apply consistent_lookup in Hc as (H1 & H2 & H3). apply consistent_lookup.
  assert (∀ socket, id <$> clients_ s' !! socket = id <$> clients_ s !! socket) as Hid.
  { intros socket. by rewrite <- !lookup_fmap, Hids. }
  split; [|split].
  - intros i socket Hi. rewrite Hcs in Hi. destruct (H1 i socket Hi) as (info & Hs & <-).
    specialize (Hid socket). rewrite Hs in Hid.
    destruct (clients_ s' !! socket) as [info'|]; [|done].
    exists info'. split; [done|]. cbn in Hid. congruence.
  - intros socket info' Hs. rewrite Hcs. specialize (Hid socket). rewrite Hs in Hid.
    destruct (clients_ s !! socket) as [info|] eqn:Hs0; [|done].
    cbn in Hid. injection Hid as ->. by apply H2.
  - intros socket. rewrite <- elem_of_dom, Hdom, elem_of_dom, H3.
    specialize (Hid socket).
    destruct (clients_ s' !! socket), (clients_ s !! socket); try done;
      split; intros [? ?]; done.
Qed.

(** [sendToClient] writes and logs, and raises no signal about a client. *)
Lemma sendToClient_run (socket : Socket) (message : QJsonObject) (s : TcpServer) :
  ∃ t, sendToClient socket message s = (tt, s, t)
       ∧ ∀ i b, clientStatusChanged i b ∉ t.
Proof.
  unfold sendToClient. unfold mbind, Act_bind, bind, get, emit, mret, Act_ret, ret.
  cbn. destruct (_ || _); cbn.
  2: destruct (_ =? -1); cbn.
  3: destruct (negb _); cbn.
  all: eexists; (split; [done|]); intros i b Hin;
    repeat (apply elem_of_cons in Hin as [?|Hin]; [done|]); by apply elem_of_nil in Hin.
Qed.

Lemma startClient_run (client_id : Z) (socket : Socket) (s : TcpServer) :
  client_sockets_ s !! client_id = Some socket →
  ∃ t, startClient client_id s = (tt, running_state socket true s, t)
       ∧ ∀ i b, clientStatusChanged i b ∈ t ↔ i = client_id ∧ b = true.
Proof.
  intros Hid. unfold startClient.
  unfold mbind at 1, Act_bind, bind, get. cbn. rewrite Hid.
  unfold mbind at 1, Act_bind, bind, modify. cbn.
  unfold mbind at 1, Act_bind, bind.
  destruct (sendToClient_run socket (command_object "start") (running_state socket true s))
    as (t & Hrun & Ht).
  unfold running_state in Hrun. rewrite Hrun.
  unfold mbind, Act_bind, bind, emit. cbn. eexists. split; [done|].
  intros i b. rewrite elem_of_app. split.
  - intros [Hin|Hin]; [by apply Ht in Hin|].
    apply elem_of_cons in Hin as [[= -> ->]|Hin]; [done|].
    apply elem_of_cons in Hin as [?|Hin]; [done|]. by apply elem_of_nil in Hin.
  - intros [-> ->]. right. apply list_elem_of_here.
Qed.

Lemma stopClient_run (client_id : Z) (socket : Socket) (s : TcpServer) :
  client_sockets_ s !! client_id = Some socket →
  ∃ t, stopClient client_id s = (tt, running_state socket false s, t)
       ∧ ∀ i b, clientStatusChanged i b ∈ t ↔ i = client_id ∧ b = false.
Proof.
  intros Hid. unfold stopClient.
  unfold mbind at 1, Act_bind, bind, get. cbn. rewrite Hid.
  unfold mbind at 1, Act_bind, bind, modify. cbn.
  unfold mbind at 1, Act_bind, bind.
  destruct (sendToClient_run socket (command_object "stop") (running_state socket false s))
    as (t & Hrun & Ht).
  unfold running_state in Hrun. rewrite Hrun.
  unfold mbind, Act_bind, bind, emit. cbn. eexists. split; [done|].
  intros i b. rewrite elem_of_app. split.
  - intros [Hin|Hin]; [by apply Ht in Hin|].
    apply elem_of_cons in Hin as [[= -> ->]|Hin]; [done|].
    apply elem_of_cons in Hin as [?|Hin]; [done|]. by apply elem_of_nil in Hin.
  - intros [-> ->]. right. apply list_elem_of_here.
Qed.

End CollectorEdges.

(** The loops of [startAllClients] and [stopAllClients]. *)
Section SetRunningAll.
Import TcpServer Registry.
Context {qt : QtRuntime}.
Variable running : bool.
Variable cond : ClientInfo → bool.
Variable op : Z → M unit.
Hypothesis op_run : ∀ client_id socket s,
  client_sockets_ s !! client_id = Some socket →
  ∃ t, op client_id s = (tt, running_state socket running s, t)
       ∧ ∀ i b, clientStatusChanged i b ∈ t ↔ i = client_id ∧ b = running.

Lemma setRunning_step (socket : Socket) (s : TcpServer) :
  consistent s →
  ∃ t, loop_body cond op socket s
       = (tt, set_clients (alter (loop_record running cond) socket (clients_ s)) s, t)
       ∧ ∀ i b, clientStatusChanged i b ∈ t
                ↔ b = running
                  ∧ ∃ info, clients_ s !! socket = Some info ∧ id info = i
                            ∧ cond info = true.
Proof using op_run.
  intros Hc. unfold loop_body. unfold mbind, Act_bind, bind, get. cbn.
  destruct (clients_ s !! socket) as [info|] eqn:Hinfo.
  - destruct (cond info) eqn:Hcond; cbn.
    + apply consistent_lookup in Hc as (_ & H2 & _).
      destruct (op_run (id info) socket s (H2 _ _ Hinfo)) as (t & -> & Ht).
      exists t. split.
      * f_equal. f_equal. unfold running_state. f_equal.
        rewrite (alter_alt_Some _ _ _ _ Hinfo), Hinfo. unfold loop_record. by rewrite Hcond.
      * intros i b. rewrite Ht. split.
        -- intros [-> ->]. split; [done|]. by exists info.
        -- intros (-> & info' & [= <-] & <- & _). done.
    + exists []. split.
      * f_equal. f_equal. rewrite (alter_alt_Some _ _ _ _ Hinfo). unfold loop_record.
        rewrite Hcond, insert_id by done. by destruct s.
      * intros i b. split; [by intros ?%elem_of_nil|].
        intros (_ & info' & [= <-] & _ & ?). congruence.
  - exists []. split.
    + f_equal. f_equal. rewrite alter_alt, Hinfo. by destruct s.
    + intros i b. split; [by intros ?%elem_of_nil|]. by intros (_ & info' & ? & _).
Qed.

Lemma loop_record_id (info : ClientInfo) : id (loop_record running cond info) = id info.
Proof. unfold loop_record. by destruct (cond info). Qed.

Lemma setRunning_consistent (socket : Socket) (s : TcpServer) :
  consistent s →
  consistent (set_clients (alter (loop_record running cond) socket (clients_ s)) s).
Proof.
  apply consistent_view. unfold view. cbn. f_equal. f_equal. f_equal.
  apply map_eq. intros k. rewrite !lookup_fmap.
  destruct (decide (k = socket)) as [->|Hne].
  - rewrite lookup_alter_eq. destruct (clients_ s !! socket); [|done]. cbn.
    by rewrite loop_record_id.
  - by rewrite lookup_alter_ne.
Qed.

Lemma setRunning_loop (l : list Socket) (s : TcpServer) :
  NoDup l → consistent s →
  ∃ t, forEach l (loop_body cond op) s
       = (tt,
          set_clients
            (foldl (λ m socket, alter (loop_record running cond) socket m) (clients_ s) l) s,
          t)
       ∧ ∀ i b, clientStatusChanged i b ∈ t
                ↔ b = running
                  ∧ ∃ socket info, socket ∈ l ∧ clients_ s !! socket = Some info
                                   ∧ id info = i ∧ cond info = true.
Proof using op_run.
  revert s. induction l as [|x l IH]; intros s Hdup Hc; cbn [forEach foldl].
  - exists []. split; [by destruct s|]. intros i b.
    split; [by intros ?%elem_of_nil|]. by intros (_ & ? & ? & ?%elem_of_nil & _).
  - apply NoDup_cons in Hdup as [Hx Hdup].
    destruct (setRunning_step x s Hc) as (t1 & Hrun1 & Ht1).
    destruct (IH (set_clients (alter (loop_record running cond) x (clients_ s)) s) Hdup
                (setRunning_consistent x s Hc)) as (t2 & Hrun2 & Ht2).
    unfold mbind, Act_bind, bind. rewrite Hrun1, Hrun2. cbn.
    exists (t1 ++ t2). split; [done|]. intros i b.
    rewrite elem_of_app, Ht1, Ht2. cbn. split.
    + intros [(-> & info & Hinfo & Hid & Hcond)|(-> & sk & info & Hin & Hinfo & Hid & Hcond)].
      * split; [done|]. exists x, info. split; [apply list_elem_of_here|done].
      * split; [done|]. exists sk, info. split; [by apply list_elem_of_further|].
        rewrite lookup_alter_ne in Hinfo; [done|]. by intros ->.
    + intros (-> & sk & info & Hin & Hinfo & Hid & Hcond).
      apply elem_of_cons in Hin as [->|Hin].
      * left. split; [done|]. by exists info.
      * right. split; [done|]. exists sk, info. split; [done|].
        rewrite lookup_alter_ne; [done|]. by intros ->.
Qed.

Lemma setRunning_all (m : gmap Socket ClientInfo) :
  foldl (λ m socket, alter (loop_record running cond) socket m) m (sockets m)
  = loop_record running cond <$> m.
Proof.
  assert (∀ (l : list Socket) (m0 : gmap Socket ClientInfo) k, NoDup l →
          foldl (λ m socket, alter (loop_record running cond) socket m) m0 l !! k
          = if decide (k ∈ l) then loop_record running cond <$> m0 !! k else m0 !! k) as Hfold.
  { induction l as [|x l IH]; intros m0 k Hdup; cbn [foldl]; [done|].
    apply NoDup_cons in Hdup as [Hx Hdup]. rewrite IH by done.
    destruct (decide (k = x)) as [->|Hne].
    - rewrite decide_False by done. rewrite decide_True by apply list_elem_of_here.
      by rewrite lookup_alter_eq.
    - rewrite lookup_alter_ne by done.
      destruct (decide (k ∈ l)) as [Hin|Hin].
      + by rewrite decide_True by by apply list_elem_of_further.
      + rewrite decide_False; [done|]. by intros [?|?]%elem_of_cons. }
  apply map_eq. intros k. rewrite Hfold by apply NoDup_sockets.
  rewrite lookup_fmap. destruct (decide _) as [Hin|Hin]; [done|].
  destruct (m !! k) as [v|] eqn:Hk; [|done]. exfalso. apply Hin.
  apply elem_of_sockets. by eexists.
Qed.

End SetRunningAll.

Section AllClients.
Import TcpServer Registry.
Context {qt : QtRuntime}.

(** X14.  On a registry whose lookup structures agree, [startAllClients]
    sets the running flag of every connected client and changes nothing
    else; it raises [clientStatusChanged(id, true)] for the clients that were
    connected and not running, and for no other, and never a
    [clientStatusChanged(id, false)]. *)
Theorem X14_startAllClients (s : TcpServer) :
  consistent s →
  let r := exec startAllClients s in
  r.1 = set_clients (started <$> clients_ s) s
  ∧ ∀ i b, clientStatusChanged i b ∈ r.2
           ↔ b = true
             ∧ ∃ socket info, clients_ s !! socket = Some info ∧ id info = i
                              ∧ startable info = true.
Proof.
  intros Hc. unfold startAllClients, exec. rewrite bind_get.
  destruct (setRunning_loop true (λ info, is_connected info && negb (is_running info))
              startClient startClient_run
              (sockets (clients_ s)) s (NoDup_sockets _) Hc)
    as (t & Hrun & Ht).
  unfold loop_body in Hrun. rewrite Hrun. cbn. split.
  - pose proof (setRunning_all true (λ info, is_connected info && negb (is_running info))
                  (clients_ s)) as Hall.
    rewrite Hall. f_equal. apply map_fmap_ext. intros k info _.
    unfold started, startable. destruct info as [i a p c r]. cbn.
    by destruct c, r.
  - intros i b. rewrite Ht. split.
    + intros (-> & sk & info & _ & ? & ? & ?). split; [done|]. by exists sk, info.
    + intros (-> & sk & info & Hinfo & ? & ?). split; [done|]. exists sk, info.
      split; [|done]. apply elem_of_sockets. by eexists.
Qed.

(** X15.  On a registry whose lookup structures agree, [stopAllClients]
    clears the running flag of every client and changes nothing else; it
    raises [clientStatusChanged(id, false)] for the clients that were
    running, and for no other. *)
Theorem X15_stopAllClients (s : TcpServer) :
  consistent s →
  let r := exec stopAllClients s in
  r.1 = set_clients (set_is_running false <$> clients_ s) s
  ∧ ∀ i b, clientStatusChanged i b ∈ r.2
           ↔ b = false
             ∧ ∃ socket info, clients_ s !! socket = Some info ∧ id info = i
                              ∧ is_running info = true.
Proof.
  intros Hc. unfold stopAllClients, exec. rewrite bind_get.
  destruct (setRunning_loop false is_running stopClient stopClient_run
              (sockets (clients_ s)) s (NoDup_sockets _) Hc)
    as (t & Hrun & Ht).
  unfold loop_body in Hrun. rewrite Hrun. cbn. split.
  - pose proof (setRunning_all false is_running (clients_ s)) as Hall.
    rewrite Hall. f_equal. apply map_fmap_ext. intros k info _.
    destruct info as [i a p c r]. cbn. by destruct r.
  - intros i b. rewrite Ht. split.
    + intros (-> & sk & info & _ & ? & ? & ?). split; [done|]. by exists sk, info.
    + intros (-> & sk & info & Hinfo & ? & ?). split; [done|]. exists sk, info.
      split; [|done]. apply elem_of_sockets. by eexists.
Qed.

End AllClients.

Section CollectorData.
Import TcpServer Registry.
Context {qt : QtRuntime}.

(** X16.  A connection that is accepted and then disconnects leaves the
    registry as it was, but for the counter: on a registry that is
    consistent with its IDs below the counter, and for a socket that is new
    and not null, the accept and the [disconnected()] signal of this socket
    restore the client records, the reverse lookup and the buffers, and the
    counter has advanced by one; the ID announced by [clientConnected] is
    the one announced by [clientDisconnected]. *)
Theorem X16_accept_then_disconnect (p : Pending) (s : TcpServer) :
  registry_inv s →
  clients_ s !! pending_socket p = None → pending_socket p ≠ 0%N →
  let r1 := exec (acceptConnection p) s in
  let r2 := exec (onClientDisconnected (pending_socket p)) r1.1 in
  clients_ r2.1 = clients_ s
  ∧ client_sockets_ r2.1 = client_sockets_ s
  ∧ receive_buffers_ r2.1 = receive_buffers_ s
  ∧ next_client_id_ r2.1 = int_add (next_client_id_ s) 1
  ∧ ids_issued r1.2 = [next_client_id_ s]
  ∧ r2.2 = [clientDisconnected (next_client_id_ s);
            logMessage ("Client " +:+ arg_int (next_client_id_ s) +:+ " disconnected");
            socketDeleteLater (pending_socket p)].
Proof.
  intros (Hc & Hb & _) Hfresh Hsock r1 r2. subst r1 r2.
  destruct (acceptConnection_exec p s) as (t & Hacc & Hids). rewrite Hacc. cbn [fst snd].
  apply consistent_lookup in Hc as (_ & _ & H3).
  unfold ids_below_counter in Hb. rewrite map_Forall_lookup in Hb.
  assert (client_sockets_ s !! next_client_id_ s = None) as Hid.
  { destruct (client_sockets_ s !! next_client_id_ s) as [sk|] eqn:E; [|done].
    apply Hb in E. lia. }
  assert (receive_buffers_ s !! pending_socket p = None) as Hbuf.
  { destruct (receive_buffers_ s !! pending_socket p) as [b|] eqn:E; [|done].
    assert (is_Some (clients_ s !! pending_socket p)) as [? ?] by (apply H3; by eexists).
    congruence. }
  unfold onClientDisconnected, exec.
  unfold mbind, Act_bind, bind, get, modify, emit, mret, Act_ret, ret. cbn.
  rewrite lookup_insert_eq. rewrite bool_decide_eq_false_2 by done. cbn.
  rewrite !delete_insert_id by done. done.
Qed.

(** X17.  What the collector does with a frame that is no message.  A frame
    that does not parse, and a frame that parses to something that is no
    object, are logged with the ID of the client and nothing else happens.
    An object without a type member is passed on in [dataReceived] with an
    empty [data_type] and with a null type member added to its content, and
    draws no warning.  No field of the server changes in any of these
    cases. *)
Theorem X17_frame_without_message (client_id : Z) (data : QByteArray) (s : TcpServer) :
  (∀ e, fromJson data = inl e →
        exec (processClientData client_id data) s
        = (s, [logMessage ("JSON parse error from client " +:+ arg_int client_id
                           +:+ ": " +:+ e)]))
  ∧ (∀ doc, fromJson data = inr doc → isObject doc = false →
            exec (processClientData client_id data) s
            = (s, [logMessage ("Invalid JSON from client " +:+ arg_int client_id
                               +:+ ": not an object")]))
  ∧ (∀ obj, fromJson data = inr (DocObject obj) → obj !! "type" = None →
            exec (processClientData client_id data) s
            = (s, [dataReceived (mkClientData client_id ""
                                   (<["type" := JNull]> obj) currentDateTime)])).
Proof.
  rewrite processClientData_exec. split; [|split].
  - by intros e ->.
  - by intros doc -> ->.
  - intros obj -> Htype. cbn. unfold json_ref. rewrite Htype. cbn.
    rewrite checkThresholds_trace. cbn. unfold thresholdWarnings, json_at.
    rewrite lookup_insert_eq. done.
Qed.

(** X18.  The limits of a DeviceStatus are tested with a strict [>], each on
    its own, on the values that [toInt] reads: a CPU usage and a memory
    usage that are both above their limits draw two warnings, CPU first; one
    above its limit draws its warning alone; a usage that is missing or not
    above its limit draws none.  A usage that is no whole number in the
    range of [int], however large, reads as 0 and draws no warning under a
    limit that is not negative. *)
Theorem X18_device_status_limits (config : ThresholdConfig) (data : QJsonObject) :
  toString (json_at data "type") = "DeviceStatus" →
  let cpu_usage := toInt (json_at data "cpu_usage") in
  let memory_usage := toInt (json_at data "memory_usage") in
  let cpu_warning := "High CPU usage: " +:+ arg_int cpu_usage +:+ "%" in
  let memory_warning := "High memory usage: " +:+ arg_int memory_usage +:+ "%" in
  let high (key : string) (limit : Z) :=
    is_Some (data !! key) ∧ limit < toInt (json_at data key) in
  (high "cpu_usage" (max_cpu_usage config) → high "memory_usage" (max_memory_usage config) →
   thresholdWarnings config data = [cpu_warning; memory_warning])
  ∧ (high "cpu_usage" (max_cpu_usage config) →
     ¬ high "memory_usage" (max_memory_usage config) →
     thresholdWarnings config data = [cpu_warning])
  ∧ (¬ high "cpu_usage" (max_cpu_usage config) →
     high "memory_usage" (max_memory_usage config) →
     thresholdWarnings config data = [memory_warning])
  ∧ (¬ high "cpu_usage" (max_cpu_usage config) →
     ¬ high "memory_usage" (max_memory_usage config) →
     thresholdWarnings config data = [])
  ∧ (∀ key limit v, data !! key = Some v → 0 ≤ limit →
       match v with
       | JInteger n => fits_int n = false
       | JDouble d => SF_whole (Prim2SF d) = None
       | _ => True
       end →
       ¬ high key limit).
Proof.
  intros Htype cpu_usage memory_usage cpu_warning memory_warning high.
  assert (∀ key limit (w : string),
            (if bool_decide (is_Some (data !! key))
             then if limit <? toInt (json_at data key) then [w] else []
             else [])
            = if bool_decide (high key limit) then [w] else []) as Hhigh.
  { intros key limit w. unfold high.
    destruct (decide (is_Some (data !! key))) as [Hs|Hs].
    - rewrite (bool_decide_eq_true_2 _ Hs).
      destruct (Z.ltb_spec limit (toInt (json_at data key))) as [Hlt|Hge].
      + by rewrite bool_decide_eq_true_2.
      + rewrite bool_decide_eq_false_2; [done|]. intros [_ Hlt]. lia.
    - rewrite (bool_decide_eq_false_2 _ Hs).
      rewrite bool_decide_eq_false_2; [done|]. by intros [? _]. }
  assert (thresholdWarnings config data
          = (if bool_decide (high "cpu_usage" (max_cpu_usage config))
             then [cpu_warning] else [])
            ++ (if bool_decide (high "memory_usage" (max_memory_usage config))
                then [memory_warning] else [])) as ->.
  { unfold thresholdWarnings. rewrite Htype. cbn [bool_decide].
    rewrite bool_decide_eq_false_2 by done. rewrite bool_decide_eq_true_2 by done.
    by rewrite !Hhigh. }
  split; [|split; [|split; [|split]]].
  - intros H1 H2. by rewrite !bool_decide_eq_true_2 by done.
  - intros H1 H2. rewrite bool_decide_eq_true_2 by done.
    by rewrite bool_decide_eq_false_2 by done.
  - intros H1 H2. rewrite bool_decide_eq_false_2 by done.
    by rewrite bool_decide_eq_true_2 by done.
  - intros H1 H2. by rewrite !bool_decide_eq_false_2 by done.
  - intros key limit v Hv Hlimit Hno [_ Hlt]. unfold json_at in Hlt. rewrite Hv in Hlt.
    cbn in Hlt. destruct v; cbn in Hlt; try lia.
    + rewrite Hno in Hlt. lia.
    + rewrite Hno in Hlt. lia.
Qed.

End CollectorData.

(** * The window of the collector *)

Section Window.
Import ServerWindow.
Context {qt : QtRuntime} {text : QtText}.

Lemma removeRows_drop (fuel : nat) (rows : list Row) :
  (length rows ≤ fuel)%nat →
  removeRows fuel rows = drop (length rows - 999) rows.
Proof.
  revert rows. induction fuel as [|fuel IH]; intros rows Hfuel.
  - destruct rows; [done|]. cbn in Hfuel. lia.
  - cbn [removeRows]. unfold kMaxDataTableRows.
    destruct (Z.leb_spec 1000 (Z.of_nat (length rows))) as [Hge|Hlt].
    + rewrite IH by (rewrite length_drop; lia).
      rewrite drop_drop, length_drop. f_equal. lia.
    + replace (length rows - 999)%nat with 0%nat by lia. done.
Qed.

Lemma deliverAll_app (t1 t2 : list TcpServer.Event) (w : ServerWindow) :
  deliverAll (t1 ++ t2) w = deliverAll t2 (deliverAll t1 w).
Proof. unfold deliverAll. apply foldl_app. Qed.

(** X19.  The data table never holds more than [kMaxDataTableRows] rows:
    [onDataReceived] first drops the oldest rows until fewer than 1000 are
    left, and then appends the row of the new data at the end; it changes
    nothing else in the window.  So a table of at most 1000 rows stays so
    whatever signals arrive. *)
Theorem X19_data_table_bound (data : TcpServer.ClientData) (w : ServerWindow) :
  let rows := tableData (ui w) in
  onDataReceived data w
  = set_tableData (drop (length rows - 999) rows ++ [dataRow data]) w
  ∧ (length (tableData (ui (onDataReceived data w))) ≤ 1000)%nat
  ∧ ∀ evs, (length rows ≤ 1000)%nat →
           (length (tableData (ui (deliverAll evs w))) ≤ 1000)%nat.
Proof.
  assert (∀ d w0, onDataReceived d w0
                  = set_tableData (drop (length (tableData (ui w0)) - 999)
                                     (tableData (ui w0)) ++ [dataRow d]) w0) as Hrun.
  { intros d w0. unfold onDataReceived, addDataToTable. by rewrite removeRows_drop. }
  assert (∀ d w0, (length (tableData (ui (onDataReceived d w0))) ≤ 1000)%nat) as Hlen.
  { intros d w0. rewrite Hrun. cbn. rewrite length_app, length_drop. cbn. lia. }
  cbv zeta. split; [apply Hrun|]. split; [apply Hlen|].
  intros evs. revert w. induction evs as [|e evs IH]; intros w Hw; [done|].
  cbn [deliverAll foldl]. apply IH.
  destruct e; cbn [deliver]; try done.
  unfold onClientStatusChanged. by destruct (clients_ w !! client_id).
Qed.

Lemma foldl_rows {A : Type} (f : A → Row) (l : list A) (rows : list Row) :
  foldl (λ rows x, rows ++ [f x]) rows l = rows ++ (f <$> l).
Proof.
  revert rows. induction l as [|x l IH]; intros rows; cbn [foldl].
  - by rewrite app_nil_r.
  - rewrite IH. cbn. by rewrite <- app_assoc.
Qed.

Lemma updated_synced (w : ServerWindow) :
  synced (updateButtonStates (updateClientTable w)).
Proof.
  unfold synced, updateButtonStates, updateClientTable. cbn.
  by rewrite foldl_rows.
Qed.

(** X20.  Every slot that handles a signal of the server leaves the widgets
    up to date: if the client table and the four buttons agree with the
    clients and the running flag of the window before the signal, they
    agree with them after it.  The buttons that start and stop the server
    are then never enabled together. *)
Theorem X20_widgets_stay_synced (e : TcpServer.Event) (w : ServerWindow) :
  synced w →
  synced (deliver e w)
  ∧ btnStartServer (ui (deliver e w)) = negb (btnStopServer (ui (deliver e w))).
Proof.
  intros Hw.
  assert (synced (deliver e w)) as Hsync.
  { destruct e; cbn [deliver]; try done.
    - apply updated_synced.
    - apply updated_synced.
    - unfold onClientStatusChanged.
      destruct (clients_ w !! client_id) as [info|] eqn:Hinfo; [|done].
      destruct Hw as (_ & H2 & H3 & H4 & H5).
      unfold synced, updateClientTable. cbn. rewrite foldl_rows.
      split; [done|]. split; [done|]. split; [done|].
      assert (bool_decide (<[client_id := TcpServer.set_is_running is_running info]>
                             (clients_ w) = ∅)
              = bool_decide (clients_ w = ∅)) as ->.
      { rewrite !bool_decide_eq_false_2; [done| |].
        - intros Hempty. by rewrite Hempty in Hinfo.
        - apply insert_non_empty. }
      done.
    - unfold onServerStarted, synced. cbn. by destruct Hw as (-> & _). }
  split; [done|]. destruct Hsync as (_ & -> & -> & _). done.
Qed.

End Window.

(** * The window shows the registry *)

#[local] Instance registry_quiet_stable : Stable same_registry (each is_quiet).
Proof.
  split; unfold same_registry.
  - done.
  - intros s1 s2 s3 H12 H23. destruct_and!. repeat split; congruence.
  - done.
  - apply each_app.
Qed.

#[local] Instance listening_stable : Stable same_listening (Registry.any_trace).
Proof.
  split; unfold same_listening, Registry.any_trace; try done.
  intros s1 s2 s3 H12 H23. congruence.
Qed.

Section Mirror.
Import TcpServer Registry.
Context {qt : QtRuntime} {text : QtText}.

Lemma quiet_deliver (e : Event) (w : ServerWindow.ServerWindow) :
  is_quiet e = true →
  ServerWindow.server_running_ (ServerWindow.deliver e w) = ServerWindow.server_running_ w
  ∧ ServerWindow.clients_ (ServerWindow.deliver e w) = ServerWindow.clients_ w.
Proof. by destruct e. Qed.

Lemma quiet_deliverAll (t : list Event) (w : ServerWindow.ServerWindow) :
  each is_quiet t →
  ServerWindow.server_running_ (ServerWindow.deliverAll t w) = ServerWindow.server_running_ w
  ∧ ServerWindow.clients_ (ServerWindow.deliverAll t w) = ServerWindow.clients_ w.
Proof.
  unfold each. revert w. induction t as [|e t IH]; intros w Ht; [done|].
  cbn in Ht. apply andb_true_iff in Ht as [He Ht].
  change (ServerWindow.deliverAll (e :: t) w)
    with (ServerWindow.deliverAll t (ServerWindow.deliver e w)).
  destruct (IH (ServerWindow.deliver e w) Ht) as [-> ->]. by apply quiet_deliver.
Qed.

Lemma shows_quiet (t : list Event) (w : ServerWindow.ServerWindow) (s : TcpServer) :
  each is_quiet t → shows w s → shows (ServerWindow.deliverAll t w) s.
Proof.
  intros Ht [H1 H2]. destruct (quiet_deliverAll t w Ht) as [Hr Hc].
  split; [by rewrite Hr|]. intros i. by rewrite Hc.
Qed.

Lemma consistent_same_registry (s s' : TcpServer) :
  same_registry s s' → consistent s → consistent s'.
Proof.
  intros (Hc & Hcs & _ & Hn & Hd). apply consistent_view. unfold view.
  by rewrite Hc, Hcs, Hn, Hd.
Qed.

Lemma shows_same_registry (w : ServerWindow.ServerWindow) (s s' : TcpServer) :
  same_registry s s' → shows w s → shows w s'.
Proof. intros (Hc & Hcs & Hl & _) [H1 H2]. split; [congruence|]. intros i. by rewrite Hc, Hcs. Qed.

Lemma tracked_bind {A B : Type} (m : M A) (k : A → M B) :
  tracked m → (∀ a, tracked (k a)) → tracked (m ≫= k).
Proof.
  intros Hm Hk s w Hc Hw. unfold mbind, Act_bind, bind.
  specialize (Hm s w Hc Hw). destruct (m s) as [[a s1] t1]. cbn [fst snd] in Hm.
  destruct Hm as [Hc1 Hw1]. specialize (Hk a s1 _ Hc1 Hw1).
  destruct (k a s1) as [[b s2] t2]. cbn [fst snd] in *.
  by rewrite deliverAll_app.
Qed.

Lemma tracked_ret {A : Type} (a : A) : tracked (mret a : M A).
Proof. by intros s w Hc Hw. Qed.

Lemma tracked_get : tracked (get : M TcpServer).
Proof. by intros s w Hc Hw. Qed.

Lemma tracked_forEach {A : Type} (l : list A) (body : A → M unit) :
  (∀ x, tracked (body x)) → tracked (forEach l body).
Proof.
  intros Hbody. induction l as [|x l IH]; cbn [forEach].
  - apply tracked_ret.
  - apply tracked_bind; [done|]. intros _. apply IH.
Qed.

Lemma sendToClient_quiet (socket : Socket) (message : QJsonObject) :
  keeps same_registry (each is_quiet) (sendToClient socket message).
Proof. unfold sendToClient. keeps_tac. Qed.

Lemma setThresholds_quiet (config : ThresholdConfig) :
  keeps same_registry (each is_quiet) (setThresholds config).
Proof. unfold setThresholds. keeps_tac. Qed.

Lemma onSocketError_quiet (socket : Socket) :
  keeps same_registry (each is_quiet) (onSocketError socket).
Proof. unfold onSocketError. keeps_tac. Qed.

(** A start or a stop of one client, and the slot [onClientStatusChanged]. *)
Lemma setRunning_tracked (running : bool) (op : Z → M unit) (text_of : Z → string) :
  (∀ client_id s,
     op client_id s
     = match client_sockets_ s !! client_id with
       | Some socket =>
           let r := sendToClient socket
                      (command_object (if running then "start" else "stop"))
                      (running_state socket running s) in
           (tt, r.1.2, r.2 ++ [clientStatusChanged client_id running;
                               logMessage (text_of client_id)])
       | None => (tt, s, [logMessage ("Client " +:+ arg_int client_id +:+ " not found")])
       end) →
  ∀ client_id, tracked (op client_id).
Proof.
  intros Hop client_id s w Hc Hw. rewrite Hop.
  destruct (client_sockets_ s !! client_id) as [socket|] eqn:Hid.
  2:{ cbn [fst snd]. split; [done|]. by apply shows_quiet. }
  pose proof Hc as Hc0. apply consistent_lookup in Hc0 as (H1 & H2 & _).
  destruct (H1 _ _ Hid) as (info & Hinfo & Hinfo_id).
  destruct (sendToClient_quiet socket (command_object (if running then "start" else "stop"))
              (running_state socket running s)) as [HR HQ].
  destruct (sendToClient _ _ _) as [[u s1] t1]. cbn [fst snd] in *.
  assert (consistent (running_state socket running s)) as Hc1.
  { apply (consistent_view s); [|done]. apply running_state_view. by eexists. }
  split; [by eapply consistent_same_registry|].
  apply (shows_same_registry _ (running_state socket running s)); [done|].
  rewrite deliverAll_app.
  destruct (quiet_deliverAll t1 w HQ) as [Hr1 Hcl1]. destruct Hw as [Hw1 Hw2].
  assert (ServerWindow.clients_ w !! client_id = Some info) as Hwin.
  { rewrite Hw2, Hid. cbn. done. }
  set (w1 := ServerWindow.deliverAll t1 w) in *. clearbody w1.
  unfold ServerWindow.deliverAll. cbn [foldl ServerWindow.deliver].
  unfold ServerWindow.onLogMessage, ServerWindow.onClientStatusChanged.
  rewrite Hcl1, Hwin. split; [cbn; by rewrite Hr1|].
  intros i. cbn. rewrite Hinfo. cbn.
  destruct (decide (i = client_id)) as [->|Hne].
  - rewrite lookup_insert_eq, Hid. cbn. by rewrite lookup_insert_eq.
  - rewrite lookup_insert_ne by done. rewrite Hw2.
    destruct (client_sockets_ s !! i) as [sk|] eqn:Hi; [|done]. cbn.
    rewrite lookup_insert_ne; [done|]. intros <-.
    destruct (H1 _ _ Hi) as (info' & Hinfo' & Hid'). congruence.
Qed.

Lemma startClient_tracked (client_id : Z) : tracked (startClient client_id).
Proof.
  apply (setRunning_tracked true startClient
           (λ client_id, "Started client " +:+ arg_int client_id)).
  intros cid s. unfold startClient. rewrite bind_get.
  destruct (client_sockets_ s !! cid) as [socket|]; [|done].
  unfold mbind, Act_bind, bind, modify, emit. cbn.
  unfold running_state. by destruct (sendToClient _ _ _) as [[u s1] t1].
Qed.

Lemma stopClient_tracked (client_id : Z) : tracked (stopClient client_id).
Proof.
  apply (setRunning_tracked false stopClient
           (λ client_id, "Stopped client " +:+ arg_int client_id)).
  intros cid s. unfold stopClient. rewrite bind_get.
  destruct (client_sockets_ s !! cid) as [socket|]; [|done].
  unfold mbind, Act_bind, bind, modify, emit. cbn.
  unfold running_state. by destruct (sendToClient _ _ _) as [[u s1] t1].
Qed.

Lemma startAllClients_tracked : tracked startAllClients.
Proof.
  unfold startAllClients. apply tracked_bind; [apply tracked_get|].
  intros s0. apply tracked_forEach. intros socket.
  apply tracked_bind; [apply tracked_get|]. intros s1.
  destruct (clients_ s1 !! socket) as [info|]; [|apply tracked_ret].
  destruct (_ && _); [apply startClient_tracked|apply tracked_ret].
Qed.

Lemma stopAllClients_tracked : tracked stopAllClients.
Proof.
  unfold stopAllClients. apply tracked_bind; [apply tracked_get|].
  intros s0. apply tracked_forEach. intros socket.
  apply tracked_bind; [apply tracked_get|]. intros s1.
  destruct (clients_ s1 !! socket) as [info|]; [|apply tracked_ret].
  destruct (is_running info); [apply stopClient_tracked|apply tracked_ret].
Qed.

Lemma registry_inv_same_registry (s s' : TcpServer) :
  same_registry s s' → registry_inv s → registry_inv s'.
Proof.
  intros (Hc & Hcs & _ & Hn & Hd). apply registry_inv_view. unfold view.
  by rewrite Hc, Hcs, Hn, Hd.
Qed.

Lemma while_listening_view (s s' : TcpServer) :
  view s' = view s → listening_ s' = listening_ s →
  clients_while_listening s → clients_while_listening s'.
Proof.
  unfold view, clients_while_listening. intros Hview Hl Hs Hl'.
  injection Hview as Hids _ _ _. rewrite Hl in Hl'. specialize (Hs Hl').
  rewrite Hs, fmap_empty in Hids. by apply fmap_empty_inv in Hids.
Qed.

(** The operations that keep the view of the registry and the listening
    flag, and that the window tracks. *)
Lemma tracked_step {A : Type} (m : M A) (s : TcpServer) (w : ServerWindow.ServerWindow) :
  tracked m → keeps same_view any_trace m → keeps same_listening any_trace m →
  registry_inv s → clients_while_listening s → shows w s →
  registry_inv (exec m s).1 ∧ clients_while_listening (exec m s).1
  ∧ shows (ServerWindow.deliverAll (exec m s).2 w) (exec m s).1.
Proof.
  intros Htr Hview Hlis Hinv Hcwl Hw.
  destruct (keeps_exec same_view any_trace m s Hview) as [HR _].
  destruct (keeps_exec same_listening any_trace m s Hlis) as [HL _].
  specialize (HR (proj1 Hinv)). specialize (Htr s w (proj1 Hinv) Hw).
  unfold exec in *. destruct (m s) as [[a s'] t]. cbn [fst snd] in *.
  split; [by apply (registry_inv_view s)|]. split; [|apply Htr].
  by apply (while_listening_view s).
Qed.

Lemma startClient_listening (client_id : Z) :
  keeps same_listening any_trace (startClient client_id).
Proof. unfold startClient, sendToClient. keeps_tac. Qed.

Lemma stopClient_listening (client_id : Z) :
  keeps same_listening any_trace (stopClient client_id).
Proof. unfold stopClient, sendToClient. keeps_tac. Qed.

Lemma startAllClients_listening : keeps same_listening any_trace startAllClients.
Proof. unfold startAllClients. keeps_with ltac:(apply startClient_listening). Qed.

Lemma stopAllClients_listening : keeps same_listening any_trace stopAllClients.
Proof. unfold stopAllClients. keeps_with ltac:(apply stopClient_listening). Qed.

Lemma quiet_step {A : Type} (m : M A) (s : TcpServer) (w : ServerWindow.ServerWindow) :
  keeps same_registry (each is_quiet) m →
  registry_inv s → clients_while_listening s → shows w s →
  registry_inv (exec m s).1 ∧ clients_while_listening (exec m s).1
  ∧ shows (ServerWindow.deliverAll (exec m s).2 w) (exec m s).1.
Proof.
  intros Hm Hinv Hcwl Hw.
  destruct (keeps_exec same_registry (each is_quiet) m s Hm) as [HR HQ].
  split; [by eapply registry_inv_same_registry|]. split.
  - destruct HR as (Hc & _ & Hl & _). unfold clients_while_listening.
    rewrite Hc, Hl. done.
  - apply shows_quiet; [done|]. by eapply shows_same_registry.
Qed.

Lemma acceptConnection_run (p : Pending) (s : TcpServer) :
  ∃ t message,
    acceptConnection p s
    = (tt, accepted_state p s,
       t ++ [clientConnected (mkClientInfo (next_client_id_ s) (peerAddress p)
                                (peerPort p) true false);
             logMessage message])
    ∧ each is_quiet t.
Proof.
  unfold acceptConnection, generateClientId.
  unfold mbind, Act_bind, bind, get, modify, emit, mret, Act_ret, ret. cbn.
  match goal with |- context [sendToClient ?a ?b ?c] =>
    pose proof (sendToClient_quiet a b c) as [Hs Ht];
    pose proof (sendToClient_state a b c) as [Hu _];
    destruct (sendToClient a b c) as [[u s'] t] end.
  cbn in *. unfold unchanged in Hu. subst s'. by eexists t, _.
Qed.

Lemma accepted_shows (p : Pending) (s : TcpServer) (w : ServerWindow.ServerWindow) :
  consistent s → clients_ s !! pending_socket p = None → shows w s →
  shows (ServerWindow.deliverAll (exec (acceptConnection p) s).2 w) (accepted_state p s).
Proof.
  intros Hc Hfresh [Hw1 Hw2]. unfold exec.
  destruct (acceptConnection_run p s) as (t & message & -> & Ht). cbn [snd].
  rewrite deliverAll_app. destruct (quiet_deliverAll t w Ht) as [Hr Hcl].
  set (w1 := ServerWindow.deliverAll t w) in *. clearbody w1.
  unfold ServerWindow.deliverAll. cbn [foldl ServerWindow.deliver].
  split; [cbn; congruence|]. intros i. cbn. rewrite Hcl.
  apply consistent_lookup in Hc as (H1 & _).
  destruct (decide (i = next_client_id_ s)) as [->|Hne].
  - rewrite !lookup_insert_eq. cbn. by rewrite lookup_insert_eq.
  - rewrite !lookup_insert_ne by done. rewrite Hw2.
    destruct (client_sockets_ s !! i) as [sk|] eqn:Hi; [|done]. cbn.
    rewrite lookup_insert_ne; [done|]. intros <-.
    destruct (H1 _ _ Hi) as (info' & Hinfo' & _). congruence.
Qed.

Lemma onNewConnection_step (pending : list Pending) (s : TcpServer)
    (w : ServerWindow.ServerWindow) :
  registry_inv s → shows w s →
  op_ok (OpNewConnection pending) s →
  next_client_id_ s + Z.of_nat (length pending) ≤ INT_MAX →
  registry_inv (exec (onNewConnection pending) s).1
  ∧ listening_ (exec (onNewConnection pending) s).1 = listening_ s
  ∧ shows (ServerWindow.deliverAll (exec (onNewConnection pending) s).2 w)
      (exec (onNewConnection pending) s).1.
Proof.
  unfold onNewConnection. revert s w.
  induction pending as [|p ps IH]; intros s w Hinv Hw [Hdup Hfresh] Hmax; [done|].
  cbn [forEach]. rewrite exec_seq. cbn [fst snd].
  pose proof (accepted_shows p s w (proj1 Hinv)) as Hshow.
  destruct (acceptConnection_exec p s) as (t & Hacc & _).
  rewrite Hacc in *. cbn [fst snd] in *.
  cbn [fmap list_fmap] in Hdup. apply NoDup_cons in Hdup as [Hp Hdup].
  apply Forall_cons in Hfresh as [Hp0 Hfresh]. cbn [length] in Hmax.
  destruct (IH (accepted_state p s) (ServerWindow.deliverAll t w)) as (H1 & H2 & H3).
  - apply accepted_state_inv; [done..|lia].
  - by apply Hshow.
  - split; [done|]. apply Forall_forall. intros q Hq. cbn.
    rewrite lookup_insert_ne.
    + by apply (proj1 (Forall_forall _ _) Hfresh).
    + intros Heq. apply Hp. rewrite Heq. by apply list_elem_of_fmap_2.
  - cbn. unfold int_add. destruct Hinv as (_ & _ & Hn).
    rewrite to_int_fits by (unfold INT_MIN, INT_MAX in *; lia). lia.
  - split; [done|]. split; [done|]. by rewrite deliverAll_app.
Qed.

Lemma onReadyRead_quiet (socket : Socket) (data : QByteArray) (s : TcpServer) :
  consistent s →
  ∃ s' t, onReadyRead socket data s = Some (s', t)
          ∧ same_registry s s' ∧ each is_quiet t.
Proof.
  intros Hc.
  destruct (clients_ s !! socket) as [info|] eqn:Hinfo;
    [|unfold onReadyRead; rewrite Hinfo; by eexists _, _].
  destruct (decide (socket = 0%N)) as [->|Hsock].
  { unfold onReadyRead. rewrite Hinfo. by eexists _, _. }
  assert (∀ b, same_registry s (set_buffer socket b s)) as Hset.
  { intros b. unfold same_registry, set_buffer. cbn. repeat split; try done.
    apply consistent_lookup in Hc as (_ & _ & H3).
    rewrite dom_insert_L. apply subseteq_union_1_L, singleton_subseteq_l, elem_of_dom, H3.
    by eexists. }
  destruct (Z.le_gt_cases (size (buffer socket s ++ data)) kMaxBufferSize) as [Hfit|Hover].
  - rewrite (TcpServer_onReadyRead_loop socket info) by done.
    rewrite frameLoop_scan;
      [|apply buffer_set_buffer|apply set_buffer_set_buffer
       |intros m b s0; apply TcpServer_process_setbuf
       |unfold kMaxBufferSize, INT_MAX in *; lia|lia].
    destruct (keeps_runFrames unchanged (each is_quiet)
                (λ m, exec (processClientData (id info) m))
                (scan kMessageDelimiter (buffer socket s ++ data)).1 s) as [HR HQ].
    { intros m s0. apply keeps_exec. unfold processClientData, checkThresholds, getThresholds.
      keeps_tac. }
    unfold unchanged in HR. rewrite HR. by eexists _, _.
  - rewrite (TcpServer_onReadyRead_overflow socket info) by (done || lia).
    eexists _, _. split; [done|]. split; [|done].
    destruct (Hset (buffer socket s ++ data)) as (? & ? & ? & ? & ?).
    unfold same_registry, appendReceived. cbn. done.
Qed.

Lemma abort_calls_quiet (l : list Socket) : each is_quiet (abort_calls l).
Proof. unfold each. induction l as [|x l IH]; [done|]. done. Qed.

(** The window that has dropped the ID of a socket shows the registry that
    has dropped the socket. *)
Lemma shows_disconnected (socket : Socket) (info : ClientInfo) (s s' : TcpServer)
    (w w' : ServerWindow.ServerWindow) :
  consistent s → clients_ s !! socket = Some info → shows w s →
  ServerWindow.server_running_ w' = ServerWindow.server_running_ w →
  ServerWindow.clients_ w' = delete (id info) (ServerWindow.clients_ w) →
  listening_ s' = listening_ s →
  clients_ s' = delete socket (clients_ s) →
  client_sockets_ s' = delete (id info) (client_sockets_ s) →
  shows w' s'.
Proof.
  intros Hc Hinfo [Hw1 Hw2] Hr Hcl Hl Hcs Hids. split; [congruence|].
  intros i. rewrite Hcl, Hcs, Hids.
  apply consistent_lookup in Hc as (H1 & H2 & _).
  destruct (decide (i = id info)) as [->|Hne].
  - by rewrite !lookup_delete_eq.
  - rewrite !lookup_delete_ne by done. rewrite Hw2.
    destruct (client_sockets_ s !! i) as [sk|] eqn:Hi; [|done]. cbn.
    rewrite lookup_delete_ne; [done|]. intros <-.
    destruct (H1 _ _ Hi) as (info' & Hinfo' & Hid'). congruence.
Qed.

(** X21.  The window shows the registry.  Let the registry be consistent,
    with its IDs below the counter and clients only while the server
    listens, and let the window have the server as running exactly when it
    listens and hold, under each ID in use, the record of that client.
    Then every operation of the server that brings new sockets only, while
    the server listens and the counter is within [int], keeps all of this
    at its end, once the window has handled, in their order, the signals
    that the operation has raised.  The end of [stopServer] is its return
    or, with a live socket, the step of the erased iterator; the signals up
    to there include the [clientDisconnected] that [onClientDisconnected]
    raises inside the loop. *)
Theorem X21_window_shows_registry (op : Op) (s : TcpServer)
    (w : ServerWindow.ServerWindow) :
  registry_inv s → clients_while_listening s → shows w s → admissible op s →
  ∃ s' t, step op s = Some (s', t)
          ∧ registry_inv s'
          ∧ clients_while_listening s'
          ∧ shows (ServerWindow.deliverAll t w) s'.
Proof.
  intros Hinv Hcwl Hw (Hok & Hmax & Hlisten).
  assert (∀ A (m : M A),
            registry_inv (exec m s).1 ∧ clients_while_listening (exec m s).1
            ∧ shows (ServerWindow.deliverAll (exec m s).2 w) (exec m s).1 →
            ∃ s' t, Some (exec m s) = Some (s', t) ∧ registry_inv s'
                    ∧ clients_while_listening s'
                    ∧ shows (ServerWindow.deliverAll t w) s') as Hdone.
  { intros A m H. exists (exec m s).1, (exec m s).2. split; [by destruct (exec m s)|done]. }
  destruct op as [p ok e| | | |cid|cid|config|pending|socket|socket data|socket|socket st];
    cbn [step].
  - apply Hdone. destruct Hw as [Hw1 Hw2].
    destruct s as [l c cs n b th sts]. unfold startServer, exec.
    unfold mbind, Act_bind, bind, get, modify, emit, mret, Act_ret, ret. cbn in *.
    destruct l, ok; cbn; (split; [by apply (registry_inv_view _ _ eq_refl Hinv)|]);
      (split; [done|]); split; try done.
  - apply Hdone. pose proof (stopServer_inv s Hinv) as Hinv'. unfold exec in *.
    destruct (stopServer_run s)
      as [[Hall Hrun]|(l1 & x & l2 & info & Hl & Hall & Hx & Hinfo & Hrun)];
      rewrite Hrun in *; cbn [fst snd] in *.
    + split; [done|]. split; [done|].
      rewrite deliverAll_app.
      destruct (quiet_deliverAll _ w (abort_calls_quiet (sockets (clients_ s)))) as [Hr Hcl].
      set (w1 := ServerWindow.deliverAll _ w) in *. clearbody w1.
      destruct Hw as [Hw1 Hw2]. destruct (listening_ s) eqn:Hlis.
      * split; [done|]. intros i. cbn. by rewrite !lookup_empty.
      * split; [cbn; congruence|]. intros i. cbn. rewrite Hcl, Hw2, lookup_empty.
        rewrite (Hcwl Hlis). by destruct (client_sockets_ s !! i).
    + split; [done|]. split.
      { intros Hlis. cbn in Hlis. rewrite (Hcwl Hlis) in Hinfo.
        by rewrite lookup_empty in Hinfo. }
      rewrite deliverAll_app.
      destruct (quiet_deliverAll _ w (abort_calls_quiet l1)) as [Hr Hcl].
      set (w1 := ServerWindow.deliverAll (abort_calls l1) w) in *. clearbody w1.
      apply (shows_disconnected x info s _ w); try done.
      * apply Hinv.
      * cbn. by rewrite Hcl.
  - apply Hdone, tracked_step; try done.
    + apply startAllClients_tracked.
    + apply startAllClients_view.
    + apply startAllClients_listening.
  - apply Hdone, tracked_step; try done.
    + apply stopAllClients_tracked.
    + apply stopAllClients_view.
    + apply stopAllClients_listening.
  - apply Hdone, tracked_step; try done.
    + apply startClient_tracked.
    + apply startClient_view.
    + apply startClient_listening.
  - apply Hdone, tracked_step; try done.
    + apply stopClient_tracked.
    + apply stopClient_view.
    + apply stopClient_listening.
  - apply Hdone, quiet_step; try done; apply setThresholds_quiet.
  - apply Hdone. cbn [accepts] in Hmax, Hlisten.
    destruct (onNewConnection_step pending s w Hinv Hw Hok Hmax) as (H1 & H2 & H3).
    split; [done|]. split; [|done].
    destruct pending as [|p ps]; [done|].
    intros Hl. rewrite H2, Hlisten in Hl; done.
  - apply Hdone. destruct (clients_ s !! socket) as [info|] eqn:Hinfo.
    2:{ unfold onClientDisconnected, exec.
        unfold mbind, Act_bind, bind, get, mret, Act_ret, ret. cbn. by rewrite Hinfo. }
    destruct (decide (socket = 0%N)) as [->|Hsock].
    { unfold onClientDisconnected, exec.
      unfold mbind, Act_bind, bind, get, mret, Act_ret, ret. cbn. by rewrite Hinfo. }
    assert (exec (onClientDisconnected socket) s
            = (disconnected_state socket info s,
               [clientDisconnected (id info);
                logMessage ("Client " +:+ arg_int (id info) +:+ " disconnected");
                socketDeleteLater socket])) as ->.
    { unfold onClientDisconnected, exec.
      unfold mbind, Act_bind, bind, get, modify, emit, mret, Act_ret, ret. cbn.
      rewrite Hinfo. by rewrite bool_decide_eq_false_2 by done. }
    cbn [fst snd]. split; [by apply disconnected_state_inv|]. split.
    + intros Hl. cbn in Hl. rewrite (Hcwl Hl) in Hinfo. by rewrite lookup_empty in Hinfo.
    + apply (shows_disconnected socket info s _ w); try done. apply Hinv.
  - destruct (onReadyRead_quiet socket data s (proj1 Hinv)) as (s' & t & -> & HR & HQ).
    exists s', t. split; [done|].
    split; [by eapply registry_inv_same_registry|]. split.
    + destruct HR as (Hc & _ & Hl & _). unfold clients_while_listening.
      rewrite Hc, Hl. done.
    + apply shows_quiet; [done|]. by eapply shows_same_registry.
  - apply Hdone, quiet_step; try done; apply onSocketError_quiet.
  - eexists _, _. split; [done|]. split; [by apply (registry_inv_view s)|].
    split; [done|]. done.
Qed.

End Mirror.

(** * The command line of the device *)

Section CommandLine.
Import Main.
Context {qt : QtRuntime}.
Variable toUShort : string → Z.

Lemma parseArguments_options (opts : list (string * string)) (rest : list string)
    (host : string) (port : Z) :
  Forall (λ o, is_host_option o.1 || is_port_option o.1 = true) opts →
  parseArguments toUShort (arguments_of opts ++ rest) host port
  = parseArguments toUShort rest (chosen_host opts host) (chosen_port toUShort opts port).
Proof.
  revert host port. induction opts as [|[key value] opts IH]; intros host port Hopts; [done|].
  apply Forall_cons in Hopts as [Hkey Hopts]. cbn in Hkey.
  change (arguments_of ((key, value) :: opts) ++ rest)
    with (key :: value :: (arguments_of opts ++ rest)).
  cbn [parseArguments chosen_host chosen_port foldl fst snd].
  fold (is_host_option key). fold (is_port_option key).
  destruct (is_host_option key) eqn:Hh.
  - by apply IH.
  - cbn in Hkey. rewrite Hkey. by apply IH.
Qed.

(** The first [connectToServer] of a device, as [main] calls it. *)
Lemma connectToServer_init (host : string) (port : Z) :
  exec (Client.connectToServer host port) Client.init
  = (Client.mkClient HostLookupState None None [] host port (-1) Client.Connecting 0 0 0%nat,
     [Client.stateChanged Client.Connecting;
      Client.logMessage (QString_arg (QString_arg "Connecting to %1:%2..." host)
                           (arg_int port));
      Client.socketConnectToHost host port]).
Proof. reflexivity. Qed.

(** X22.  How [main] reads its arguments.  After any number of host and
    port options, each with a value, the host is the value of the last host
    option and the port that of the last port option, the defaults
    [localhost] and 12345 where there is none; a value is taken as it is,
    also when it reads like an option.  [main] then leaves to the event loop
    a device that has stored this host and this port, is Connecting, and has
    called [connectToHost] with them once, after the state change and the
    log line.  An option that is the last argument, without a value, is
    ignored; [--help] in the place of an option ends the program with 0 and
    no device; and any other argument in the place of an option is
    skipped. *)
Theorem X22_command_line (opts : list (string * string)) (rest : list string)
    (program : string) :
  Forall (λ o, is_host_option o.1 || is_port_option o.1 = true) opts →
  let host := chosen_host opts "localhost" in
  let port := chosen_port toUShort opts 12345 in
  let connecting : Z + Client.Client * list Client.Event :=
    inr (Client.mkClient HostLookupState None None [] host port (-1)
           Client.Connecting 0 0 0%nat,
         [Client.stateChanged Client.Connecting;
          Client.logMessage (QString_arg (QString_arg "Connecting to %1:%2..." host)
                               (arg_int port));
          Client.socketConnectToHost host port]) in
  main toUShort (program :: arguments_of opts) = connecting
  ∧ (∀ arg, is_host_option arg || is_port_option arg = true →
            main toUShort (program :: arguments_of opts ++ [arg]) = connecting)
  ∧ main toUShort (program :: arguments_of opts ++ "--help" :: rest) = inl 0
  ∧ (∀ arg, is_host_option arg || is_port_option arg = false → arg ≠ "--help" →
            main toUShort (program :: arguments_of opts ++ arg :: rest)
            = main toUShort (program :: arguments_of opts ++ rest)).
Proof.
  intros Hopts host port connecting. unfold main. cbn [drop]. rewrite !drop_0.
  split; [|split; [|split]].
  - pose proof (parseArguments_options opts [] "localhost" 12345 Hopts) as H.
    rewrite app_nil_r in H. rewrite H. cbn [parseArguments].
    by rewrite connectToServer_init.
  - intros arg Harg. rewrite drop_0, parseArguments_options by done.
    cbn [parseArguments]. fold (is_host_option arg). fold (is_port_option arg).
    destruct (is_host_option arg); [by rewrite connectToServer_init|].
    cbn in Harg. rewrite Harg. by rewrite connectToServer_init.
  - by rewrite parseArguments_options.
  - intros arg Harg Hhelp. rewrite !drop_0, !parseArguments_options by done.
    cbn [parseArguments]. fold (is_host_option arg). fold (is_port_option arg).
    apply orb_false_iff in Harg as [-> ->].
    by rewrite bool_decide_eq_false_2.
Qed.

End CommandLine.

(** * The further properties on the runtime of the wire texts *)

Lemma wire_bounded_in_range : bounded_in_range (qt := Wire.qt).
Proof. intros n lowest highest H. cbn. lia. Qed.

Lemma one_client_inv : Registry.registry_inv Scenario.one_client.
Proof.
  apply (onNewConnection_inv (qt := Wire.qt) [Scenario.p5] TcpServer.init).
  - apply registry_inv_init.
  - split; [apply NoDup_singleton|by repeat constructor].
  - vm_compute. discriminate.
Qed.

Lemma X1_device_onReadyRead_returns_witness :
  size (Client.receive_buffer_ Client.init ++ Wire.command_text "start" ++ [x0a; x7b])
  ≤ INT_MAX
  ∧ ∃ r, Client.onReadyRead (qt := Wire.qt) (Wire.command_text "start" ++ [x0a; x7b])
           Client.init = Some r
         ∧ Client.kMessageDelimiter ∉ Client.receive_buffer_ r.1.
Proof.
  assert (size (Client.receive_buffer_ Client.init
                ++ Wire.command_text "start" ++ [x0a; x7b]) ≤ INT_MAX) as Hsize
    by (vm_compute; discriminate).
  split; [exact Hsize|].
  destruct (X1_device_onReadyRead_returns (qt := Wire.qt)
              (Wire.command_text "start" ++ [x0a; x7b]) Client.init Hsize)
    as (frames & rest & Hrun & _ & _ & Hrest).
  eexists. split; [exact Hrun|]. exact Hrest.
Defined.

Lemma X4_confirm_in_any_state_witness :
  Client.state_ Scenario.running_device = Client.Running
  ∧ (exec (Client.processServerMessage (qt := Wire.qt) (Wire.confirm_text 1))
       Scenario.running_device).1
    = Client.set_state Client.WaitingStart (Client.set_client_id 1 Scenario.running_device).
Proof.
  split; [reflexivity|].
  destruct (X4_confirm_in_any_state (qt := Wire.qt) Scenario.running_device
              (Wire.confirm_text 1) (Wire.confirm_object 1)) as (Hrun & _).
  - vm_compute. reflexivity.
  - vm_compute. reflexivity.
  - rewrite Hrun. reflexivity.
Defined.

Lemma X8_timer_shot_witness :
  ∃ data delay c',
    exec (Client.onSendDataTimer (qt := Wire.qt) Scenario.half) Scenario.running_device
    = (c', [Client.socketWrite (Wire.wire_toJson data ++ [x0a]);
            Client.timerStart Client.SendTimer delay])
    ∧ 10 ≤ delay ≤ 100
    ∧ Client.message_counter_ c' = 1
    ∧ data !! "type" = Some (JString "NetworkMetrics").
Proof.
  destruct (X8_timer_shot (qt := Wire.qt) Scenario.half Scenario.running_device)
    as (data & delay & c' & Hrun & Hdelay & _ & _ & Hcount & Htype & _).
  - apply wire_bounded_in_range.
  - reflexivity.
  - reflexivity.
  - exists data, delay, c'. split; [exact Hrun|]. split; [exact Hdelay|].
    split; [exact Hcount|]. apply Htype. vm_compute. discriminate.
Defined.

Lemma X9_device_status_ranges_witness :
  ∃ step cpu_usage memory_usage,
    (Client.generateDeviceStatus (qt := Wire.qt) Client.init).1.1
    = <["memory_usage" := JInteger memory_usage]>
        (<["cpu_usage" := JInteger cpu_usage]>
           (<["uptime" := JInteger (0 + step)]>
              (<["type" := JString "DeviceStatus"]> ∅)))
    ∧ 1 ≤ step ≤ 59 ∧ 0 ≤ cpu_usage ≤ 99 ∧ 20 ≤ memory_usage ≤ 94.
Proof.
  destruct (X9_device_status_ranges (qt := Wire.qt) Client.init)
    as (step & cpu & mem & Hrun & Hstep & Hcpu & Hmem).
  - apply wire_bounded_in_range.
  - vm_compute. discriminate.
  - vm_compute. discriminate.
  - exists step, cpu, mem. rewrite Hrun. split; [reflexivity|]. split; [exact Hstep|].
    split; [exact Hcpu|exact Hmem].
Defined.

Lemma X10_random_string_witness :
  ∃ s, (Client.generateRandomString (qt := Wire.qt) 3 5 Client.init).1.1 = s
       ∧ 3 ≤ Z.of_nat (String.length s) ≤ 5
       ∧ over Client.chars s.
Proof.
  destruct (X10_random_string (qt := Wire.qt) 3 5 Client.init) as (s & Hrun & Hlen & Hover).
  - apply wire_bounded_in_range.
  - lia.
  - vm_compute. reflexivity.
  - exists s. rewrite Hrun. split; [reflexivity|]. split; [exact Hlen|exact Hover].
Defined.

Lemma X11_log_message_shape_witness :
  ∃ base severity extra,
    (Client.generateLogMessage (qt := Wire.qt) Client.init).1.1 !! "message"
    = Some (JString (base +:+ (if bool_decide (extra = "") then "" else " - " +:+ extra)))
    ∧ (Client.generateLogMessage (qt := Wire.qt) Client.init).1.1 !! "severity"
      = Some (JString severity)
    ∧ base ∈ Client.kLogMessages ∧ severity ∈ Client.kSeverities
    ∧ (String.length extra ≤ 200)%nat.
Proof.
  destruct (X11_log_message_shape (qt := Wire.qt) Client.init)
    as (base & severity & extra & Hrun & Hbase & Hsev & Hlen & _).
  - apply wire_bounded_in_range.
  - exists base, severity, extra. rewrite Hrun. cbn [fst].
    split; [|split; [|split; [exact Hbase|split; [exact Hsev|exact Hlen]]]].
    + rewrite lookup_insert_ne by discriminate. apply lookup_insert_eq.
    + apply lookup_insert_eq.
Defined.

Lemma X14_startAllClients_witness :
  TcpServer.clients_ (exec (TcpServer.startAllClients (qt := Wire.qt)) Scenario.one_client).1
    !! 5%N
  = Some (TcpServer.mkClientInfo 1 "10.0.0.1" 40000 true true)
  ∧ TcpServer.clientStatusChanged 1 true
    ∈ (exec (TcpServer.startAllClients (qt := Wire.qt)) Scenario.one_client).2.
Proof.
  destruct (X14_startAllClients (qt := Wire.qt) Scenario.one_client) as [Hstate Htrace].
  - apply one_client_inv.
  - destruct one_client_record as [Hinfo _]. split.
    + rewrite Hstate. cbn [TcpServer.clients_ TcpServer.set_clients].
      rewrite lookup_fmap, Hinfo. reflexivity.
    + apply Htrace. split; [reflexivity|]. eexists _, _. split; [exact Hinfo|].
      split; reflexivity.
Defined.

Lemma started_client_record :
  TcpServer.clients_ Scenario.started_client !! 5%N
  = Some (TcpServer.mkClientInfo 1 "10.0.0.1" 40000 true true).
Proof. vm_compute. reflexivity. Qed.

Lemma started_client_consistent : TcpServer.consistent Scenario.started_client.
Proof.
  unfold Scenario.started_client.
  rewrite (startClient_exec (qt := Wire.qt) 1 5%N) by (vm_compute; reflexivity).
  apply (consistent_view Scenario.one_client); [|apply one_client_inv].
  apply running_state_view. destruct one_client_record as [-> _]. by eexists.
Qed.

Lemma X15_stopAllClients_witness :
  TcpServer.consistent Scenario.started_client
  ∧ TcpServer.is_running <$> TcpServer.clients_ Scenario.started_client !! 5%N = Some true
  ∧ TcpServer.clients_
      (exec (TcpServer.stopAllClients (qt := Wire.qt)) Scenario.started_client).1 !! 5%N
    = Some (TcpServer.mkClientInfo 1 "10.0.0.1" 40000 true false)
  ∧ TcpServer.clientStatusChanged 1 false
    ∈ (exec (TcpServer.stopAllClients (qt := Wire.qt)) Scenario.started_client).2.
Proof.
  split; [apply started_client_consistent|].
  split; [by rewrite started_client_record|].
  destruct (X15_stopAllClients (qt := Wire.qt) Scenario.started_client
              started_client_consistent) as [Hstate Htrace].
  split.
  - rewrite Hstate. cbn [TcpServer.clients_ TcpServer.set_clients].
    rewrite lookup_fmap, started_client_record. reflexivity.
  - apply Htrace. split; [reflexivity|]. eexists _, _.
    split; [exact started_client_record|]. split; reflexivity.
Defined.

Lemma X16_accept_then_disconnect_witness :
  let r1 := exec (TcpServer.acceptConnection (qt := Wire.qt) Scenario.p5) TcpServer.init in
  let r2 := exec (TcpServer.onClientDisconnected 5) r1.1 in
  TcpServer.clients_ r2.1 = ∅
  ∧ TcpServer.client_sockets_ r2.1 = ∅
  ∧ TcpServer.receive_buffers_ r2.1 = ∅
  ∧ TcpServer.next_client_id_ r2.1 = 2.
Proof.
  destruct (X16_accept_then_disconnect (qt := Wire.qt) Scenario.p5 TcpServer.init)
    as (H1 & H2 & H3 & H4 & _).
  - apply registry_inv_init.
  - reflexivity.
  - discriminate.
  - cbv zeta. split; [exact H1|]. split; [exact H2|]. split; [exact H3|exact H4].
Defined.

Lemma X18_device_status_limits_witness :
  TcpServer.thresholdWarnings (qt := Wire.qt) TcpServer.ThresholdConfig0
    Scenario.fractional_status = [].
Proof.
  destruct (X18_device_status_limits (qt := Wire.qt) TcpServer.ThresholdConfig0
              Scenario.fractional_status) as (_ & _ & _ & Hnone & Hodd).
  - vm_compute. reflexivity.
  - apply Hnone.
    + apply (Hodd "cpu_usage" 90 (JDouble 99.5)).
      * vm_compute. reflexivity.
      * lia.
      * vm_compute. reflexivity.
    + intros [[v Hv] _]. vm_compute in Hv. discriminate Hv.
Defined.

Lemma X20_widgets_stay_synced_witness :
  synced Scenario.idle_window
  ∧ synced (ServerWindow.deliver (qt := Wire.qt) (text := Wire.text)
              TcpServer.serverStarted Scenario.idle_window)
  ∧ ServerWindow.btnStopServer
      (ServerWindow.ui (ServerWindow.deliver (qt := Wire.qt) (text := Wire.text)
                          TcpServer.serverStarted Scenario.idle_window)) = true.
Proof.
  assert (synced Scenario.idle_window) as Hsynced by (vm_compute; repeat split).
  split; [exact Hsynced|].
  destruct (X20_widgets_stay_synced (qt := Wire.qt) (text := Wire.text)
              TcpServer.serverStarted Scenario.idle_window Hsynced) as [H1 _].
  split; [exact H1|reflexivity].
Defined.

Lemma X21_window_shows_registry_witness :
  (∃ s' t,
     TcpServer.step (qt := Wire.qt) (TcpServer.OpNewConnection [Scenario.p5])
       Scenario.listening = Some (s', t)
     ∧ shows (ServerWindow.deliverAll (qt := Wire.qt) (text := Wire.text) t
                Scenario.running_window) s')
  ∧ ∃ s' t,
      TcpServer.step (qt := Wire.qt) TcpServer.OpStopServer Scenario.listening
      = Some (s', t)
      ∧ TcpServer.serverStopped ∈ t
      ∧ shows (ServerWindow.deliverAll (qt := Wire.qt) (text := Wire.text) t
                 Scenario.running_window) s'.
Proof.
  assert (Registry.registry_inv Scenario.listening) as Hinv
    by (apply (registry_inv_view TcpServer.init); [reflexivity|apply registry_inv_init]).
  assert (clients_while_listening Scenario.listening) as Hcwl
    by (intros Hl; discriminate Hl).
  assert (shows Scenario.running_window Scenario.listening) as Hshows0
    by (split; [reflexivity|]; intros i; reflexivity).
  split.
  - destruct (X21_window_shows_registry (qt := Wire.qt) (text := Wire.text)
                (TcpServer.OpNewConnection [Scenario.p5]) Scenario.listening
                Scenario.running_window Hinv Hcwl Hshows0)
      as (s' & t & Hstep & _ & _ & Hshows).
    + split; [|split].
      * split; [apply NoDup_singleton|by repeat constructor].
      * vm_compute. discriminate.
      * reflexivity.
    + exists s', t. split; [exact Hstep|exact Hshows].
  - destruct (X21_window_shows_registry (qt := Wire.qt) (text := Wire.text)
                TcpServer.OpStopServer Scenario.listening
                Scenario.running_window Hinv Hcwl Hshows0)
      as (s' & t & Hstep & _ & _ & Hshows).
    + split; [exact I|]. split; [vm_compute; discriminate|]. intros Hacc. by destruct Hacc.
    + exists s', t. split; [exact Hstep|]. split; [|exact Hshows].
      cbn [TcpServer.step] in Hstep. injection Hstep as _ <-.
      vm_compute. do 2 right. left.
Defined.

Lemma X22_command_line_witness :
  Main.main (qt := Wire.qt) Scenario.toUShort
    ("ClientApp" :: arguments_of Scenario.options)
  = inr (Client.mkClient HostLookupState None None [] "--help" 8080 (-1)
           Client.Connecting 0 0 0%nat,
         [Client.stateChanged Client.Connecting;
          Client.logMessage "Connecting to --help:8080...";
          Client.socketConnectToHost "--help" 8080]).
Proof.
  destruct (X22_command_line (qt := Wire.qt) Scenario.toUShort Scenario.options []
              "ClientApp") as (Hmain & _).
  - repeat constructor.
  - exact Hmain.
Defined.

(** * The collector and the device together *)

Section EndToEnd.
Context {qt : QtRuntime}.

(** One frame, and nothing else, arriving at a device with an empty
    buffer. *)
Lemma Client_onReadyRead_one (text : QByteArray) (c : Client.Client) :
  Client.receive_buffer_ c = [] →
  x0a ∉ text → text ≠ [] → size text < INT_MAX →
  Client.onReadyRead (text ++ [x0a]) c
  = Some (Client.set_receive_buffer [] (exec (Client.processServerMessage text) c).1,
          (exec (Client.processServerMessage text) c).2).
Proof.
  intros Hbuf Habsent Hne Hsize. unfold Client.onReadyRead. rewrite Hbuf.
  cbn [Client.receive_buffer_ Client.set_receive_buffer app].
  pose proof (frameLoop_scan Client.kMessageDelimiter Client.receive_buffer_
                Client.set_receive_buffer (λ m, exec (Client.processServerMessage m))
                (λ b s, eq_refl) (λ b b' s, eq_refl)
                (λ m b s, Client_process_setbuf m b s)
                (S (length (text ++ [x0a]))) (text ++ [x0a]) c) as Hloop.
  rewrite size_app in Hloop. change (size [x0a]) with 1 in Hloop.
  specialize (Hloop ltac:(lia) ltac:(lia)).
  pose proof (scan_one Client.kMessageDelimiter text [] Habsent (not_elem_of_nil _))
    as Hscan.
  rewrite app_nil_r in Hscan. unfold Client.kMessageDelimiter in *.
  rewrite Hscan in Hloop. cbn [fst snd] in Hloop.
  rewrite runFrames_one in Hloop by done. exact Hloop.
Qed.

(** What [sendToClient] does on a socket that is connected. *)
Lemma sendToClient_connected (socket : Socket) (message : QJsonObject)
    (s : TcpServer.TcpServer) :
  socket ≠ 0%N → TcpServer.state socket s = ConnectedState →
  ∃ t, TcpServer.sendToClient socket message s
       = (tt, s, TcpServer.socketWrite socket (toJson message ++ [x0a]) :: t)
       ∧ ∀ sk data, TcpServer.socketWrite sk data ∉ t.
Proof.
  intros Hsock Hstate. unfold TcpServer.sendToClient.
  unfold mbind, Act_bind, bind, get, emit, mret, Act_ret, ret. cbn.
  rewrite bool_decide_eq_false_2 by done.
  rewrite bool_decide_eq_false_2 by (by intros []). cbn.
  destruct (_ =? -1); cbn; [|destruct (negb _); cbn].
  all: eexists; (split; [done|]); intros sk data Hin;
    repeat (apply elem_of_cons in Hin as [?|Hin]; [done|]); by apply elem_of_nil in Hin.
Qed.

(** X23.  The ID that the collector assigns is the ID that the device
    stores.  On an accept the collector writes one frame to the new socket
    and to no other: the text of the ConnectionConfirm with the value of the
    counter, which is the ID it registers and announces.  When the text
    parses back to this object and holds no newline, a device with an empty
    buffer that receives this frame stores this ID, moves to WaitingStart
    and has an empty buffer again. *)
Theorem X23_handshake_ids_agree (p : TcpServer.Pending) (s : TcpServer.TcpServer)
    (c : Client.Client) :
  let socket := TcpServer.pending_socket p in
  let n := TcpServer.next_client_id_ s in
  let text := toJson (Wire.confirm_object n) in
  socket ≠ 0%N → fits_int n = true →
  parses_to text (Wire.confirm_object n) →
  x0a ∉ text → text ≠ [] → size text < INT_MAX →
  Client.receive_buffer_ c = [] →
  let r := exec (TcpServer.acceptConnection p) s in
  TcpServer.socketWrite socket (text ++ [x0a]) ∈ r.2
  ∧ (∀ sk data, TcpServer.socketWrite sk data ∈ r.2 → sk = socket ∧ data = text ++ [x0a])
  ∧ TcpServer.ids_issued r.2 = [n]
  ∧ TcpServer.client_sockets_ r.1 !! n = Some socket
  ∧ ∃ c' t, Client.onReadyRead (text ++ [x0a]) c = Some (c', t)
            ∧ Client.client_id_ c' = n
            ∧ Client.state_ c' = Client.WaitingStart
            ∧ Client.receive_buffer_ c' = [].
Proof.
  intros socket n text Hsock Hfits Hparse Habsent Hne Hsize Hbuf r.
  assert (∃ t, r = (Registry.accepted_state p s,
                    TcpServer.socketWrite socket (text ++ [x0a]) :: t
                    ++ [TcpServer.clientConnected
                          (TcpServer.mkClientInfo n (TcpServer.peerAddress p)
                             (TcpServer.peerPort p) true false);
                        TcpServer.logMessage
                          (QString_arg
                             (QString_arg
                                (QString_arg "Client %1 connected from %2:%3" (arg_int n))
                                (TcpServer.peerAddress p))
                             (arg_int (TcpServer.peerPort p)))])
               ∧ ∀ sk data, TcpServer.socketWrite sk data ∉ t) as (t & Hr & Ht).
  { subst r. unfold TcpServer.acceptConnection, TcpServer.generateClientId, exec.
    unfold mbind, Act_bind, bind, get, modify, emit, mret, Act_ret, ret. cbn.
    match goal with |- context [TcpServer.sendToClient ?a ?b ?c] =>
      destruct (sendToClient_connected a b c) as (t & Hrun & Ht);
        [done|unfold TcpServer.state; cbn; by rewrite lookup_insert_eq|rewrite Hrun] end.
    cbn. by exists t. }
  split; [|split; [|split; [|split]]].
  - rewrite Hr. apply list_elem_of_here.
  - rewrite Hr. cbn [snd]. intros sk data Hin.
    apply elem_of_cons in Hin as [[= -> ->]|Hin]; [done|].
    apply elem_of_app in Hin as [Hin|Hin]; [by apply Ht in Hin|].
    repeat (apply elem_of_cons in Hin as [?|Hin]; [done|]). by apply elem_of_nil in Hin.
  - subst r. destruct (acceptConnection_exec p s) as (t' & -> & Hids). exact Hids.
  - rewrite Hr. cbn. by rewrite lookup_insert_eq.
  - rewrite Client_onReadyRead_one by done. eexists _, _. split; [done|].
    destruct (confirm_exec c text (Wire.confirm_object n) n) as [Hstate Hid].
    + exact Hparse.
    + split; [done|]. split; [done|exact Hfits].
    + cbn. split; [exact Hid|]. split; [exact Hstate|done].
Qed.

(** X24.  The commands of the collector reach the device.  [startClient]
    and [stopClient], for an ID whose socket is connected, each write one
    frame to that socket: the text of the Command.  When the text parses
    back to the command and holds no newline, a device with an empty buffer
    that receives the frame of [startClient] is Running with its send timer
    pending, and one that receives the frame of [stopClient] is Stopped with
    no send timer pending. *)
Theorem X24_commands_reach_device (command : string) (client_id : Z) (socket : Socket)
    (s : TcpServer.TcpServer) (c : Client.Client) :
  let text := toJson (TcpServer.command_object command) in
  TcpServer.client_sockets_ s !! client_id = Some socket →
  socket ≠ 0%N → TcpServer.state socket s = ConnectedState →
  parses_to text (TcpServer.command_object command) →
  x0a ∉ text → text ≠ [] → size text < INT_MAX →
  Client.receive_buffer_ c = [] →
  (command = "start" →
   TcpServer.socketWrite socket (text ++ [x0a])
   ∈ (exec (TcpServer.startClient client_id) s).2
   ∧ ∃ c' t, Client.onReadyRead (text ++ [x0a]) c = Some (c', t)
             ∧ Client.state_ c' = Client.Running
             ∧ is_Some (Client.send_timer_ c'))
  ∧ (command = "stop" →
     TcpServer.socketWrite socket (text ++ [x0a])
     ∈ (exec (TcpServer.stopClient client_id) s).2
     ∧ ∃ c' t, Client.onReadyRead (text ++ [x0a]) c = Some (c', t)
               ∧ Client.state_ c' = Client.Stopped
               ∧ Client.send_timer_ c' = None).
Proof.
  intros text Hid Hsock Hstate Hparse Habsent Hne Hsize Hbuf.
  assert (∀ running, TcpServer.state socket (Registry.running_state socket running s)
                     = ConnectedState) as Hstate'.
  { intros running. exact Hstate. }
  split; intros ->.
  - split.
    + unfold TcpServer.startClient, exec. rewrite bind_get, Hid.
      unfold mbind at 1, Act_bind, bind, modify. cbn.
      unfold mbind at 1, Act_bind, bind.
      destruct (sendToClient_connected socket (TcpServer.command_object "start")
                  (Registry.running_state socket true s) Hsock (Hstate' true))
        as (t & Hrun & _).
      unfold Registry.running_state in Hrun. rewrite Hrun.
      unfold mbind, Act_bind, bind, emit. cbn. apply list_elem_of_here.
    + rewrite Client_onReadyRead_one by done. eexists _, _. split; [done|].
      destruct (start_exec c text (TcpServer.command_object "start")) as [H1 H2];
        [exact Hparse|by split|]. by split.
  - split.
    + unfold TcpServer.stopClient, exec. rewrite bind_get, Hid.
      unfold mbind at 1, Act_bind, bind, modify. cbn.
      unfold mbind at 1, Act_bind, bind.
      destruct (sendToClient_connected socket (TcpServer.command_object "stop")
                  (Registry.running_state socket false s) Hsock (Hstate' false))
        as (t & Hrun & _).
      unfold Registry.running_state in Hrun. rewrite Hrun.
      unfold mbind, Act_bind, bind, emit. cbn. apply list_elem_of_here.
    + rewrite Client_onReadyRead_one by done. eexists _, _. split; [done|].
      destruct (stop_exec c text (TcpServer.command_object "stop")) as (H1 & H2 & _);
        [exact Hparse|by split|]. by split.
Qed.

(** X25.  What [sendToClient] does.  It never changes a field of the
    server.  It does nothing at all for the null socket and for a socket
    that is not in ConnectedState.  Otherwise it writes the text of the
    message and the delimiter, once, and then logs a write error when
    [write] returns -1, a partial write with both counts when it returns
    another number than the size of the data, and nothing when it returns
    the size. *)
Theorem X25_sendToClient_outcomes (socket : Socket) (message : QJsonObject)
    (s : TcpServer.TcpServer) :
  let data := toJson message ++ [TcpServer.kMessageDelimiter] in
  let written := socket_write socket data in
  let r := exec (TcpServer.sendToClient socket message) s in
  r.1 = s
  ∧ (socket = 0%N ∨ TcpServer.state socket s ≠ ConnectedState → r.2 = [])
  ∧ (socket ≠ 0%N → TcpServer.state socket s = ConnectedState →
     (written = -1 →
      r.2 = [TcpServer.socketWrite socket data;
             TcpServer.logMessage ("Write error: " +:+ socket_errorString socket)])
     ∧ (written ≠ -1 → written ≠ size data →
        r.2 = [TcpServer.socketWrite socket data;
               TcpServer.logMessage ("Partial write: " +:+ arg_int written +:+ "/"
                                     +:+ arg_int (size data) +:+ " bytes")])
     ∧ (written = size data → r.2 = [TcpServer.socketWrite socket data])).
Proof.
  intros data written r. subst r. unfold TcpServer.sendToClient, exec.
  unfold mbind, Act_bind, bind, get, emit, mret, Act_ret, ret. cbn.
  fold data. fold written.
  destruct (decide (socket = 0%N)) as [->|Hsock].
  { cbn. split; [done|]. split; [done|]. by intros ?. }
  rewrite (bool_decide_eq_false_2 (socket = 0%N)) by done. cbn.
  destruct (decide (TcpServer.state socket s = ConnectedState)) as [Hst|Hst].
  - rewrite bool_decide_eq_false_2 by (by intros ?). cbn.
    pose proof (size_nonneg data) as Hsize.
    destruct (Z.eqb_spec written (-1)) as [Hw|Hw]; cbn.
    + split; [done|]. split; [by intros [?|?]|]. intros _ _.
      split; [done|]. split; [done|]. intros Heq. lia.
    + destruct (Z.eqb_spec written (size data)) as [Hw'|Hw']; cbn.
      * split; [done|]. split; [by intros [?|?]|]. intros _ _.
        split; [done|]. split; [done|]. done.
      * split; [done|]. split; [by intros [?|?]|]. intros _ _.
        split; [done|]. split; [done|]. done.
  - rewrite bool_decide_eq_true_2 by done. cbn.
    split; [done|]. split; [done|]. by intros _ ?.
Qed.

End EndToEnd.

Lemma X23_handshake_ids_agree_witness :
  let r := exec (TcpServer.acceptConnection (qt := Wire.qt) Scenario.p5) TcpServer.init in
  TcpServer.socketWrite 5 (Wire.confirm_text 1 ++ [x0a]) ∈ r.2
  ∧ ∃ c' t, Client.onReadyRead (qt := Wire.qt) (Wire.confirm_text 1 ++ [x0a]) Client.init
            = Some (c', t)
            ∧ Client.client_id_ c' = 1
            ∧ Client.state_ c' = Client.WaitingStart.
Proof.
  destruct (X23_handshake_ids_agree (qt := Wire.qt) Scenario.p5 TcpServer.init Client.init)
    as (Hwrite & _ & _ & _ & c' & t & Hread & Hid & Hstate & _).
  - discriminate.
  - reflexivity.
  - vm_compute. reflexivity.
  - apply absent_forallb. vm_compute. reflexivity.
  - discriminate.
  - vm_compute. reflexivity.
  - reflexivity.
  - cbv zeta. split; [exact Hwrite|]. exists c', t.
    split; [exact Hread|]. split; [exact Hid|exact Hstate].
Defined.

Lemma X24_commands_reach_device_witness :
  TcpServer.socketWrite 5 (Wire.command_text "start" ++ [x0a])
  ∈ (exec (TcpServer.startClient (qt := Wire.qt) 1) Scenario.one_client).2
  ∧ ∃ c' t, Client.onReadyRead (qt := Wire.qt) (Wire.command_text "start" ++ [x0a])
              Client.init = Some (c', t)
            ∧ Client.state_ c' = Client.Running.
Proof.
  destruct (X24_commands_reach_device (qt := Wire.qt) "start" 1 5 Scenario.one_client
              Client.init) as [Hstart _].
  - vm_compute. reflexivity.
  - discriminate.
  - vm_compute. reflexivity.
  - vm_compute. reflexivity.
  - apply absent_forallb. vm_compute. reflexivity.
  - discriminate.
  - vm_compute. reflexivity.
  - reflexivity.
  - destruct (Hstart eq_refl) as (Hwrite & c' & t & Hread & Hstate & _).
    split; [exact Hwrite|]. exists c', t. split; [exact Hread|exact Hstate].
Defined.
